(** * runeseg: Unicode text segmentation and line breaking (UAX #29, UAX #14)

  A shallow embedding of the stepping function [Step] / [StepString], of the
  grapheme-cluster machine, of both line-break machines (the table driven
  [transitionLineBreakState] and the context based
  [transitionLineBreakContext]) and of the property look-up functions of the
  Go package, followed by the properties of its specification.

  Conventions.
  - Go [int] is a 64-bit two's complement integer: it is a [Z], and the
    operations that can leave the range ([<<], [+]) are wrapped by [wrap64].
    [&], [|], [&^] and [>>] are [Z.land], [Z.lor], [Z.ldiff] and [Z.shiftr]
    (an arithmetic shift on negative numbers, as in Go).
  - [[]byte] and [string] are both [list byte]; a [nil] slice argument is
    [None].  Slice expressions [b[:n]] and [b[n:]] are [firstn] and [skipn].
  - Loops are fixpoints on a fuel; they return [None] when the fuel runs
    out, and each one comes with a proof that this does not happen.
  - The generated property tables, the word and the sentence machine and
    [runeWidth] belong to other files of the package; here they are the
    fields of the class [Externals].  The theorems hold for all of them;
    evaluations on concrete texts use the instance [sampleExternals]. *)

From Stdlib Require Import ZArith List Bool Lia.
From Stdlib Require Import Strings.Byte.
From Stdlib Require Import Sorted.
Import ListNotations.
Local Open Scope Z_scope.

(** ** Machine integers *)

Definition wrap64 (z : Z) : Z := (z + 2 ^ 63) mod 2 ^ 64 - 2 ^ 63.

(** [uint64(x)] *)
Definition uint64 (z : Z) : Z := z mod 2 ^ 64.

(** [x << n] on [int] *)
Definition shl (x n : Z) : Z := wrap64 (Z.shiftl x n).

(** [x + y] on [int] *)
Definition add64 (x y : Z) : Z := wrap64 (x + y).

(** [x &^ y] *)
Definition andnot (x y : Z) : Z := Z.ldiff x y.

Definition rune := Z.
Definition bytes := list byte.

Definition b2z (x : byte) : Z := Z.of_N (Byte.to_N x).

(** [len(b)] *)
Definition len (b : bytes) : Z := Z.of_nat (length b).

(** ** Property constants (properties.go) *)

Module Pr.
Definition prXX : Z := 0.
Definition prAny : Z := 1.
Definition prPrepend : Z := 2.
Definition prCR : Z := 3.
Definition prLF : Z := 4.
Definition prControl : Z := 5.
Definition prExtend : Z := 6.
Definition prRegionalIndicator : Z := 7.
Definition prSpacingMark : Z := 8.
Definition prL : Z := 9.
Definition prV : Z := 10.
Definition prT : Z := 11.
Definition prLV : Z := 12.
Definition prLVT : Z := 13.
Definition prZWJ : Z := 14.
Definition prExtendedPictographic : Z := 15.
Definition prNewline : Z := 16.
Definition prWSegSpace : Z := 17.
Definition prDoubleQuote : Z := 18.
Definition prSingleQuote : Z := 19.
Definition prMidNumLet : Z := 20.
Definition prNumeric : Z := 21.
Definition prMidLetter : Z := 22.
Definition prMidNum : Z := 23.
Definition prExtendNumLet : Z := 24.
Definition prALetter : Z := 25.
Definition prFormat : Z := 26.
Definition prHebrewLetter : Z := 27.
Definition prKatakana : Z := 28.
Definition prSp : Z := 29.
Definition prSTerm : Z := 30.
Definition prClose : Z := 31.
Definition prSContinue : Z := 32.
Definition prATerm : Z := 33.
Definition prUpper : Z := 34.
Definition prLower : Z := 35.
Definition prSep : Z := 36.
Definition prOLetter : Z := 37.
Definition prCM : Z := 38.
Definition prBA : Z := 39.
Definition prBK : Z := 40.
Definition prSP : Z := 41.
Definition prEX : Z := 42.
Definition prQU : Z := 43.
Definition prAL : Z := 44.
Definition prPR : Z := 45.
Definition prPO : Z := 46.
Definition prOP : Z := 47.
Definition prCP : Z := 48.
Definition prIS : Z := 49.
Definition prHY : Z := 50.
Definition prSY : Z := 51.
Definition prNU : Z := 52.
Definition prCL : Z := 53.
Definition prNL : Z := 54.
Definition prGL : Z := 55.
Definition prAI : Z := 56.
Definition prBB : Z := 57.
Definition prHL : Z := 58.
Definition prSA : Z := 59.
Definition prJL : Z := 60.
Definition prJV : Z := 61.
Definition prJT : Z := 62.
Definition prNS : Z := 63.
Definition prZW : Z := 64.
Definition prB2 : Z := 65.
Definition prIN : Z := 66.
Definition prWJ : Z := 67.
Definition prID : Z := 68.
Definition prEB : Z := 69.
Definition prCJ : Z := 70.
Definition prH2 : Z := 71.
Definition prH3 : Z := 72.
Definition prSG : Z := 73.
Definition prCB : Z := 74.
Definition prRI : Z := 75.
Definition prEM : Z := 76.
Definition prN : Z := 77.
Definition prNa : Z := 78.
Definition prA : Z := 79.
Definition prW : Z := 80.
Definition prH : Z := 81.
Definition prF : Z := 82.
Definition prEmojiPresentation : Z := 83.
Definition prALetterExtPict : Z := 84.
Definition prAK : Z := 85.
Definition prAP : Z := 86.
Definition prAS : Z := 87.
Definition prVF : Z := 88.
Definition prVI : Z := 89.
Definition prHH : Z := 90.
Definition prInCBNone : Z := 91.
Definition prInCBLinker : Z := 92.
Definition prInCBConsonant : Z := 93.
Definition prInCBExtend : Z := 94.
End Pr.
Export Pr.

(** General categories. *)
Module Gc.
Definition gcNone : Z := 0.
Definition gcCc : Z := 1.
Definition gcZs : Z := 2.
Definition gcPo : Z := 3.
Definition gcSc : Z := 4.
Definition gcPs : Z := 5.
Definition gcPe : Z := 6.
Definition gcSm : Z := 7.
Definition gcPd : Z := 8.
Definition gcNd : Z := 9.
Definition gcLu : Z := 10.
Definition gcSk : Z := 11.
Definition gcPc : Z := 12.
Definition gcLl : Z := 13.
Definition gcSo : Z := 14.
Definition gcLo : Z := 15.
Definition gcPi : Z := 16.
Definition gcCf : Z := 17.
Definition gcNo : Z := 18.
Definition gcPf : Z := 19.
Definition gcLC : Z := 20.
Definition gcLm : Z := 21.
Definition gcMn : Z := 22.
Definition gcMe : Z := 23.
Definition gcMc : Z := 24.
Definition gcNl : Z := 25.
Definition gcZl : Z := 26.
Definition gcZp : Z := 27.
Definition gcCn : Z := 28.
Definition gcCs : Z := 29.
Definition gcCo : Z := 30.
End Gc.
Export Gc.

Definition vs15 : Z := 0xfe0e.
Definition vs16 : Z := 0xfe0f.

(** Line break verdicts (linebreak.go). *)
Definition LineDontBreak : Z := 0.
Definition LineCanBreak : Z := 1.
Definition LineMustBreak : Z := 2.

(** ** Table look-up (properties.go) *)

(** The type constraint [interface{ [3]int | [4]int }] of [propertySearch]:
  an entry has a first and a last code point, and a zero value. *)
Class RangeEntry (E : Type) := {
entryLo : E -> Z;
entryHi : E -> Z;
entryZero : E
}.

Definition Entry3 : Type := Z * Z * Z.
Definition Entry4 : Type := Z * Z * Z * Z.

#[global] Instance RangeEntry3 : RangeEntry Entry3 := {
entryLo := fun e => fst (fst e);
entryHi := fun e => snd (fst e);
entryZero := (0, 0, 0)
}.

#[global] Instance RangeEntry4 : RangeEntry Entry4 := {
entryLo := fun e => fst (fst (fst e));
entryHi := fun e => snd (fst (fst e));
entryZero := (0, 0, 0, 0)
}.

Section PropertySearch.
Context {E : Type} `{RangeEntry E}.
Variable dictionary : list E.
Variable r : rune.

(** The binary search loop [for to > from { ... }]; leaving the loop returns
    the zero entry. *)
Fixpoint propertySearchLoop (fuel from to : nat) : option E :=
  if (to <=? from)%nat then Some entryZero
  else
    match fuel with
    | O => None
    | S fuel' =>
        let middle := ((from + to) / 2)%nat in
        let cpRange := nth middle dictionary entryZero in
        if r <? entryLo cpRange then propertySearchLoop fuel' from middle
        else if entryHi cpRange <? r then propertySearchLoop fuel' (middle + 1)%nat to
        else Some cpRange
    end.

Definition propertySearch : E :=
  match propertySearchLoop (length dictionary) 0 (length dictionary) with
  | Some e => e
  | None => entryZero
  end.
End PropertySearch.

(** [property(dictionary, r)] is [propertySearch(dictionary, r)[2]]. *)
Definition property (dictionary : list Entry3) (r : rune) : Z :=
snd (propertySearch dictionary r).

(** ** Tables and functions of the other files of the package *)

Class Externals := {
(** generated tables, rows [[first, last, property]] *)
graphemeCodePoints : list Entry3;
incbCodePoints : list Entry3;
eastAsianWidth : list Entry3;
(** generated table, rows [[first, last, property, general category]] *)
lineBreakCodePoints : list Entry4;
(** initial states of the word and the sentence machine *)
wbAny : Z;
sbAny : Z;
(** [transitionWordBreakState(state, r, b, str) (newState, wordBreak)] *)
transitionWordBreakState : Z -> rune -> option bytes -> bytes -> Z * bool;
(** [transitionSentenceBreakState(state, r, b, str) (newState, sentenceBreak)] *)
transitionSentenceBreakState : Z -> rune -> option bytes -> bytes -> Z * bool;
(** [runeWidth(r, graphemeProperty)] *)
runeWidth : rune -> Z -> Z
}.

Section Properties.
Context {ext : Externals}.

Definition propertyLineBreak (r : rune) : Z * Z :=
  if (0x61 <=? r) && (r <=? 0x7a) then (prAL, gcLl)
  else if (0x41 <=? r) && (r <=? 0x5a) then (prAL, gcLu)
  else if (0x30 <=? r) && (r <=? 0x39) then (prNU, gcNd)
  else
    let entry := propertySearch lineBreakCodePoints r in
    (snd (fst entry), snd entry).

Definition propertyGraphemes (r : rune) : Z :=
  if (0x20 <=? r) && (r <=? 0x7e) then prAny
  else if r =? 0x0a then prLF
  else if r =? 0x0d then prCR
  else if (0 <=? r) && (r <=? 0x1f) || (r =? 0x7f) then prControl
  else property graphemeCodePoints r.

Definition propertyEastAsianWidth (r : rune) : Z :=
  if (0x20 <=? r) && (r <=? 0x7e) then prNa
  else if (0 <=? r) && (r <=? 0x1f) || (r =? 0x7f) then prN
  else property eastAsianWidth r.

Definition propertyInCB (r : rune) : Z :=
  if r <? 0x0300 then prInCBNone
  else property incbCodePoints r.
End Properties.

(** ** UTF-8 decoding (Go's unicode/utf8) *)

Module utf8.
Definition RuneError : rune := 0xFFFD.
Definition maskx : Z := 0x3F.
Definition mask2 : Z := 0x1F.
Definition mask3 : Z := 0x0F.
Definition mask4 : Z := 0x07.
Definition locb : Z := 0x80.
Definition hicb : Z := 0xBF.
Definition xx : Z := 0xF1.
Definition as_ : Z := 0xF0.
Definition s1 : Z := 0x02.
Definition s2 : Z := 0x13.
Definition s3 : Z := 0x03.
Definition s4 : Z := 0x23.
Definition s5 : Z := 0x34.
Definition s6 : Z := 0x04.
Definition s7 : Z := 0x44.

(** The table [first[256]], by its ranges. *)
Definition first (p0 : Z) : Z :=
  if p0 <=? 0x7F then as_
  else if p0 <=? 0xC1 then xx
  else if p0 <=? 0xDF then s1
  else if p0 =? 0xE0 then s2
  else if p0 <=? 0xEC then s3
  else if p0 =? 0xED then s4
  else if p0 <=? 0xEF then s3
  else if p0 =? 0xF0 then s5
  else if p0 <=? 0xF3 then s6
  else if p0 =? 0xF4 then s7
  else xx.

(** The table [acceptRanges[16]], as (lo, hi). *)
Definition acceptRanges (i : Z) : Z * Z :=
  if i =? 0 then (locb, hicb)
  else if i =? 1 then (0xA0, hicb)
  else if i =? 2 then (locb, 0x9F)
  else if i =? 3 then (0x90, hicb)
  else if i =? 4 then (locb, 0x8F)
  else (0, 0).

(** [DecodeRune(p) (r rune, size int)]. *)
Definition DecodeRune (p : bytes) : rune * nat :=
  match p with
  | [] => (RuneError, 0%nat)
  | c0 :: _ =>
      let n := len p in
      let p0 := b2z c0 in
      let x := first p0 in
      if as_ <=? x then
        (* mask := rune(x) << 31 >> 31 is all ones exactly when x == xx *)
        ((if x =? xx then RuneError else p0), 1%nat)
      else
        let sz := Z.land x 7 in
        let accept := acceptRanges (Z.shiftr x 4) in
        if n <? sz then (RuneError, 1%nat)
        else
          let b1 := b2z (nth 1 p x00) in
          if (b1 <? fst accept) || (snd accept <? b1) then (RuneError, 1%nat)
          else if sz <=? 2 then
            (Z.lor (Z.shiftl (Z.land p0 mask2) 6) (Z.land b1 maskx), 2%nat)
          else
            let b2 := b2z (nth 2 p x00) in
            if (b2 <? locb) || (hicb <? b2) then (RuneError, 1%nat)
            else if sz <=? 3 then
              (Z.lor (Z.lor (Z.shiftl (Z.land p0 mask3) 12)
                            (Z.shiftl (Z.land b1 maskx) 6))
                     (Z.land b2 maskx), 3%nat)
            else
              let b3 := b2z (nth 3 p x00) in
              if (b3 <? locb) || (hicb <? b3) then (RuneError, 1%nat)
              else
                (Z.lor (Z.lor (Z.lor (Z.shiftl (Z.land p0 mask4) 18)
                                     (Z.shiftl (Z.land b1 maskx) 12))
                              (Z.shiftl (Z.land b2 maskx) 6))
                       (Z.land b3 maskx), 4%nat)
  end.

(** [DecodeRuneInString] reads the bytes of the string in the same way. *)
Definition DecodeRuneInString (s : bytes) : rune * nat := DecodeRune s.
End utf8.

(** ** The [switch uint64(state) | uint64(prop)<<32] of the transition tables *)

Definition switchKey (state prop : Z) : Z :=
  Z.lor (uint64 state) (uint64 (Z.shiftl (uint64 prop) 32)).

(** The cases in source order, each [(state, prop, result)] standing for
    [case state | prop<<32: return result]; [default: return -1, -1, -1]. *)
Fixpoint switchLookup (key : Z) (cases : list (Z * Z * (Z * Z * Z))) : Z * Z * Z :=
  match cases with
  | [] => (-1, -1, -1)
  | (s, p, res) :: rest =>
      if key =? Z.lor s (Z.shiftl p 32) then res else switchLookup key rest
  end.

(** ** Grapheme clusters (grapheme rules) *)

Definition grAny : Z := 0.
Definition grCR : Z := 1.
Definition grControlLF : Z := 2.
Definition grL : Z := 3.
Definition grLVV : Z := 4.
Definition grLVTT : Z := 5.
Definition grPrepend : Z := 6.
Definition grExtendedPictographic : Z := 7.
Definition grExtendedPictographicZWJ : Z := 8.
Definition grRIOdd : Z := 9.
Definition grRIEven : Z := 10.

Definition grInCBNone : Z := 0x0000.
Definition grInCBConsonant : Z := 0x0100.
Definition grInCBExtend : Z := 0x0200.
Definition grInCBLinker : Z := 0x0300.
Definition grInCBMask : Z := 0x0F00.

Definition grNoBoundary : Z := 0.
Definition grBoundary : Z := 1.

Definition grCases : list (Z * Z * (Z * Z * Z)) :=
  [ (grAny, prCR, (grCR, grBoundary, 50))
  ; (grAny, prLF, (grControlLF, grBoundary, 50))
  ; (grAny, prControl, (grControlLF, grBoundary, 50))
  ; (grCR, prAny, (grAny, grBoundary, 40))
  ; (grControlLF, prAny, (grAny, grBoundary, 40))
  ; (grCR, prLF, (grControlLF, grNoBoundary, 30))
  ; (grAny, prL, (grL, grBoundary, 9990))
  ; (grL, prL, (grL, grNoBoundary, 60))
  ; (grL, prV, (grLVV, grNoBoundary, 60))
  ; (grL, prLV, (grLVV, grNoBoundary, 60))
  ; (grL, prLVT, (grLVTT, grNoBoundary, 60))
  ; (grAny, prLV, (grLVV, grBoundary, 9990))
  ; (grAny, prV, (grLVV, grBoundary, 9990))
  ; (grLVV, prV, (grLVV, grNoBoundary, 70))
  ; (grLVV, prT, (grLVTT, grNoBoundary, 70))
  ; (grAny, prLVT, (grLVTT, grBoundary, 9990))
  ; (grAny, prT, (grLVTT, grBoundary, 9990))
  ; (grLVTT, prT, (grLVTT, grNoBoundary, 80))
  ; (grAny, prExtend, (grAny, grNoBoundary, 90))
  ; (grAny, prZWJ, (grAny, grNoBoundary, 90))
  ; (grAny, prSpacingMark, (grAny, grNoBoundary, 91))
  ; (grAny, prPrepend, (grPrepend, grBoundary, 9990))
  ; (grPrepend, prAny, (grAny, grNoBoundary, 92))
  ; (grAny, prExtendedPictographic, (grExtendedPictographic, grBoundary, 9990))
  ; (grExtendedPictographic, prExtend, (grExtendedPictographic, grNoBoundary, 110))
  ; (grExtendedPictographic, prZWJ, (grExtendedPictographicZWJ, grNoBoundary, 110))
  ; (grExtendedPictographicZWJ, prExtendedPictographic, (grExtendedPictographic, grNoBoundary, 110))
  ; (grAny, prRegionalIndicator, (grRIOdd, grBoundary, 9990))
  ; (grRIOdd, prRegionalIndicator, (grRIEven, grNoBoundary, 120))
  ; (grRIEven, prRegionalIndicator, (grRIOdd, grBoundary, 120)) ].

Definition grTransitions (state prop : Z) : Z * Z * Z :=
  switchLookup (switchKey state prop) grCases.

Section Grapheme.
Context {ext : Externals}.

(** [transitionGraphemeState(state, r) (newState, prop, boundary)].  The two
    copies of this function in the sources differ only in writing the
    InCB=Extend case as a [switch] or as an [if] chain. *)
Definition transitionGraphemeState (state : Z) (r : rune) : Z * Z * bool :=
  let prop := propertyGraphemes r in
  let incbState := Z.land state grInCBMask in
  let state := Z.land state 0xFF in
  let incbProp := propertyInCB r in
  let '(nextState, nextProp, _) := grTransitions state prop in
  let '(newState, boundary) :=
    if 0 <=? nextState then (nextState, nextProp =? grBoundary)
    else
      let '(anyPropState, anyPropProp, anyPropRule) := grTransitions state prAny in
      let '(anyStateState, anyStateProp, anyStateRule) := grTransitions grAny prop in
      if (0 <=? anyPropState) && (0 <=? anyStateState) then
        (anyStateState,
         if anyPropRule <? anyStateRule then anyPropProp =? grBoundary
         else anyStateProp =? grBoundary)
      else if 0 <=? anyPropState then (anyPropState, anyPropProp =? grBoundary)
      else if 0 <=? anyStateState then (anyStateState, anyStateProp =? grBoundary)
      else (grAny, true) in
  (* GB9c *)
  if incbProp =? prInCBConsonant then
    (Z.lor newState grInCBConsonant, prop,
     if incbState =? grInCBLinker then false else boundary)
  else if incbProp =? prInCBLinker then
    if (incbState =? grInCBConsonant) || (incbState =? grInCBExtend)
       || (incbState =? grInCBLinker)
    then (Z.lor newState grInCBLinker, prop, boundary)
    else (newState, prop, boundary)
  else if incbProp =? prInCBExtend then
    if incbState =? grInCBConsonant then (Z.lor newState grInCBExtend, prop, boundary)
    else if incbState =? grInCBExtend then (Z.lor newState grInCBExtend, prop, boundary)
    else if incbState =? grInCBLinker then (Z.lor newState grInCBLinker, prop, boundary)
    else (newState, prop, boundary)
  else (newState, prop, boundary).
End Grapheme.

(** ** Line breaking, table driven machine (line rules) *)

Definition lbAny : Z := 0.
Definition lbBK : Z := 1.
Definition lbCR : Z := 2.
Definition lbLF : Z := 3.
Definition lbNL : Z := 4.
Definition lbSP : Z := 5.
Definition lbZW : Z := 6.
Definition lbWJ : Z := 7.
Definition lbGL : Z := 8.
Definition lbBA : Z := 9.
Definition lbHY : Z := 10.
Definition lbCL : Z := 11.
Definition lbCP : Z := 12.
Definition lbEX : Z := 13.
Definition lbIS : Z := 14.
Definition lbSY : Z := 15.
Definition lbOP : Z := 16.
Definition lbQU : Z := 17.
Definition lbQUPi : Z := 18.
Definition lbQUSP : Z := 19.
Definition lbQUPiSP : Z := 20.
Definition lbNS : Z := 21.
Definition lbCLCPSP : Z := 22.
Definition lbB2 : Z := 23.
Definition lbB2SP : Z := 24.
Definition lbCB : Z := 25.
Definition lbBB : Z := 26.
Definition lbLB21a : Z := 27.
Definition lbHL : Z := 28.
Definition lbAL : Z := 29.
Definition lbNU : Z := 30.
Definition lbPR : Z := 31.
Definition lbEB : Z := 32.
Definition lbIDEM : Z := 33.
Definition lbNUNU : Z := 34.
Definition lbNUSY : Z := 35.
Definition lbNUIS : Z := 36.
Definition lbNUCL : Z := 37.
Definition lbNUCP : Z := 38.
Definition lbPO : Z := 39.
Definition lbJL : Z := 40.
Definition lbJV : Z := 41.
Definition lbJT : Z := 42.
Definition lbH2 : Z := 43.
Definition lbH3 : Z := 44.
Definition lbOddRI : Z := 45.
Definition lbEvenRI : Z := 46.
Definition lbExtPicCn : Z := 47.
Definition lbAK : Z := 48.
Definition lbAP : Z := 49.
Definition lbAS : Z := 50.
Definition lbAKVI : Z := 51.
Definition lbHH : Z := 52.
Definition lbCPHY : Z := 53.
Definition lbDottedCircle : Z := 54.
Definition lbZWJBit : Z := 128.
Definition lbCPeaFWHBit : Z := 256.
Definition lbSotBit : Z := 512.

Definition lbCases : list (Z * Z * (Z * Z * Z)) :=
  [ (lbAny, prHH, (lbHH, LineDontBreak, 2102))
  ; (lbHH, prAL, (lbAL, LineDontBreak, 201))
  ; (lbHH, prHL, (lbHL, LineDontBreak, 201))
  ; (lbHH, prHH, (lbHH, LineDontBreak, 2102))
  ; (lbHH, prAny, (lbAny, LineCanBreak, 310))
  ; (lbCPHY, prAL, (lbAL, LineCanBreak, 9990))
  ; (lbCPHY, prHL, (lbHL, LineCanBreak, 9990))
  ; (lbCPHY, prAny, (lbAny, LineCanBreak, 310))
  ; (lbAny, prAK, (lbAK, LineCanBreak, 310))
  ; (lbAny, prAP, (lbAP, LineCanBreak, 310))
  ; (lbAny, prAS, (lbAS, LineCanBreak, 310))
  ; (lbAny, prVF, (lbAny, LineCanBreak, 310))
  ; (lbAny, prVI, (lbAny, LineCanBreak, 310))
  ; (lbAK, prVF, (lbAny, LineDontBreak, 2812))
  ; (lbAK, prVI, (lbAKVI, LineDontBreak, 2812))
  ; (lbAS, prVF, (lbAny, LineDontBreak, 2812))
  ; (lbAS, prVI, (lbAKVI, LineDontBreak, 2812))
  ; (lbDottedCircle, prVF, (lbAny, LineDontBreak, 2812))
  ; (lbDottedCircle, prVI, (lbAKVI, LineDontBreak, 2812))
  ; (lbDottedCircle, prAny, (lbAny, LineCanBreak, 310))
  ; (lbDottedCircle, prNU, (lbNU, LineDontBreak, 230))
  ; (lbDottedCircle, prPR, (lbPR, LineDontBreak, 240))
  ; (lbDottedCircle, prPO, (lbPO, LineDontBreak, 240))
  ; (lbDottedCircle, prAL, (lbAL, LineDontBreak, 280))
  ; (lbDottedCircle, prHL, (lbHL, LineDontBreak, 280))
  ; (lbDottedCircle, prHH, (lbHH, LineDontBreak, 2102))
  ; (lbAKVI, prAK, (lbAK, LineDontBreak, 2813))
  ; (lbAKVI, prAny, (lbAny, LineCanBreak, 310))
  ; (lbBK, prAny, (lbAny, LineMustBreak, 40))
  ; (lbCR, prLF, (lbLF, LineDontBreak, 50))
  ; (lbCR, prAny, (lbAny, LineMustBreak, 50))
  ; (lbLF, prAny, (lbAny, LineMustBreak, 50))
  ; (lbNL, prAny, (lbAny, LineMustBreak, 50))
  ; (lbAny, prBK, (lbBK, LineDontBreak, 60))
  ; (lbAny, prCR, (lbCR, LineDontBreak, 60))
  ; (lbAny, prLF, (lbLF, LineDontBreak, 60))
  ; (lbAny, prNL, (lbNL, LineDontBreak, 60))
  ; (lbAny, prSP, (lbSP, LineDontBreak, 70))
  ; (lbAny, prZW, (lbZW, LineDontBreak, 70))
  ; (lbZW, prSP, (lbZW, LineDontBreak, 70))
  ; (lbZW, prAny, (lbAny, LineCanBreak, 80))
  ; (lbAny, prWJ, (lbWJ, LineDontBreak, 110))
  ; (lbWJ, prAny, (lbAny, LineDontBreak, 110))
  ; (lbAny, prGL, (lbGL, LineCanBreak, 310))
  ; (lbGL, prAny, (lbAny, LineDontBreak, 120))
  ; (lbAny, prCL, (lbCL, LineCanBreak, 310))
  ; (lbAny, prCP, (lbCP, LineCanBreak, 310))
  ; (lbCP, prHY, (lbCPHY, LineDontBreak, 210))
  ; (lbCL, prHY, (lbCPHY, LineDontBreak, 210))
  ; (lbNUCP, prHY, (lbCPHY, LineDontBreak, 210))
  ; (lbNUCL, prHY, (lbCPHY, LineDontBreak, 210))
  ; (lbAny, prEX, (lbEX, LineDontBreak, 130))
  ; (lbAny, prIS, (lbIS, LineCanBreak, 310))
  ; (lbAny, prSY, (lbSY, LineCanBreak, 310))
  ; (lbAny, prOP, (lbOP, LineCanBreak, 310))
  ; (lbOP, prSP, (lbOP, LineDontBreak, 70))
  ; (lbOP, prAny, (lbAny, LineDontBreak, 140))
  ; (lbQU, prSP, (lbQUSP, LineDontBreak, 70))
  ; (lbQUPi, prSP, (lbQUPiSP, LineDontBreak, 70))
  ; (lbQU, prOP, (lbOP, LineDontBreak, 150))
  ; (lbQUPi, prOP, (lbOP, LineDontBreak, 150))
  ; (lbCL, prSP, (lbCLCPSP, LineDontBreak, 70))
  ; (lbNUCL, prSP, (lbCLCPSP, LineDontBreak, 70))
  ; (lbCP, prSP, (lbCLCPSP, LineDontBreak, 70))
  ; (lbNUCP, prSP, (lbCLCPSP, LineDontBreak, 70))
  ; (lbCL, prNS, (lbNS, LineDontBreak, 160))
  ; (lbNUCL, prNS, (lbNS, LineDontBreak, 160))
  ; (lbCP, prNS, (lbNS, LineDontBreak, 160))
  ; (lbNUCP, prNS, (lbNS, LineDontBreak, 160))
  ; (lbCLCPSP, prNS, (lbNS, LineDontBreak, 160))
  ; (lbAny, prB2, (lbB2, LineCanBreak, 310))
  ; (lbB2, prSP, (lbB2SP, LineDontBreak, 70))
  ; (lbB2, prB2, (lbB2, LineDontBreak, 170))
  ; (lbB2SP, prB2, (lbB2, LineDontBreak, 170))
  ; (lbSP, prAny, (lbAny, LineCanBreak, 180))
  ; (lbQUSP, prAny, (lbAny, LineCanBreak, 180))
  ; (lbCLCPSP, prAny, (lbAny, LineCanBreak, 180))
  ; (lbB2SP, prAny, (lbAny, LineCanBreak, 180))
  ; (lbQUPiSP, prAny, (lbAny, LineCanBreak, 180))
  ; (lbQUPiSP, prOP, (lbOP, LineCanBreak, 180))
  ; (lbAny, prQU, (lbQU, LineDontBreak, 190))
  ; (lbQU, prAny, (lbAny, LineDontBreak, 190))
  ; (lbQUPi, prAny, (lbAny, LineDontBreak, 190))
  ; (lbAny, prCB, (lbCB, LineCanBreak, 200))
  ; (lbCB, prAny, (lbAny, LineCanBreak, 200))
  ; (lbAny, prBA, (lbBA, LineDontBreak, 210))
  ; (lbAny, prHY, (lbHY, LineDontBreak, 210))
  ; (lbAny, prNS, (lbNS, LineDontBreak, 210))
  ; (lbAny, prBB, (lbBB, LineCanBreak, 310))
  ; (lbBB, prAny, (lbAny, LineDontBreak, 210))
  ; (lbAny, prHL, (lbHL, LineCanBreak, 310))
  ; (lbHL, prHY, (lbLB21a, LineDontBreak, 210))
  ; (lbHL, prBA, (lbLB21a, LineDontBreak, 210))
  ; (lbLB21a, prHL, (lbHL, LineCanBreak, 9990))
  ; (lbLB21a, prAL, (lbAL, LineCanBreak, 9990))
  ; (lbLB21a, prAny, (lbAny, LineDontBreak, 211))
  ; (lbSY, prHL, (lbHL, LineDontBreak, 212))
  ; (lbNUSY, prHL, (lbHL, LineDontBreak, 212))
  ; (lbAny, prIN, (lbAny, LineDontBreak, 220))
  ; (lbAny, prAL, (lbAL, LineCanBreak, 310))
  ; (lbAny, prNU, (lbNU, LineCanBreak, 310))
  ; (lbAL, prNU, (lbNU, LineDontBreak, 230))
  ; (lbHL, prNU, (lbNU, LineDontBreak, 230))
  ; (lbNU, prAL, (lbAL, LineDontBreak, 230))
  ; (lbNU, prHL, (lbHL, LineDontBreak, 230))
  ; (lbNUNU, prAL, (lbAL, LineDontBreak, 230))
  ; (lbNUNU, prHL, (lbHL, LineDontBreak, 230))
  ; (lbAny, prPR, (lbPR, LineCanBreak, 310))
  ; (lbAny, prID, (lbIDEM, LineCanBreak, 310))
  ; (lbAny, prEB, (lbEB, LineCanBreak, 310))
  ; (lbAny, prEM, (lbIDEM, LineCanBreak, 310))
  ; (lbPR, prID, (lbIDEM, LineDontBreak, 231))
  ; (lbPR, prEB, (lbEB, LineDontBreak, 231))
  ; (lbPR, prEM, (lbIDEM, LineDontBreak, 231))
  ; (lbIDEM, prPO, (lbPO, LineDontBreak, 231))
  ; (lbEB, prPO, (lbPO, LineDontBreak, 231))
  ; (lbExtPicCn, prPO, (lbPO, LineDontBreak, 2313))
  ; (lbAny, prPO, (lbPO, LineCanBreak, 310))
  ; (lbPR, prAL, (lbAL, LineDontBreak, 240))
  ; (lbPR, prHL, (lbHL, LineDontBreak, 240))
  ; (lbPO, prAL, (lbAL, LineDontBreak, 240))
  ; (lbPO, prHL, (lbHL, LineDontBreak, 240))
  ; (lbAL, prPR, (lbPR, LineDontBreak, 240))
  ; (lbAL, prPO, (lbPO, LineDontBreak, 240))
  ; (lbHL, prPR, (lbPR, LineDontBreak, 240))
  ; (lbHL, prPO, (lbPO, LineDontBreak, 240))
  ; (lbIS, prNU, (lbNU, LineDontBreak, 2514))
  ; (lbPR, prNU, (lbNU, LineDontBreak, 250))
  ; (lbPO, prNU, (lbNU, LineDontBreak, 250))
  ; (lbOP, prNU, (lbNU, LineDontBreak, 250))
  ; (lbHY, prNU, (lbNU, LineDontBreak, 250))
  ; (lbNU, prNU, (lbNUNU, LineDontBreak, 250))
  ; (lbNU, prSY, (lbNUSY, LineDontBreak, 250))
  ; (lbNU, prIS, (lbNUIS, LineDontBreak, 250))
  ; (lbNUNU, prNU, (lbNUNU, LineDontBreak, 250))
  ; (lbNUNU, prSY, (lbNUSY, LineDontBreak, 250))
  ; (lbNUNU, prIS, (lbNUIS, LineDontBreak, 250))
  ; (lbNUSY, prNU, (lbNUNU, LineDontBreak, 250))
  ; (lbNUSY, prSY, (lbNUSY, LineDontBreak, 250))
  ; (lbNUSY, prIS, (lbNUIS, LineDontBreak, 250))
  ; (lbNUIS, prNU, (lbNUNU, LineDontBreak, 250))
  ; (lbNUIS, prSY, (lbNUSY, LineDontBreak, 250))
  ; (lbNUIS, prIS, (lbNUIS, LineDontBreak, 250))
  ; (lbNU, prCL, (lbNUCL, LineDontBreak, 250))
  ; (lbNU, prCP, (lbNUCP, LineDontBreak, 250))
  ; (lbNUNU, prCL, (lbNUCL, LineDontBreak, 250))
  ; (lbNUNU, prCP, (lbNUCP, LineDontBreak, 250))
  ; (lbNUSY, prCL, (lbNUCL, LineDontBreak, 250))
  ; (lbNUSY, prCP, (lbNUCP, LineDontBreak, 250))
  ; (lbNUIS, prCL, (lbNUCL, LineDontBreak, 250))
  ; (lbNUIS, prCP, (lbNUCP, LineDontBreak, 250))
  ; (lbNU, prPO, (lbPO, LineDontBreak, 250))
  ; (lbNUNU, prPO, (lbPO, LineDontBreak, 250))
  ; (lbNUSY, prPO, (lbPO, LineDontBreak, 250))
  ; (lbNUIS, prPO, (lbPO, LineDontBreak, 250))
  ; (lbNUCL, prPO, (lbPO, LineDontBreak, 250))
  ; (lbNUCP, prPO, (lbPO, LineDontBreak, 250))
  ; (lbNU, prPR, (lbPR, LineDontBreak, 250))
  ; (lbNUNU, prPR, (lbPR, LineDontBreak, 250))
  ; (lbNUSY, prPR, (lbPR, LineDontBreak, 250))
  ; (lbNUIS, prPR, (lbPR, LineDontBreak, 250))
  ; (lbNUCL, prPR, (lbPR, LineDontBreak, 250))
  ; (lbNUCP, prPR, (lbPR, LineDontBreak, 250))
  ; (lbAny, prJL, (lbJL, LineCanBreak, 310))
  ; (lbAny, prJV, (lbJV, LineCanBreak, 310))
  ; (lbAny, prJT, (lbJT, LineCanBreak, 310))
  ; (lbAny, prH2, (lbH2, LineCanBreak, 310))
  ; (lbAny, prH3, (lbH3, LineCanBreak, 310))
  ; (lbJL, prJL, (lbJL, LineDontBreak, 260))
  ; (lbJL, prJV, (lbJV, LineDontBreak, 260))
  ; (lbJL, prH2, (lbH2, LineDontBreak, 260))
  ; (lbJL, prH3, (lbH3, LineDontBreak, 260))
  ; (lbJV, prJV, (lbJV, LineDontBreak, 260))
  ; (lbJV, prJT, (lbJT, LineDontBreak, 260))
  ; (lbH2, prJV, (lbJV, LineDontBreak, 260))
  ; (lbH2, prJT, (lbJT, LineDontBreak, 260))
  ; (lbJT, prJT, (lbJT, LineDontBreak, 260))
  ; (lbH3, prJT, (lbJT, LineDontBreak, 260))
  ; (lbJL, prPO, (lbPO, LineDontBreak, 270))
  ; (lbJV, prPO, (lbPO, LineDontBreak, 270))
  ; (lbJT, prPO, (lbPO, LineDontBreak, 270))
  ; (lbH2, prPO, (lbPO, LineDontBreak, 270))
  ; (lbH3, prPO, (lbPO, LineDontBreak, 270))
  ; (lbPR, prJL, (lbJL, LineDontBreak, 270))
  ; (lbPR, prJV, (lbJV, LineDontBreak, 270))
  ; (lbPR, prJT, (lbJT, LineDontBreak, 270))
  ; (lbPR, prH2, (lbH2, LineDontBreak, 270))
  ; (lbPR, prH3, (lbH3, LineDontBreak, 270))
  ; (lbAL, prAL, (lbAL, LineDontBreak, 280))
  ; (lbAL, prHL, (lbHL, LineDontBreak, 280))
  ; (lbHL, prAL, (lbAL, LineDontBreak, 280))
  ; (lbHL, prHL, (lbHL, LineDontBreak, 280))
  ; (lbIS, prAL, (lbAL, LineDontBreak, 290))
  ; (lbIS, prHL, (lbHL, LineDontBreak, 290))
  ; (lbNUIS, prAL, (lbAL, LineDontBreak, 290))
  ; (lbNUIS, prHL, (lbHL, LineDontBreak, 290)) ].

Definition lbTransitions (state prop : Z) : Z * Z * Z :=
  switchLookup (switchKey state prop) lbCases.

(** A block of the function body that either returns or falls through. *)
Notation "'attempt' a 'otherwise' k" :=
  (match a with Some res => res | None => k end)
  (at level 10, a at level 9, k at level 200, only parsing).

Section LineRules.
Context {ext : Externals}.

(** [transitionLineBreakState(state, r, b, str) (newState, lineBreak)].
    Every [return] goes through the deferred function, here [ret]. *)
Definition transitionLineBreakState (state : Z) (r : rune) (b : option bytes)
    (str : bytes) : Z * Z :=
  let '(nextProperty, generalCategory) := propertyLineBreak r in
  (* Prepare. *)
  let isSot := state <? 0 in
  let isCPeaFWH := (0 <=? state) && negb (Z.land state lbCPeaFWHBit =? 0) in
  let state := if isCPeaFWH then andnot state lbCPeaFWHBit else state in
  let forceNoBreak := (0 <=? state) && negb (Z.land state lbZWJBit =? 0) in
  let state := if forceNoBreak then andnot state lbZWJBit else state in
  let hasSotBit := (0 <=? state) && negb (Z.land state lbSotBit =? 0) in
  let isSot := isSot || hasSotBit in
  let state := if hasSotBit then andnot state lbSotBit else state in
  (* defer func() { ... }() *)
  let ret (res : Z * Z) : Z * Z :=
    let newState :=
      if (fst res =? lbCP) || (fst res =? lbNUCP) then
        let ea := propertyEastAsianWidth r in
        if negb (ea =? prF) && negb (ea =? prW) && negb (ea =? prH)
        then Z.lor (fst res) lbCPeaFWHBit else fst res
      else fst res in
    (newState, if forceNoBreak then LineDontBreak else snd res) in
  (* LB1 *)
  let nextProperty :=
    if (nextProperty =? prAI) || (nextProperty =? prSG) || (nextProperty =? prXX) then prAL
    else if nextProperty =? prSA then
      if (generalCategory =? gcMn) || (generalCategory =? gcMc) then prCM else prAL
    else if nextProperty =? prCJ then prNS
    else nextProperty in
  (* Combining marks. *)
  if (nextProperty =? prZWJ) || (nextProperty =? prCM) then
    let bit := if nextProperty =? prZWJ then lbZWJBit else 0 in
    let bit := if isSot then Z.lor bit lbSotBit else bit in
    let mustBreakState :=
      (state <? 0) || (state =? lbBK) || (state =? lbCR) || (state =? lbLF)
      || (state =? lbNL) in
    if negb mustBreakState && negb (state =? lbSP) && negb (state =? lbZW)
       && negb (state =? lbQUSP) && negb (state =? lbCLCPSP) && negb (state =? lbB2SP)
    then ret (Z.lor state bit, LineDontBreak) (* LB9 *)
    else if mustBreakState then ret (Z.lor lbAL bit, LineMustBreak) (* LB10 *)
    else ret (Z.lor lbAL bit, LineCanBreak)
  else
  (* Find the applicable transition in the table. *)
  let '(newState, lineBreak, rule) :=
    let '(newState, lineBreak, rule) := lbTransitions state nextProperty in
    if newState <? 0 then
      let '(anyPropProp, anyPropLineBreak, anyPropRule) := lbTransitions state prAny in
      let '(anyStateProp, anyStateLineBreak, anyStateRule) :=
        lbTransitions lbAny nextProperty in
      if (0 <=? anyPropProp) && (0 <=? anyStateProp) then
        if anyPropRule <? anyStateRule
        then (anyStateProp, anyPropLineBreak, anyPropRule)
        else (anyStateProp, anyStateLineBreak, anyStateRule)
      else if 0 <=? anyPropProp then (anyPropProp, anyPropLineBreak, anyPropRule)
      else if 0 <=? anyStateProp then (anyStateProp, anyStateLineBreak, anyStateRule)
      else (lbAny, LineCanBreak, 310)
    else (newState, lineBreak, rule) in
  (* LB12a *)
  if (121 <? rule) && (nextProperty =? prGL)
     && (negb (state =? lbSP) && negb (state =? lbBA) && negb (state =? lbHY)
         && negb (state =? lbLB21a) && negb (state =? lbQUSP)
         && negb (state =? lbCLCPSP) && negb (state =? lbB2SP) && negb (state =? lbHH))
  then ret (lbGL, LineDontBreak) else
  (* LB15.1 *)
  if isSot && (state =? lbQUPiSP) && (180 <=? rule) then ret (newState, LineDontBreak) else
  (* LB20a.1 *)
  attempt
    (if isSot && ((state =? lbHY) || (state =? lbHH)) then
       if nextProperty =? prAL then Some (ret (lbAL, LineDontBreak))
       else if nextProperty =? prHL then Some (ret (lbHL, LineDontBreak))
       else None
     else None) otherwise
  (* LB15.2 *)
  attempt
    (if (180 <=? rule) && (nextProperty =? prQU) && (generalCategory =? gcPf) then
       if (state =? lbSP) || (state =? lbQUSP) || (state =? lbCLCPSP)
          || (state =? lbB2SP) || (state =? lbQUPiSP) then
         let isEot :=
           (len (match b with Some bs => bs | None => [] end) =? 0) && (len str =? 0) in
         if isEot then Some (ret (lbQU, LineDontBreak)) else None
       else None
     else None) otherwise
  (* LB13 *)
  attempt
    (if (130 <? rule) && negb (state =? lbNU) && negb (state =? lbNUNU) then
       if nextProperty =? prCL then Some (ret (lbCL, LineDontBreak))
       else if nextProperty =? prCP then Some (ret (lbCP, LineDontBreak))
       else if nextProperty =? prIS then Some (ret (lbIS, LineDontBreak))
       else if nextProperty =? prSY then Some (ret (lbSY, LineDontBreak))
       else None
     else None) otherwise
  (* LB28.11 *)
  attempt
    (if state =? lbAP then
       if nextProperty =? prAK then Some (ret (lbAK, LineDontBreak))
       else if nextProperty =? prAS then Some (ret (lbAS, LineDontBreak))
       else if nextProperty =? prAL then
         if r =? 0x25CC then Some (ret (lbDottedCircle, LineDontBreak)) else None
       else None
     else None) otherwise
  (* Track dotted circle (U+25CC) specially for LB28.12 *)
  let newState :=
    if (nextProperty =? prAL) && (r =? 0x25CC) && (newState =? lbAL)
    then lbDottedCircle else newState in
  (* Track QU_Pi specially for LB15.1 *)
  let newState :=
    if (nextProperty =? prQU) && (generalCategory =? gcPi) && (newState =? lbQU)
    then (if isSot then Z.lor lbQUPi lbSotBit else lbQUPi) else newState in
  (* Carry sot bit through HY/HH transitions for LB20a.1 *)
  let newState :=
    if isSot && ((newState =? lbHY) || (newState =? lbHH))
    then Z.lor newState lbSotBit else newState in
  (* Carry sot bit through QU_Pi -> SP transition *)
  let newState :=
    if isSot && (state =? lbQUPi) && (newState =? lbQUPiSP)
    then Z.lor newState lbSotBit else newState in
  (* LB25 (look ahead); [&&] binds tighter than [||] *)
  attempt
    (if ((250 <? rule) && ((state =? lbPR) || (state =? lbPO)) && (nextProperty =? prOP))
        || (nextProperty =? prHY) then
       let r' :=
         match b with
         | Some bs => fst (utf8.DecodeRune bs)
         | None => fst (utf8.DecodeRuneInString str)
         end in
       if negb (r' =? utf8.RuneError) then
         if fst (propertyLineBreak r') =? prNU then Some (ret (lbNU, LineDontBreak))
         else None
       else None
     else None) otherwise
  (* LB30 (part one) *)
  attempt
    (if 300 <? rule then
       if ((state =? lbAL) || (state =? lbHL) || (state =? lbNU) || (state =? lbNUNU)
           || (state =? lbDottedCircle)) && (nextProperty =? prOP) then
         let ea := propertyEastAsianWidth r in
         if negb (ea =? prF) && negb (ea =? prW) && negb (ea =? prH)
         then Some (ret (lbOP, LineDontBreak)) else None
       else if isCPeaFWH then
         if nextProperty =? prAL then Some (ret (lbAL, LineDontBreak))
         else if nextProperty =? prHL then Some (ret (lbHL, LineDontBreak))
         else if nextProperty =? prNU then Some (ret (lbNU, LineDontBreak))
         else None
       else None
     else None) otherwise
  (* LB30a *)
  if (newState =? lbAny) && (nextProperty =? prRI) then
    if negb (state =? lbOddRI) && negb (state =? lbEvenRI) then ret (lbOddRI, lineBreak)
    else if state =? lbOddRI then ret (lbEvenRI, LineDontBreak)
    else ret (lbOddRI, lineBreak)
  else
  (* LB30b *)
  attempt
    (if 302 <? rule then
       if (nextProperty =? prEM) && ((state =? lbEB) || (state =? lbExtPicCn))
       then Some (ret (prAny, LineDontBreak))
       else
         let graphemeProperty := propertyGraphemes r in
         if (graphemeProperty =? prExtendedPictographic) && (generalCategory =? gcCn)
         then Some (ret (lbExtPicCn, LineCanBreak)) else None
     else None) otherwise
  ret (newState, lineBreak).
End LineRules.

(** ** Line breaking, context machine (line context) *)

Definition lbCtxSot : Z := 1.
Definition lbCtxAfterQUPi : Z := 2.
Definition lbCtxQUPiSP : Z := 4.
Definition lbCtxAfterZWJ : Z := 16.
Definition lbCtxCPeaFWH : Z := 32.
Definition lbCtxAksaraVirama : Z := 128.

Definition lbcAny : Z := 0.
Definition lbcCR : Z := 1.
Definition lbcLF : Z := 2.
Definition lbcBK : Z := 3.
Definition lbcNL : Z := 4.
Definition lbcSP : Z := 5.
Definition lbcZW : Z := 6.
Definition lbcWJ : Z := 7.
Definition lbcGL : Z := 8.
Definition lbcBA : Z := 9.
Definition lbcHY : Z := 10.
Definition lbcCL : Z := 11.
Definition lbcCP : Z := 12.
Definition lbcEX : Z := 13.
Definition lbcIS : Z := 14.
Definition lbcSY : Z := 15.
Definition lbcOP : Z := 16.
Definition lbcQU : Z := 17.
Definition lbcNS : Z := 18.
Definition lbcAL : Z := 19.
Definition lbcHL : Z := 20.
Definition lbcNU : Z := 21.
Definition lbcPR : Z := 22.
Definition lbcPO : Z := 23.
Definition lbcID : Z := 24.
Definition lbcEB : Z := 25.
Definition lbcEM : Z := 26.
Definition lbcIN : Z := 27.
Definition lbcCB : Z := 28.
Definition lbcB2 : Z := 29.
Definition lbcRI : Z := 30.
Definition lbcZWJ : Z := 31.
Definition lbcCM : Z := 32.
Definition lbcAK : Z := 33.
Definition lbcAP : Z := 34.
Definition lbcAS : Z := 35.
Definition lbcVI : Z := 36.
Definition lbcVF : Z := 37.
Definition lbcAKVI : Z := 38.
Definition lbcHH : Z := 39.
Definition lbcJL : Z := 40.
Definition lbcJV : Z := 41.
Definition lbcJT : Z := 42.
Definition lbcH2 : Z := 43.
Definition lbcH3 : Z := 44.
Definition lbcRIOdd : Z := 45.
Definition lbcRIEven : Z := 46.
Definition lbcB2SP : Z := 47.
Definition lbcCLCP : Z := 48.
Definition lbcQUSP : Z := 49.
Definition lbcOPSP : Z := 50.
Definition lbcQUPi : Z := 51.
Definition lbcQUPiSP : Z := 52.
Definition lbcZWSP : Z := 53.
Definition lbcHLHY : Z := 54.
Definition lbcSotHY : Z := 55.
Definition lbcSotHH : Z := 56.
Definition lbcDottedCircle : Z := 57.
Definition lbcBB : Z := 58.
Definition lbcExtPic : Z := 59.
Definition lbcExtPicCn : Z := 60.
Definition lbcExtPicZWJ : Z := 61.

Record LineContext := mkLineContext { State : Z; Flags : Z }.

(** Layout: [flags: 8 bits][state: 8 bits]. *)
Definition packLineContext (ctx : LineContext) : Z :=
  Z.lor (shl (Flags ctx) 8) (Z.land (State ctx) 0xFF).

Definition unpackLineContext (packed : Z) : LineContext :=
  if packed <? 0 then mkLineContext (-1) lbCtxSot
  else mkLineContext (Z.land packed 0xFF) (Z.land (Z.shiftr packed 8) 0xFF).

Definition propToState (prop : Z) : Z :=
  if prop =? prBK then lbcBK
  else if prop =? prCR then lbcCR
  else if prop =? prLF then lbcLF
  else if prop =? prNL then lbcNL
  else if prop =? prSP then lbcSP
  else if prop =? prZW then lbcZW
  else if prop =? prWJ then lbcWJ
  else if prop =? prGL then lbcGL
  else if prop =? prBA then lbcBA
  else if prop =? prHY then lbcHY
  else if prop =? prCL then lbcCL
  else if prop =? prCP then lbcCP
  else if prop =? prEX then lbcEX
  else if prop =? prIS then lbcIS
  else if prop =? prSY then lbcSY
  else if prop =? prOP then lbcOP
  else if prop =? prQU then lbcQU
  else if prop =? prNS then lbcNS
  else if prop =? prAL then lbcAL
  else if prop =? prHL then lbcHL
  else if prop =? prNU then lbcNU
  else if prop =? prPR then lbcPR
  else if prop =? prPO then lbcPO
  else if prop =? prID then lbcID
  else if prop =? prEB then lbcEB
  else if prop =? prEM then lbcEM
  else if prop =? prIN then lbcIN
  else if prop =? prCB then lbcCB
  else if prop =? prRI then lbcRI
  else if prop =? prZWJ then lbcZWJ
  else if prop =? prCM then lbcCM
  else if prop =? prAK then lbcAK
  else if prop =? prAP then lbcAP
  else if prop =? prAS then lbcAS
  else if prop =? prVI then lbcVI
  else if prop =? prVF then lbcVF
  else if prop =? prHH then lbcHH
  else if prop =? prB2 then lbcB2
  else if prop =? prBB then lbcBB
  else if prop =? prExtendedPictographic then lbcExtPic
  else if prop =? prH2 then lbcH2
  else if prop =? prH3 then lbcH3
  else if prop =? prJL then lbcJL
  else if prop =? prJV then lbcJV
  else if prop =? prJT then lbcJT
  else lbcAL.

(** Returns -1 if no rule applies, otherwise the break decision. *)
Definition applyLB25 (ctx : LineContext) (prop : Z) : Z :=
  if (State ctx =? lbcNU) && ((prop =? prPO) || (prop =? prPR)) then LineDontBreak
  else if ((State ctx =? lbcPO) || (State ctx =? lbcPR) || (State ctx =? lbcHY)
           || (State ctx =? lbcIS) || (State ctx =? lbcNU)) && (prop =? prNU)
  then LineDontBreak
  else -1.

Definition applyLB28a (ctx : LineContext) (prop : Z) (isDottedCircle : bool) : Z :=
  if (State ctx =? lbcAP) && ((prop =? prAK) || (prop =? prAS) || isDottedCircle)
  then LineDontBreak
  else if ((State ctx =? lbcAK) || (State ctx =? lbcDottedCircle) || (State ctx =? lbcAS))
          && ((prop =? prVF) || (prop =? prVI))
  then LineDontBreak
  else if (State ctx =? lbcAKVI) && ((prop =? prAK) || (prop =? prAS) || isDottedCircle)
  then LineDontBreak
  else -1.

Section LineContextMachine.
Context {ext : Externals}.

Definition nextContext (ctx : LineContext) (newState prop : Z) (r : rune)
    (genCat : Z) : LineContext :=
  let flags := Flags ctx in
  let flags :=
    if (prop =? prQU) && (genCat =? gcPi) then Z.lor flags lbCtxAfterQUPi else flags in
  let flags :=
    if (prop =? prSP) && negb (Z.land (Flags ctx) lbCtxAfterQUPi =? 0)
    then Z.lor flags lbCtxQUPiSP else flags in
  let flags :=
    if prop =? prCP then
      let eaw := propertyEastAsianWidth r in
      if (eaw =? prF) || (eaw =? prW) || (eaw =? prH)
      then Z.lor flags lbCtxCPeaFWH else andnot flags lbCtxCPeaFWH
    else flags in
  mkLineContext newState flags.

Definition applyBreak (ctx : LineContext) (prop : Z) (r : rune) (genCat : Z)
    (breakType : Z) : LineContext * Z :=
  let newCtx := nextContext ctx (propToState prop) prop r genCat in
  let flags := andnot (Flags newCtx) lbCtxSot in
  let flags := andnot flags lbCtxQUPiSP in
  let flags := andnot flags lbCtxAfterQUPi in
  (mkLineContext (State newCtx) flags, breakType).

(** [newCtx.Flags |= f] and [newCtx.Flags &^= f] *)
Definition setFlag (ctx : LineContext) (f : Z) : LineContext :=
  mkLineContext (State ctx) (Z.lor (Flags ctx) f).
Definition clearFlag (ctx : LineContext) (f : Z) : LineContext :=
  mkLineContext (State ctx) (andnot (Flags ctx) f).

Definition transitionLineBreakContext (ctx : LineContext) (r : rune)
    (b : option bytes) (str : bytes) : LineContext * Z :=
  let '(prop, genCat) := propertyLineBreak r in
  (* LB1 *)
  let prop :=
    if (prop =? prAI) || (prop =? prSG) || (prop =? prXX) then prAL
    else if prop =? prSA then
      if (genCat =? gcMn) || (genCat =? gcMc) then prCM else prAL
    else if prop =? prCJ then prNS
    else prop in
  (* Handle initial state *)
  let ctx := if State ctx <? 0 then mkLineContext lbcAny lbCtxSot else ctx in
  let st := State ctx in
  (* LB9, LB10 *)
  if (prop =? prCM) || (prop =? prZWJ) then
    let isSpaceLike :=
      (st =? lbcSP) || (st =? lbcB2SP) || (st =? lbcQUSP) || (st =? lbcCLCP)
      || (st =? lbcZWSP) in
    let isMandatoryBreak :=
      (st =? lbcBK) || (st =? lbcCR) || (st =? lbcLF) || (st =? lbcNL) || (st =? lbcZW) in
    let isInitial := st =? lbcAny in
    if negb isSpaceLike && negb isMandatoryBreak && negb isInitial then
      ((if prop =? prZWJ then setFlag ctx lbCtxAfterZWJ else clearFlag ctx lbCtxAfterZWJ),
       LineDontBreak)
    else
      let newCtx := nextContext ctx lbcAL prAL r genCat in
      let newCtx := if prop =? prZWJ then setFlag newCtx lbCtxAfterZWJ else newCtx in
      if isMandatoryBreak then (newCtx, LineMustBreak)
      else if isSpaceLike then (newCtx, LineCanBreak)
      else (newCtx, LineDontBreak)
  else
  (* LB4 *)
  if st =? lbcBK then applyBreak ctx prop r genCat LineMustBreak else
  (* LB5 *)
  if st =? lbcCR then
    if prop =? prLF then (nextContext ctx lbcLF prop r genCat, LineDontBreak)
    else applyBreak ctx prop r genCat LineMustBreak
  else
  if (st =? lbcLF) || (st =? lbcNL) then applyBreak ctx prop r genCat LineMustBreak else
  (* LB6 *)
  if (prop =? prBK) || (prop =? prCR) || (prop =? prLF) || (prop =? prNL) then
    (nextContext ctx (propToState prop) prop r genCat, LineDontBreak)
  else
  (* LB7 *)
  if (prop =? prSP) || (prop =? prZW) then
    let newState :=
      if prop =? prZW then lbcZW
      else if (st =? lbcZW) || (st =? lbcZWSP) then lbcZWSP
      else if (st =? lbcB2) || (st =? lbcB2SP) then lbcB2SP
      else if (st =? lbcCL) || (st =? lbcCP) || (st =? lbcCLCP) then lbcCLCP
      else if (st =? lbcOP) || (st =? lbcOPSP) then lbcOPSP
      else if (st =? lbcQUPi) || (st =? lbcQUPiSP) then lbcQUPiSP
      else lbcSP in
    (clearFlag (nextContext ctx newState prop r genCat) lbCtxAfterZWJ, LineDontBreak)
  else
  (* LB8 *)
  if (st =? lbcZW) || (st =? lbcZWSP) then applyBreak ctx prop r genCat LineCanBreak else
  (* LB8a *)
  if negb (Z.land (Flags ctx) lbCtxAfterZWJ =? 0) then
    (clearFlag (nextContext ctx (propToState prop) prop r genCat) lbCtxAfterZWJ,
     LineDontBreak)
  else
  (* LB11 *)
  if (prop =? prWJ) || (st =? lbcWJ) then
    (nextContext ctx (propToState prop) prop r genCat, LineDontBreak)
  else
  (* LB12 *)
  if st =? lbcGL then (nextContext ctx (propToState prop) prop r genCat, LineDontBreak)
  else
  (* LB12a *)
  if (prop =? prGL)
     && (negb ((st =? lbcSP) || (st =? lbcB2SP) || (st =? lbcQUSP) || (st =? lbcCLCP)
               || (st =? lbcZWSP))
         && negb (st =? lbcBA) && negb (st =? lbcHY) && negb (st =? lbcHH)
         && negb (st =? lbcHLHY))
  then (nextContext ctx lbcGL prop r genCat, LineDontBreak)
  else
  (* LB13 *)
  if (prop =? prCL) || (prop =? prCP) || (prop =? prEX) || (prop =? prIS)
     || (prop =? prSY)
  then (nextContext ctx (propToState prop) prop r genCat, LineDontBreak)
  else
  (* LB14 *)
  if (st =? lbcOP) || (st =? lbcOPSP) then
    (nextContext ctx (propToState prop) prop r genCat, LineDontBreak)
  else
  (* LB15.1 *)
  if negb (Z.land (Flags ctx) lbCtxSot =? 0)
     && negb (Z.land (Flags ctx) lbCtxQUPiSP =? 0) && (prop =? prOP)
  then (nextContext ctx lbcOP prop r genCat, LineDontBreak)
  else
  (* LB15.2 *)
  let isSpaceLike :=
    (st =? lbcSP) || (st =? lbcB2SP) || (st =? lbcCLCP) || (st =? lbcQUSP) in
  let isEot :=
    (len (match b with Some bs => bs | None => [] end) =? 0) && (len str =? 0) in
  if isSpaceLike && (prop =? prQU) && (genCat =? gcPf) && isEot then
    (nextContext ctx lbcQU prop r genCat, LineDontBreak)
  else
  (* LB16 *)
  if ((st =? lbcCL) || (st =? lbcCP) || (st =? lbcCLCP)) && (prop =? prNS) then
    (nextContext ctx lbcNS prop r genCat, LineDontBreak)
  else
  (* LB17 *)
  if (st =? lbcB2) && (prop =? prB2) then (nextContext ctx lbcB2 prop r genCat, LineDontBreak)
  else
  if (st =? lbcB2SP) && (prop =? prB2) then
    (nextContext ctx lbcB2 prop r genCat, LineDontBreak)
  else
  (* LB18 *)
  if (st =? lbcSP) || (st =? lbcQUSP) || (st =? lbcB2SP) || (st =? lbcCLCP) then
    applyBreak ctx prop r genCat LineCanBreak
  else
  (* LB19 *)
  if prop =? prQU then
    (nextContext ctx (if genCat =? gcPi then lbcQUPi else lbcQU) prop r genCat,
     LineDontBreak)
  else
  if (st =? lbcQU) || (st =? lbcQUPi) || (st =? lbcQUPiSP) then
    (nextContext ctx (propToState prop) prop r genCat, LineDontBreak)
  else
  (* LB20.1 *)
  if (st =? lbcHH) && ((prop =? prAL) || (prop =? prHL)) then
    (nextContext ctx (propToState prop) prop r genCat, LineDontBreak)
  else
  if negb (Z.land (Flags ctx) lbCtxSot =? 0) && (st =? lbcHY)
     && ((prop =? prAL) || (prop =? prHL))
  then (nextContext ctx (propToState prop) prop r genCat, LineDontBreak)
  else
  (* LB20 *)
  if prop =? prCB then (nextContext ctx lbcCB prop r genCat, LineCanBreak) else
  if st =? lbcCB then applyBreak ctx prop r genCat LineCanBreak else
  (* LB21, LB21.02 *)
  if (prop =? prBA) || (prop =? prHY) || (prop =? prNS) || (prop =? prHH) then
    (nextContext ctx (propToState prop) prop r genCat, LineDontBreak)
  else
  if st =? lbcBB then (nextContext ctx (propToState prop) prop r genCat, LineDontBreak)
  else
  (* LB21a *)
  if st =? lbcHLHY then (nextContext ctx (propToState prop) prop r genCat, LineDontBreak)
  else
  if (st =? lbcHL) && ((prop =? prHY) || (prop =? prBA)) then
    (mkLineContext lbcHLHY (Flags ctx), LineDontBreak)
  else
  (* LB21b *)
  if (st =? lbcSY) && (prop =? prHL) then
    (nextContext ctx lbcHL prop r genCat, LineDontBreak)
  else
  (* LB22 *)
  if prop =? prIN then (nextContext ctx lbcIN prop r genCat, LineDontBreak) else
  (* LB23 *)
  if ((st =? lbcAL) || (st =? lbcHL) || (st =? lbcDottedCircle)) && (prop =? prNU) then
    (nextContext ctx lbcNU prop r genCat, LineDontBreak)
  else
  if (st =? lbcNU) && ((prop =? prAL) || (prop =? prHL)) then
    (nextContext ctx (propToState prop) prop r genCat, LineDontBreak)
  else
  (* LB23a *)
  if (st =? lbcPR) && ((prop =? prID) || (prop =? prEB) || (prop =? prEM)) then
    (nextContext ctx (propToState prop) prop r genCat, LineDontBreak)
  else
  if ((st =? lbcID) || (st =? lbcEB) || (st =? lbcEM) || (st =? lbcExtPic)
      || (st =? lbcExtPicCn)) && (prop =? prPO)
  then (nextContext ctx lbcPO prop r genCat, LineDontBreak)
  else
  (* LB24 *)
  if ((st =? lbcPR) || (st =? lbcPO)) && ((prop =? prAL) || (prop =? prHL)) then
    (nextContext ctx (propToState prop) prop r genCat, LineDontBreak)
  else
  if ((st =? lbcAL) || (st =? lbcHL) || (st =? lbcDottedCircle))
     && ((prop =? prPR) || (prop =? prPO))
  then (nextContext ctx (propToState prop) prop r genCat, LineDontBreak)
  else
  (* LB25 *)
  let breakDecision := applyLB25 ctx prop in
  if negb (breakDecision =? -1) then
    (nextContext ctx (propToState prop) prop r genCat, breakDecision)
  else
  (* LB26 *)
  if (st =? lbcJL) && ((prop =? prJL) || (prop =? prJV) || (prop =? prH2) || (prop =? prH3))
  then (nextContext ctx (propToState prop) prop r genCat, LineDontBreak)
  else
  if ((st =? lbcJV) || (st =? lbcH2)) && ((prop =? prJV) || (prop =? prJT)) then
    (nextContext ctx (propToState prop) prop r genCat, LineDontBreak)
  else
  if ((st =? lbcJT) || (st =? lbcH3)) && (prop =? prJT) then
    (nextContext ctx lbcJT prop r genCat, LineDontBreak)
  else
  (* LB27 *)
  let isKorean :=
    (st =? lbcJL) || (st =? lbcJV) || (st =? lbcJT) || (st =? lbcH2) || (st =? lbcH3) in
  if isKorean && ((prop =? prIN) || (prop =? prPO)) then
    (nextContext ctx (propToState prop) prop r genCat, LineDontBreak)
  else
  if (st =? lbcPR)
     && ((prop =? prJL) || (prop =? prJV) || (prop =? prJT) || (prop =? prH2)
         || (prop =? prH3))
  then (nextContext ctx (propToState prop) prop r genCat, LineDontBreak)
  else
  (* LB28a *)
  let isDottedCircle := r =? 0x25CC in
  let breakDecision := applyLB28a ctx prop isDottedCircle in
  if negb (breakDecision =? -1) then
    let newState :=
      if (prop =? prAK) || (prop =? prAS) then lbcAK
      else if isDottedCircle then lbcDottedCircle
      else if prop =? prVI then
        if (st =? lbcAK) || (st =? lbcAS) || (st =? lbcDottedCircle) then lbcAKVI
        else lbcVI
      else propToState prop in
    let newCtx := nextContext ctx newState prop r genCat in
    let newCtx :=
      if (prop =? prVI) || (prop =? prVF) then setFlag newCtx lbCtxAksaraVirama
      else if negb (prop =? prCM) && negb (prop =? prZWJ)
      then clearFlag newCtx lbCtxAksaraVirama
      else newCtx in
    (newCtx, breakDecision)
  else
  (* Dotted Circle acts like AL but moves to lbcDottedCircle *)
  if isDottedCircle then
    let newCtx := nextContext ctx lbcDottedCircle prop r genCat in
    if (st =? lbcAL) || (st =? lbcHL) || (st =? lbcDottedCircle) then (newCtx, LineDontBreak)
    else if (st =? lbcPR) || (st =? lbcPO) then (newCtx, LineDontBreak)
    else if st =? lbcNU then (newCtx, LineDontBreak)
    else if st =? lbcIS then (newCtx, LineDontBreak)
    else if (st =? lbcCP) && (Z.land (Flags ctx) lbCtxCPeaFWH =? 0)
    then (newCtx, LineDontBreak)
    else (newCtx, LineCanBreak)
  else
  if (prop =? prAK) || (prop =? prAS) then (nextContext ctx lbcAK prop r genCat, LineCanBreak)
  else
  if prop =? prAP then (nextContext ctx lbcAP prop r genCat, LineCanBreak) else
  if prop =? prVF then (nextContext ctx lbcVF prop r genCat, LineCanBreak) else
  if prop =? prVI then (nextContext ctx lbcVI prop r genCat, LineCanBreak) else
  (* LB28 *)
  if ((st =? lbcAL) || (st =? lbcHL) || (st =? lbcDottedCircle))
     && ((prop =? prAL) || (prop =? prHL))
  then (nextContext ctx (propToState prop) prop r genCat, LineDontBreak)
  else
  (* LB29 *)
  if (st =? lbcIS) && ((prop =? prAL) || (prop =? prHL)) then
    (nextContext ctx (propToState prop) prop r genCat, LineDontBreak)
  else
  (* LB30 *)
  if ((st =? lbcAL) || (st =? lbcHL) || (st =? lbcNU) || (st =? lbcDottedCircle))
     && (prop =? prOP)
     && (let eaw := propertyEastAsianWidth r in
         negb (eaw =? prF) && negb (eaw =? prW) && negb (eaw =? prH))
  then (nextContext ctx lbcOP prop r genCat, LineDontBreak)
  else
  if (st =? lbcCP) && (Z.land (Flags ctx) lbCtxCPeaFWH =? 0)
     && ((prop =? prAL) || (prop =? prHL) || (prop =? prNU))
  then (nextContext ctx (propToState prop) prop r genCat, LineDontBreak)
  else
  (* LB30a *)
  if prop =? prRI then
    if (st =? lbcRIOdd) || (st =? lbcRI) then
      (nextContext ctx lbcRIEven prop r genCat, LineDontBreak)
    else if st =? lbcRIEven then (nextContext ctx lbcRIOdd prop r genCat, LineCanBreak)
    else (nextContext ctx lbcRIOdd prop r genCat, LineCanBreak)
  else
  (* LB30b *)
  if ((st =? lbcEB) || (st =? lbcExtPic) || (st =? lbcExtPicCn) || (st =? lbcExtPicZWJ))
     && (prop =? prEM)
  then (nextContext ctx lbcEM prop r genCat, LineDontBreak)
  else
  if prop =? prExtendedPictographic then
    (nextContext ctx lbcExtPic prop r genCat, LineCanBreak)
  else
  let graphemeProp := propertyGraphemes r in
  if (graphemeProp =? prExtendedPictographic) && (genCat =? gcCn) then
    (nextContext ctx lbcExtPicCn prop r genCat, LineCanBreak)
  else
  (* LB31 *)
  applyBreak ctx prop r genCat LineCanBreak.

(** The wrapper used by [Step]. *)
Definition transitionLineBreakStateContext (state : Z) (r : rune) (b : option bytes)
    (str : bytes) : Z * Z :=
  let ctx := unpackLineContext state in
  let res := transitionLineBreakContext ctx r b str in
  (packLineContext (fst res), snd res).
End LineContextMachine.

(** ** The stepping function (step) *)

Definition MaskLine : Z := 3.
Definition MaskWord : Z := 4.
Definition MaskSentence : Z := 8.
Definition ShiftWidth : Z := 4.
Definition shiftWord : Z := 2.
Definition shiftSentence : Z := 3.

Definition shiftWordState : Z := 12.
Definition shiftSentenceState : Z := 17.
Definition shiftLineState : Z := 21.
Definition shiftPropState : Z := 37.

Definition maskGraphemeState : Z := 0xfff.
Definition maskWordState : Z := 0x1f.
Definition maskSentenceState : Z := 0xf.
Definition maskLineState : Z := 0xffff.

(** The four results of [Step] and [StepString]. *)
Record StepResult := mkStepResult {
  cluster : bytes;
  rest : bytes;
  boundaries : Z;
  newState : Z
}.

Section Step.
Context {ext : Externals}.

(** [LineMustBreak | (1 << shiftWord) | (1 << shiftSentence) | (width << ShiftWidth)] *)
Definition endBoundaries (width : Z) : Z :=
  Z.lor (Z.lor (Z.lor LineMustBreak (shl 1 shiftWord)) (shl 1 shiftSentence))
        (shl width ShiftWidth).

(** [grAny | (wbAny << shiftWordState) | (sbAny << shiftSentenceState)
     | (lbAny << shiftLineState)] *)
Definition anyState : Z :=
  Z.lor (Z.lor (Z.lor grAny (shl wbAny shiftWordState)) (shl sbAny shiftSentenceState))
        (shl lbAny shiftLineState).

(** [graphemeState | (wordState << shiftWordState)
     | (sentenceState << shiftSentenceState) | (lineState << shiftLineState)
     | (prop << shiftPropState)] *)
Definition packState (graphemeState wordState sentenceState lineState prop : Z) : Z :=
  Z.lor (Z.lor (Z.lor (Z.lor graphemeState (shl wordState shiftWordState))
                      (shl sentenceState shiftSentenceState))
               (shl lineState shiftLineState))
        (shl prop shiftPropState).

(** The boundary value returned at a grapheme cluster boundary. *)
Definition packBoundary (lineBreak width : Z) (wordBoundary sentenceBoundary : bool) : Z :=
  let boundary := Z.lor lineBreak (shl width ShiftWidth) in
  let boundary := if wordBoundary then Z.lor boundary (shl 1 shiftWord) else boundary in
  if sentenceBoundary then Z.lor boundary (shl 1 shiftSentence) else boundary.

(** The width update of a code point that stays inside the cluster. *)
Definition nextWidth (firstProp width : Z) (r : rune) (prop : Z) : Z :=
  if firstProp =? prExtendedPictographic then
    if r =? vs15 then 1 else if r =? vs16 then 2 else width
  else if negb (firstProp =? prRegionalIndicator) && negb (firstProp =? prL)
  then add64 width (runeWidth r prop)
  else width.

(** The [for { ... }] loop of [Step]; on entry [remainder = b[length:]]. *)
Fixpoint stepLoop (fuel : nat) (b : bytes) (length : nat) (remainder : bytes)
    (graphemeState wordState sentenceState lineState firstProp width : Z)
    : option StepResult :=
  let dr := utf8.DecodeRune remainder in
  let r := fst dr in
  let l := snd dr in
  let remainder := skipn (length + l) b in
  let g := transitionGraphemeState graphemeState r in
  let graphemeState := fst (fst g) in
  let prop := snd (fst g) in
  let graphemeBoundary := snd g in
  let w := transitionWordBreakState wordState r (Some remainder) [] in
  let wordState := fst w in
  let wordBoundary := snd w in
  let s := transitionSentenceBreakState sentenceState r (Some remainder) [] in
  let sentenceState := fst s in
  let sentenceBoundary := snd s in
  let lb := transitionLineBreakStateContext lineState r (Some remainder) [] in
  let lineState := fst lb in
  let lineBreak := snd lb in
  if graphemeBoundary then
    Some (mkStepResult (firstn length b) (skipn length b)
            (packBoundary lineBreak width wordBoundary sentenceBoundary)
            (packState graphemeState wordState sentenceState lineState prop))
  else
    let width := nextWidth firstProp width r prop in
    let length := (length + l)%nat in
    if len b <=? Z.of_nat length then
      Some (mkStepResult b [] (endBoundaries width)
              (Z.lor anyState (shl prop shiftPropState)))
    else
      match fuel with
      | O => None
      | S fuel' =>
          stepLoop fuel' b length remainder graphemeState wordState sentenceState
            lineState firstProp width
      end.

Definition Step (b : bytes) (state : Z) : option StepResult :=
  (* An empty byte slice returns nothing. *)
  if len b =? 0 then Some (mkStepResult [] [] 0 0)
  else
    let dr := utf8.DecodeRune b in
    let r := fst dr in
    let length := snd dr in
    if len b <=? Z.of_nat length then
      let prop :=
        if state <? 0 then propertyGraphemes r else Z.shiftr state shiftPropState in
      Some (mkStepResult b [] (endBoundaries (runeWidth r prop))
              (Z.lor anyState (shl prop shiftPropState)))
    else
      let remainder := skipn length b in
      let graphemeState :=
        if state <? 0 then fst (fst (transitionGraphemeState state r))
        else Z.land state maskGraphemeState in
      let firstProp :=
        if state <? 0 then snd (fst (transitionGraphemeState state r))
        else Z.shiftr state shiftPropState in
      let wordState :=
        if state <? 0 then fst (transitionWordBreakState state r (Some remainder) [])
        else Z.land (Z.shiftr state shiftWordState) maskWordState in
      let sentenceState :=
        if state <? 0 then fst (transitionSentenceBreakState state r (Some remainder) [])
        else Z.land (Z.shiftr state shiftSentenceState) maskSentenceState in
      let lineState :=
        if state <? 0 then fst (transitionLineBreakStateContext state r (Some remainder) [])
        else Z.land (Z.shiftr state shiftLineState) maskLineState in
      let width := runeWidth r firstProp in
      stepLoop (List.length b) b length remainder graphemeState wordState sentenceState
        lineState firstProp width.

(** The loop of [StepString]: the look-ahead is passed as the string argument
    of the transition functions, the byte slice argument is [nil]. *)
Fixpoint stepStringLoop (fuel : nat) (str : bytes) (length : nat) (remainder : bytes)
    (graphemeState wordState sentenceState lineState firstProp width : Z)
    : option StepResult :=
  let dr := utf8.DecodeRuneInString remainder in
  let r := fst dr in
  let l := snd dr in
  let remainder := skipn (length + l) str in
  let g := transitionGraphemeState graphemeState r in
  let graphemeState := fst (fst g) in
  let prop := snd (fst g) in
  let graphemeBoundary := snd g in
  let w := transitionWordBreakState wordState r None remainder in
  let wordState := fst w in
  let wordBoundary := snd w in
  let s := transitionSentenceBreakState sentenceState r None remainder in
  let sentenceState := fst s in
  let sentenceBoundary := snd s in
  let lb := transitionLineBreakStateContext lineState r None remainder in
  let lineState := fst lb in
  let lineBreak := snd lb in
  if graphemeBoundary then
    Some (mkStepResult (firstn length str) (skipn length str)
            (packBoundary lineBreak width wordBoundary sentenceBoundary)
            (packState graphemeState wordState sentenceState lineState prop))
  else
    let width := nextWidth firstProp width r prop in
    let length := (length + l)%nat in
    if len str <=? Z.of_nat length then
      Some (mkStepResult str [] (endBoundaries width)
              (Z.lor anyState (shl prop shiftPropState)))
    else
      match fuel with
      | O => None
      | S fuel' =>
          stepStringLoop fuel' str length remainder graphemeState wordState
            sentenceState lineState firstProp width
      end.

Definition StepString (str : bytes) (state : Z) : option StepResult :=
  if len str =? 0 then Some (mkStepResult [] [] 0 0)
  else
    let dr := utf8.DecodeRuneInString str in
    let r := fst dr in
    let length := snd dr in
    if len str <=? Z.of_nat length then
      let prop := propertyGraphemes r in
      Some (mkStepResult str [] (endBoundaries (runeWidth r prop)) anyState)
    else
      let remainder := skipn length str in
      let graphemeState :=
        if state <? 0 then fst (fst (transitionGraphemeState state r))
        else Z.land state maskGraphemeState in
      let firstProp :=
        if state <? 0 then snd (fst (transitionGraphemeState state r))
        else Z.shiftr state shiftPropState in
      let wordState :=
        if state <? 0 then fst (transitionWordBreakState state r None remainder)
        else Z.land (Z.shiftr state shiftWordState) maskWordState in
      let sentenceState :=
        if state <? 0 then fst (transitionSentenceBreakState state r None remainder)
        else Z.land (Z.shiftr state shiftSentenceState) maskSentenceState in
      let lineState :=
        if state <? 0 then fst (transitionLineBreakStateContext state r None remainder)
        else Z.land (Z.shiftr state shiftLineState) maskLineState in
      let width := runeWidth r firstProp in
      stepStringLoop (List.length str) str length remainder graphemeState wordState
        sentenceState lineState firstProp width.

(** The caller's loop
    [for len(b) > 0 { c, b, boundaries, state = Step(b, state) }]:
    the clusters with their boundaries values, and the last state. *)
Fixpoint stepAll (fuel : nat) (b : bytes) (state : Z) : option (list (bytes * Z) * Z) :=
  match b with
  | [] => Some ([], state)
  | _ :: _ =>
      match fuel with
      | O => None
      | S fuel' =>
          match Step b state with
          | None => None
          | Some res =>
              match stepAll fuel' (rest res) (newState res) with
              | None => None
              | Some (out, last) => Some ((cluster res, boundaries res) :: out, last)
              end
          end
      end
  end.

(** The line verdicts of both line-break machines over a text, one per code
    point, from the initial state. *)
Fixpoint lineVerdicts (transition : Z -> rune -> option bytes -> bytes -> Z * Z)
    (fuel : nat) (state : Z) (b : bytes) : option (list Z) :=
  match b with
  | [] => Some []
  | _ :: _ =>
      match fuel with
      | O => None
      | S fuel' =>
          let dr := utf8.DecodeRune b in
          let remainder := skipn (snd dr) b in
          let t := transition state (fst dr) (Some remainder) [] in
          match lineVerdicts transition fuel' (fst t) remainder with
          | None => None
          | Some vs => Some (snd t :: vs)
          end
      end
  end.

Definition legacyVerdicts (b : bytes) : option (list Z) :=
  lineVerdicts transitionLineBreakState (List.length b) (-1) b.

Definition contextVerdicts (b : bytes) : option (list Z) :=
  lineVerdicts transitionLineBreakStateContext (List.length b) (-1) b.
End Step.

(** ** An instance for evaluation

    Rows of the generated tables for a few code points (Unicode 17.0 data
    files), a word and a sentence machine with the single state 0 that report a
    boundary everywhere, and the constant width 1. *)

Definition sampleGraphemeCodePoints : list Entry3 :=
  [ (0x0300, 0x036F, prExtend); (0x094D, 0x094D, prExtend); (0x200D, 0x200D, prZWJ);
    (0x1F1E6, 0x1F1FF, prRegionalIndicator) ].

Definition sampleIncbCodePoints : list Entry3 :=
  [ (0x0915, 0x0939, prInCBConsonant); (0x094D, 0x094D, prInCBLinker) ].

Definition sampleEastAsianWidth : list Entry3 :=
  [ (0x1100, 0x115F, prW) ].

Definition sampleLineBreakCodePoints : list Entry4 :=
  [ (0x0A, 0x0A, prLF, gcCc); (0x0D, 0x0D, prCR, gcCc); (0x20, 0x20, prSP, gcZs);
    (0x21, 0x21, prEX, gcPo); (0x2C, 0x2C, prIS, gcPo); (0x2D, 0x2D, prHY, gcPd);
    (0x2E, 0x2E, prIS, gcPo); (0x2F, 0x2F, prSY, gcPo) ].

Definition sampleExternals : Externals := {|
  graphemeCodePoints := sampleGraphemeCodePoints;
  incbCodePoints := sampleIncbCodePoints;
  eastAsianWidth := sampleEastAsianWidth;
  lineBreakCodePoints := sampleLineBreakCodePoints;
  wbAny := 0;
  sbAny := 0;
  transitionWordBreakState := fun _ _ _ _ => (0, true);
  transitionSentenceBreakState := fun _ _ _ _ => (0, true);
  runeWidth := fun _ _ => 1
|}.

(** Inputs used in the examples. *)
Definition hello : bytes := ["H"; "e"; "l"; "l"; "o"]%byte.
Definition crlf : bytes := [x0d; x0a].
Definition devanagariKa : rune := 0x0915.

(** "First line.\nSecond line." of the package's line breaking example. *)
Definition firstLine : bytes :=
  ["F"; "i"; "r"; "s"; "t"; " "; "l"; "i"; "n"; "e"; "."]%byte ++ [x0a] ++
  ["S"; "e"; "c"; "o"; "n"; "d"; " "; "l"; "i"; "n"; "e"; "."]%byte.

(** ** Predicates used in the statements *)

Section Predicates.
Context {ext : Externals}.

(** What every result of [Step] on a non-empty [b] satisfies. *)
Definition stepResultOf (b : bytes) (res : StepResult) : Prop :=
  cluster res ++ rest res = b /\
  cluster res <> [] /\
  (length (rest res) < length b)%nat /\
  (rest res = [] ->
   exists width prop,
     boundaries res = endBoundaries width /\
     newState res = Z.lor anyState (shl prop shiftPropState)).

(** The states that the word and the sentence machine return fit the fields
    that [Step] gives them in the state token ([maskWordState],
    [maskSentenceState]: 5 and 4 bits). *)
Definition analyzersInRange : Prop :=
  (forall state r b str, 0 <= fst (transitionWordBreakState state r b str) < 32) /\
  (forall state r b str, 0 <= fst (transitionSentenceBreakState state r b str) < 16).
End Predicates.

(** ASCII letters and digits, the code points that [propertyLineBreak] fast
    tracks. *)
Definition isLower (r : rune) : bool := (0x61 <=? r) && (r <=? 0x7a).
Definition isUpper (r : rune) : bool := (0x41 <=? r) && (r <=? 0x5a).
Definition isDigit (r : rune) : bool := (0x30 <=? r) && (r <=? 0x39).
Definition isLetter (r : rune) : bool := isLower r || isUpper r.
Definition isAlnum (r : rune) : bool := isLetter r || isDigit r.

(** The code points selected by [isAlnum]. *)
Definition alnumRunes : list rune :=
  map Z.of_nat (seq 48 10 ++ seq 65 26 ++ seq 97 26).

Section TokenPredicates.
Context {ext : Externals}.

(** A state token from which a letter continues a run of letters: the initial
    token, or a token whose grapheme field is [grAny] and whose line field is
    the context "after AL, no flags". *)
Definition atLetter (state : Z) : Prop :=
  state = -1 \/
  (0 <= state /\
   Z.land state maskGraphemeState = grAny /\
   Z.land (Z.shiftr state shiftLineState) maskLineState =
     packLineContext (mkLineContext lbcAL 0)).

(** The line verdict field of each boundaries value of a run. *)
Definition lineVerdictsOf (out : list (bytes * Z)) : list Z :=
  map (fun c => Z.land (snd c) MaskLine) out.

(** [Step] over [X] from the initial state, then over [Y] with the state that
    the last call on [X] returned. *)
Definition stepSplit (X Y : bytes) : option (list (bytes * Z)) :=
  match stepAll (length X) X (-1) with
  | None => None
  | Some (out1, state1) =>
      match stepAll (length Y) Y state1 with
      | None => None
      | Some (out2, _) => Some (out1 ++ out2)
      end
  end.

(** [Step] over [X ++ Y] from the initial state. *)
Definition stepWhole (X Y : bytes) : option (list (bytes * Z)) :=
  match stepAll (length (X ++ Y)) (X ++ Y) (-1) with
  | None => None
  | Some (out, _) => Some out
  end.
End TokenPredicates.

Section RunPredicates.
Context {ext : Externals}.

(** What holds of the run over [X] followed by the run over [Y] resumed with
    the state returned by the last call on [X], and of the run over
    [X ++ Y]. *)
Definition splitRunSpec (X Y : bytes) : Prop :=
  exists out1 state1 out2 state2 out state,
    stepAll (length X) X (-1) = Some (out1, state1) /\
    stepAll (length Y) Y state1 = Some (out2, state2) /\
    stepAll (length (X ++ Y)) (X ++ Y) (-1) = Some (out, state) /\
    stepSplit X Y = Some (out1 ++ out2) /\
    stepWhole X Y = Some out /\
    concat (map fst (out1 ++ out2)) = X ++ Y /\
    concat (map fst out) = X ++ Y /\
    (exists prop, state1 = Z.lor anyState (shl prop shiftPropState)) /\
    (exists out1' c bd,
       out1 = out1' ++ [(c, bd)] /\
       Z.land bd MaskLine = LineMustBreak /\
       Z.land bd MaskWord = MaskWord /\
       Z.land bd MaskSentence = MaskSentence).
End RunPredicates.


(** ** Plain ASCII text

    The inputs on which the two line-break machines are compared. *)

(** The rows of LineBreak.txt for U+0000..U+007F, with the general categories
    of UnicodeData.txt. *)
Definition asciiLineBreakCodePoints : list Entry4 :=
  [ (0x00, 0x08, prCM, gcCc); (0x09, 0x09, prBA, gcCc); (0x0A, 0x0A, prLF, gcCc);
    (0x0B, 0x0C, prBK, gcCc); (0x0D, 0x0D, prCR, gcCc); (0x0E, 0x1F, prCM, gcCc);
    (0x20, 0x20, prSP, gcZs); (0x21, 0x21, prEX, gcPo); (0x22, 0x22, prQU, gcPo);
    (0x23, 0x23, prAL, gcPo); (0x24, 0x24, prPR, gcSc); (0x25, 0x25, prPO, gcPo);
    (0x26, 0x26, prAL, gcPo); (0x27, 0x27, prQU, gcPo); (0x28, 0x28, prOP, gcPs);
    (0x29, 0x29, prCP, gcPe); (0x2A, 0x2A, prAL, gcPo); (0x2B, 0x2B, prPR, gcSm);
    (0x2C, 0x2C, prIS, gcPo); (0x2D, 0x2D, prHY, gcPd); (0x2E, 0x2E, prIS, gcPo);
    (0x2F, 0x2F, prSY, gcPo); (0x30, 0x39, prNU, gcNd); (0x3A, 0x3B, prIS, gcPo);
    (0x3C, 0x3E, prAL, gcSm); (0x3F, 0x3F, prEX, gcPo); (0x40, 0x40, prAL, gcPo);
    (0x41, 0x5A, prAL, gcLu); (0x5B, 0x5B, prOP, gcPs); (0x5C, 0x5C, prPR, gcPo);
    (0x5D, 0x5D, prCP, gcPe); (0x5E, 0x5E, prAL, gcSk); (0x5F, 0x5F, prAL, gcPc);
    (0x60, 0x60, prAL, gcSk); (0x61, 0x7A, prAL, gcLl); (0x7B, 0x7B, prOP, gcPs);
    (0x7C, 0x7C, prBA, gcSm); (0x7D, 0x7D, prCL, gcPe); (0x7E, 0x7E, prAL, gcSm);
    (0x7F, 0x7F, prCM, gcCc) ].

Definition asciiExternals : Externals := {|
  graphemeCodePoints := sampleGraphemeCodePoints;
  incbCodePoints := sampleIncbCodePoints;
  eastAsianWidth := sampleEastAsianWidth;
  lineBreakCodePoints := asciiLineBreakCodePoints;
  wbAny := 0;
  sbAny := 0;
  transitionWordBreakState := fun _ _ _ _ => (0, true);
  transitionSentenceBreakState := fun _ _ _ _ => (0, true);
  runeWidth := fun _ _ => 1
|}.

(** The characters of plain text: tab, line feed, vertical tab, form feed,
    carriage return, and the printable ASCII characters other than [$], [%],
    [+] and [\] (the ASCII characters of the classes PR and PO); the other
    control characters (class CM) are left out as well. *)
Definition isTextChar (r : rune) : bool :=
  ((0x09 <=? r) && (r <=? 0x0D))
  || ((0x20 <=? r) && (r <=? 0x7E)
      && negb ((r =? 0x24) || (r =? 0x25) || (r =? 0x2B) || (r =? 0x5C))).

(** What a position of the text remembers of the character before it. *)
Definition kindOther : Z := 0.
Definition kindAlnum : Z := 1.
Definition kindSlash : Z := 2.
Definition kindStart : Z := 3.

Definition kindOf (r : rune) : Z :=
  if isAlnum r then kindAlnum else if r =? 0x2F then kindSlash else kindOther.

(** The text starts with a letter or a digit; a hyphen-minus only follows a
    letter or a digit; no digit follows a slash. *)
Definition allowedAfter (kind : Z) (r : rune) : bool :=
  if kind =? kindStart then isAlnum r
  else negb ((r =? 0x2D) && negb (kind =? kindAlnum))
       && negb ((kind =? kindSlash) && isDigit r).

Fixpoint plainTextFrom (kind : Z) (b : bytes) : bool :=
  match b with
  | [] => true
  | c :: t =>
      isTextChar (b2z c) && allowedAfter kind (b2z c) && plainTextFrom (kindOf (b2z c)) t
  end.

Definition plainText (b : bytes) : bool := plainTextFrom kindStart b.

(** The table of the package gives the characters of [b] the class and the
    general category of the Unicode data files. *)
Definition tableAgreesOn (ext : Externals) (b : bytes) : Prop :=
  Forall (fun c => @propertyLineBreak ext (b2z c) = @propertyLineBreak asciiExternals (b2z c))
         b.









(** The six texts of TestLineContextAgainstOriginal. *)
Definition testStrings : list bytes :=
  [ ["H"; "e"; "l"; "l"; "o"; ","; " "; "w"; "o"; "r"; "l"; "d"; "!"]%byte;
    ["T"; "h"; "i"; "s"; " "; "i"; "s"; " "; "a"; " "; "t"; "e"; "s"; "t"; "."]%byte;
    ["L"; "i"; "n"; "e"; "1"]%byte ++ [x0a] ++ ["L"; "i"; "n"; "e"; "2"]%byte;
    ["N"; "u"; "m"; "b"; "e"; "r"; ":"; " "; "1"; "2"; "3"; "."; "4"; "5"; "6"]%byte;
    ["U"; "R"; "L"; ":"; " "; "h"; "t"; "t"; "p"; "s"; ":"; "/"; "/"; "e"; "x"; "a"; "m";
     "p"; "l"; "e"; "."; "c"; "o"; "m"]%byte;
    ["M"; "i"; "x"; "e"; "d"; "-"; "c"; "a"; "s"; "e"; " "; "T"; "e"; "s"; "t"]%byte ].


(** Texts that break one rule of [plainText] each: a hyphen after a space, a
    text that starts with a comma, a dollar sign, a control character of class
    CM between a slash and a digit. *)
Definition excludedTexts : list bytes :=
  [ ["a"; " "; "-"; "1"]%byte; [","; "1"; "-"; "a"]%byte; ["1"; ","; "$"]%byte;
    ["1"; "/"; x00; "1"]%byte ].

Definition sameVerdicts (x y : option (list Z)) : bool :=
  match x, y with
  | Some l, Some m => (length l =? length m)%nat && forallb (fun p => fst p =? snd p) (combine l m)
  | None, None => true
  | _, _ => false
  end.
(** ** Line segments with the context machine (line context) *)

(** The four results of [FirstLineSegmentContext]. *)
Record LineSegment := mkLineSegment {
  segment : bytes;
  segmentRest : bytes;
  breakType : Z;
  segmentState : Z
}.

Section FirstLineSegment.
Context {ext : Externals}.

(** The [for { ... }] loop of [FirstLineSegmentContext]. *)
Fixpoint firstLineSegmentContextLoop (fuel : nat) (b : bytes) (length : nat)
    (ctx : LineContext) : option LineSegment :=
  let dr := utf8.DecodeRune (skipn length b) in
  let r := fst dr in
  let l := snd dr in
  let remainder := skipn (length + l) b in
  let t := transitionLineBreakContext ctx r (Some remainder) [] in
  let newCtx := fst t in
  let breakType := snd t in
  if negb (breakType =? LineDontBreak) then
    Some (mkLineSegment (firstn length b) (skipn length b) breakType (packLineContext ctx))
  else
    let length := (length + l)%nat in
    if len b <=? Z.of_nat length then
      Some (mkLineSegment b [] LineMustBreak (packLineContext newCtx))
    else
      match fuel with
      | O => None
      | S fuel' => firstLineSegmentContextLoop fuel' b length newCtx
      end.

Definition FirstLineSegmentContext (b : bytes) (state : Z) : option LineSegment :=
  if len b =? 0 then Some (mkLineSegment [] [] LineDontBreak (-1))
  else
    let dr := utf8.DecodeRune b in
    let r := fst dr in
    let length := snd dr in
    if len b <=? Z.of_nat length then
      Some (mkLineSegment b [] LineMustBreak (packLineContext (mkLineContext lbcAny 0)))
    else
      let ctx := unpackLineContext state in
      let ctx := fst (transitionLineBreakContext ctx r (Some (skipn length b)) []) in
      firstLineSegmentContextLoop (List.length b) b length ctx.

(** What every call of [FirstLineSegmentContext] on a non-empty input [b]
    returns: a non-empty segment and the rest, the break type of the end of
    input or of a break opportunity, and a state token of 16 bits that
    survives unpacking and packing. *)
Definition lineSegmentOf (b : bytes) (res : LineSegment) : Prop :=
  segment res ++ segmentRest res = b /\
  segment res <> [] /\
  (segmentRest res = [] -> breakType res = LineMustBreak) /\
  (segmentRest res <> [] ->
   breakType res = LineCanBreak \/ breakType res = LineMustBreak) /\
  0 <= segmentState res < 2 ^ 16 /\
  packLineContext (unpackLineContext (segmentState res)) = segmentState res.

(** The caller's loop of the tests,
    [for len(b) > 0 { seg, b, _, state = FirstLineSegmentContext(b, state) }],
    keeping the break type of each segment. *)
Fixpoint lineSegments (fuel : nat) (b : bytes) (state : Z) : option (list (bytes * Z)) :=
  match b with
  | [] => Some []
  | _ :: _ =>
      match fuel with
      | O => None
      | S fuel' =>
          match FirstLineSegmentContext b state with
          | None => None
          | Some res =>
              match lineSegments fuel' (segmentRest res) (segmentState res) with
              | None => None
              | Some out => Some ((segment res, breakType res) :: out)
              end
          end
      end
  end.
End FirstLineSegment.

(** ** More predicates used in the statements *)

(** A property table as the generator writes it: rows with first <= last, in
    increasing order, not overlapping. *)
Definition tableSorted {E : Type} `{RangeEntry E} (dictionary : list E) : Prop :=
  Forall (fun e => entryLo e <= entryHi e) dictionary /\
  StronglySorted (fun e1 e2 => entryHi e1 < entryLo e2) dictionary.

(** The base transition of [transitionGraphemeState] before the GB9c pass: the
    tiered look-up in [grTransitions]. *)
Definition grTiered (state prop : Z) : Z * bool :=
  let '(nextState, nextProp, _) := grTransitions state prop in
  if 0 <=? nextState then (nextState, nextProp =? grBoundary)
  else
    let '(anyPropState, anyPropProp, anyPropRule) := grTransitions state prAny in
    let '(anyStateState, anyStateProp, anyStateRule) := grTransitions grAny prop in
    if (0 <=? anyPropState) && (0 <=? anyStateState) then
      (anyStateState,
       if anyPropRule <? anyStateRule then anyPropProp =? grBoundary
       else anyStateProp =? grBoundary)
    else if 0 <=? anyPropState then (anyPropState, anyPropProp =? grBoundary)
    else if 0 <=? anyStateState then (anyStateState, anyStateProp =? grBoundary)
    else (grAny, true).

(** The contexts from which an ASCII letter or digit starts or continues a
    word: the start of the text, after a letter or a digit, after a space. *)
Definition wordEntry (ctx : LineContext) : Prop :=
  State ctx < 0 \/ In (State ctx) [lbcAL; lbcHL; lbcNU] \/
  (State ctx = lbcSP /\ Z.land (Flags ctx) lbCtxAfterZWJ = 0).

(** A text of ASCII letters and digits only. *)
Definition isWord (w : bytes) : bool := forallb (fun c => isAlnum (b2z c)) w.

(** The values 0..255 of [state & 0xFF]. *)
Definition byteValues : list Z := map Z.of_nat (seq 0 256).

(** State and flags of a line context fit their 8-bit fields. *)
Definition contextInRange (ctx : LineContext) : Prop :=
  0 <= State ctx <= 255 /\ 0 <= Flags ctx <= 255.

(** * Properties *)

(** ** The binary search terminates within its fuel *)

Lemma propertySearchLoop_total {E : Type} `{RangeEntry E} (dictionary : list E)
    (r : rune) (fuel from to : nat) :
  (to - from <= fuel)%nat ->
  propertySearchLoop dictionary r fuel from to <> None.
Proof.
  revert from to.
  induction fuel as [|fuel IH]; intros from to Hle; cbn [propertySearchLoop].
  - destruct (Nat.leb_spec to from); [discriminate | lia].
  - destruct (Nat.leb_spec to from) as [|Hlt]; [discriminate |].
    assert (Hmid : (from <= (from + to) / 2 < to)%nat).
    { split.
      - apply Nat.div_le_lower_bound; lia.
      - apply Nat.Div0.div_lt_upper_bound; lia. }
    destruct (_ <? _).
    + apply IH; lia.
    + destruct (_ <? _); [apply IH; lia | discriminate].
Qed.

Lemma propertySearch_returns {E : Type} `{RangeEntry E} (dictionary : list E)
    (r : rune) :
  propertySearchLoop dictionary r (length dictionary) 0 (length dictionary)
    = Some (propertySearch dictionary r).
Proof.
  unfold propertySearch.
  pose proof (propertySearchLoop_total dictionary r (length dictionary) 0
                (length dictionary) ltac:(lia)) as Htotal.
  destruct (propertySearchLoop dictionary r (length dictionary) 0 (length dictionary));
    [reflexivity | congruence].
Qed.

(** ** Machine integers *)

Lemma wrap64_small (z : Z) : - 2 ^ 63 <= z < 2 ^ 63 -> wrap64 z = z.
Proof.
  intros Hz. unfold wrap64.
  rewrite Z.mod_small; lia.
Qed.

Lemma wrap64_mod (z : Z) (n : Z) :
  0 <= n <= 64 -> wrap64 z mod 2 ^ n = z mod 2 ^ n.
Proof.
  intros Hn. unfold wrap64.
  assert (H64 : 2 ^ 64 = 2 ^ n * 2 ^ (64 - n)).
  { rewrite <- Z.pow_add_r by lia. f_equal; lia. }
  assert (H63 : 2 ^ 63 < 2 ^ 64) by (apply Z.pow_lt_mono_r; lia).
  assert (Hpos : 0 < 2 ^ n) by (apply Z.pow_pos_nonneg; lia).
  assert (Hpos' : 0 < 2 ^ (64 - n)) by (apply Z.pow_pos_nonneg; lia).
  pose proof (Z.div_mod (z + 2 ^ 63) (2 ^ 64) ltac:(lia)) as Hdm.
  assert (Hq : 2 ^ 64 * ((z + 2 ^ 63) / 2 ^ 64)
               = (z + 2 ^ 63) / 2 ^ 64 * 2 ^ (64 - n) * 2 ^ n)
    by (rewrite H64 at 1; ring).
  replace ((z + 2 ^ 63) mod 2 ^ 64 - 2 ^ 63)
    with (z + (- ((z + 2 ^ 63) / 2 ^ 64) * 2 ^ (64 - n)) * 2 ^ n) by lia.
  apply Z_mod_plus_full.
Qed.

Lemma shl_small (x n : Z) (k : Z) :
  0 <= n -> 0 <= k -> k + n <= 63 -> 0 <= x < 2 ^ k ->
  shl x n = Z.shiftl x n /\ 0 <= Z.shiftl x n < 2 ^ (k + n).
Proof.
  intros Hn Hk Hkn Hx.
  assert (Hb : 0 <= Z.shiftl x n < 2 ^ (k + n)).
  { rewrite Z.shiftl_mul_pow2 by lia. rewrite Z.pow_add_r by lia.
    assert (0 < 2 ^ n) by (apply Z.pow_pos_nonneg; lia). nia. }
  split; [| exact Hb].
  unfold shl. apply wrap64_small.
  assert (2 ^ (k + n) <= 2 ^ 63) by (apply Z.pow_le_mono_r; lia).
  lia.
Qed.

(** The bits below the shift amount of [x << n] are zero, whatever [x]. *)
Lemma shl_low_zero (x n m : Z) :
  0 <= m <= n -> n <= 64 -> Z.land (shl x n) (Z.ones m) = 0.
Proof.
  intros Hm Hn. rewrite Z.land_ones by lia.
  unfold shl. rewrite wrap64_mod by lia.
  rewrite Z.shiftl_mul_pow2 by lia.
  replace n with ((n - m) + m) by lia.
  rewrite Z.pow_add_r by lia. rewrite Z.mul_assoc.
  apply Z_mod_mult.
Qed.

(** Restricting to the low [n] bits first. *)
Lemma land_low (x m n : Z) :
  0 <= n -> 0 <= m < 2 ^ n -> Z.land x m = Z.land (Z.land x (Z.ones n)) m.
Proof.
  intros Hn Hm. rewrite <- Z.land_assoc. f_equal.
  rewrite Z.land_comm, Z.land_ones by lia. now rewrite Z.mod_small.
Qed.

(** ** UTF-8 decoding consumes at least one and at most all bytes *)

Lemma first_cases (p0 : Z) :
  In (utf8.first p0)
     [utf8.as_; utf8.xx; utf8.s1; utf8.s2; utf8.s3; utf8.s4; utf8.s5; utf8.s6; utf8.s7].
Proof.
  unfold utf8.first.
  repeat match goal with
         | |- context [if ?c then _ else _] => destruct c
         end; simpl; auto 20.
Qed.

Lemma len_cons (c : byte) (t : bytes) : len (c :: t) = len t + 1.
Proof. unfold len. cbn [length]. lia. Qed.

Lemma len_nonneg (b : bytes) : 0 <= len b.
Proof. unfold len. lia. Qed.

Lemma DecodeRune_size (p : bytes) :
  p <> [] -> (1 <= snd (utf8.DecodeRune p) <= length p)%nat.
Proof.
  destruct p as [|c0 t]; [congruence | intros _].
  unfold utf8.DecodeRune.
  pose proof (first_cases (b2z c0)) as Hx.
  remember (utf8.first (b2z c0)) as x eqn:Ex. clear Ex.
  assert (Hlen : len (c0 :: t) = Z.of_nat (length (c0 :: t))) by reflexivity.
  remember (len (c0 :: t)) as n eqn:En. clear En.
  cbn [In] in Hx.
  repeat (destruct Hx as [Hx | Hx]; [subst x | ]); try contradiction;
    cbn -[nth b2z Z.ltb];
    repeat match goal with
           | |- context [if ?c then _ else _] =>
               match c with
               | (n <? ?k) => destruct (Z.ltb_spec n k)
               | _ => destruct c
               end
           end;
    cbn [snd length] in *; lia.
Qed.

Lemma DecodeRune_ascii (c0 : byte) (t : bytes) :
  b2z c0 <= 0x7F -> utf8.DecodeRune (c0 :: t) = (b2z c0, 1%nat).
Proof.
  intros Hc. unfold utf8.DecodeRune, utf8.first.
  destruct (Z.leb_spec (b2z c0) 0x7F); [reflexivity | lia].
Qed.

(** ** The shape of what [Step] returns *)

Section StepShape.
Context {ext : Externals}.

Lemma stepLoop_unfold (fuel : nat) (b : bytes) (length : nat) (remainder : bytes)
    (graphemeState wordState sentenceState lineState firstProp width : Z) :
  stepLoop fuel b length remainder graphemeState wordState sentenceState lineState
    firstProp width =
  let dr := utf8.DecodeRune remainder in
  let r := fst dr in
  let l := snd dr in
  let remainder := skipn (length + l) b in
  let g := transitionGraphemeState graphemeState r in
  let w := transitionWordBreakState wordState r (Some remainder) [] in
  let s := transitionSentenceBreakState sentenceState r (Some remainder) [] in
  let lb := transitionLineBreakStateContext lineState r (Some remainder) [] in
  if snd g then
    Some (mkStepResult (firstn length b) (skipn length b)
            (packBoundary (snd lb) width (snd w) (snd s))
            (packState (fst (fst g)) (fst w) (fst s) (fst lb) (snd (fst g))))
  else
    if len b <=? Z.of_nat (length + l) then
      Some (mkStepResult b [] (endBoundaries (nextWidth firstProp width r (snd (fst g))))
              (Z.lor anyState (shl (snd (fst g)) shiftPropState)))
    else
      match fuel with
      | O => None
      | S fuel' =>
          stepLoop fuel' b (length + l) remainder (fst (fst g)) (fst w) (fst s) (fst lb)
            firstProp (nextWidth firstProp width r (snd (fst g)))
      end.
Proof. destruct fuel; reflexivity. Qed.

Lemma skipn_nonempty (b : bytes) (n : nat) : (n < length b)%nat -> skipn n b <> [].
Proof.
  intros Hn Hnil.
  pose proof (length_skipn n b) as Hl. rewrite Hnil in Hl. cbn in Hl. lia.
Qed.

Lemma stepLoop_spec (fuel : nat) : forall (b : bytes) (length : nat) (remainder : bytes)
    (graphemeState wordState sentenceState lineState firstProp width : Z),
  (1 <= length < List.length b)%nat ->
  (List.length b <= length + fuel + 1)%nat ->
  remainder = skipn length b ->
  exists res,
    stepLoop fuel b length remainder graphemeState wordState sentenceState lineState
      firstProp width = Some res /\ stepResultOf b res.
Proof.
  induction fuel as [|fuel IH]; intros b n remainder gs ws ss ls fp w Hn Hfuel ->;
    rewrite stepLoop_unfold; cbv zeta;
    pose proof (DecodeRune_size (skipn n b) (skipn_nonempty b n ltac:(lia))) as Hsz;
    rewrite length_skipn in Hsz;
    destruct (snd (transitionGraphemeState gs _)).
  1, 3: eexists; split; [reflexivity |];
    unfold stepResultOf; cbn [cluster rest boundaries newState];
    repeat split.
  1, 5: apply firstn_skipn.
  1, 4: intros Hnil; apply (f_equal (@List.length byte)) in Hnil;
        rewrite length_firstn in Hnil; cbn in Hnil; lia.
  1, 3: rewrite length_skipn; lia.
  1, 2: intros Hnil; exfalso; revert Hnil; apply skipn_nonempty; lia.
  - destruct (Z.leb_spec (len b) (Z.of_nat (n + snd (utf8.DecodeRune (skipn n b))))) as [Hend|Hmore].
    + eexists; split; [reflexivity |].
      unfold stepResultOf; cbn [cluster rest boundaries newState].
      repeat split.
      * apply app_nil_r.
      * destruct b; [cbn in Hn; lia | discriminate].
      * cbn [List.length]. lia.
      * intros _. eauto.
    + unfold len in Hmore. lia.
  - destruct (Z.leb_spec (len b) (Z.of_nat (n + snd (utf8.DecodeRune (skipn n b))))) as [Hend|Hmore].
    + eexists; split; [reflexivity |].
      unfold stepResultOf; cbn [cluster rest boundaries newState].
      repeat split.
      * apply app_nil_r.
      * destruct b; [cbn in Hn; lia | discriminate].
      * cbn [List.length]. lia.
      * intros _. eauto.
    + unfold len in Hmore. apply IH; [lia | lia | reflexivity].
Qed.

Lemma Step_empty (state : Z) : Step [] state = Some (mkStepResult [] [] 0 0).
Proof. reflexivity. Qed.

Lemma StepString_empty (state : Z) : StepString [] state = Some (mkStepResult [] [] 0 0).
Proof. reflexivity. Qed.

Lemma Step_spec (b : bytes) (state : Z) :
  b <> [] -> exists res, Step b state = Some res /\ stepResultOf b res.
Proof.
  intros Hb. unfold Step.
  assert (Hlen : (0 < length b)%nat) by (destruct b; [congruence | cbn; lia]).
  destruct (Z.eqb_spec (len b) 0) as [H0|_]; [unfold len in H0; lia |].
  pose proof (DecodeRune_size b Hb) as Hsz. cbv zeta.
  destruct (Z.leb_spec (len b) (Z.of_nat (snd (utf8.DecodeRune b)))) as [Hend|Hmore].
  - eexists; split; [reflexivity |].
    unfold stepResultOf; cbn [cluster rest boundaries newState].
    repeat split.
    + apply app_nil_r.
    + exact Hb.
    + cbn [List.length]. lia.
    + intros _. eauto.
  - unfold len in Hmore. apply stepLoop_spec; [lia | lia | reflexivity].
Qed.

(** The caller's loop ends within as many calls as there are bytes. *)
Lemma stepAll_spec (fuel : nat) : forall (b : bytes) (state : Z),
  (length b <= fuel)%nat ->
  exists out last,
    stepAll fuel b state = Some (out, last) /\
    concat (map fst out) = b /\
    Forall (fun c => fst c <> []) out /\
    (length out <= length b)%nat.
Proof.
  induction fuel as [|fuel IH]; intros b state Hfuel.
  - destruct b; [| cbn in Hfuel; lia].
    exists [], state. cbn. auto.
  - destruct b as [|c t].
    + exists [], state. cbn. auto.
    + destruct (Step_spec (c :: t) state ltac:(discriminate)) as (res & Hres & Hok).
      destruct Hok as (Happ & Hne & Hshort & _).
      destruct (IH (rest res) (newState res)) as (out & last & Hout & Hcat & Hall & Hcount).
      { cbn in Hfuel, Hshort. lia. }
      exists ((cluster res, boundaries res) :: out), last.
      cbn [stepAll]. rewrite Hres, Hout.
      repeat split.
      * cbn. now rewrite Hcat.
      * constructor; [exact Hne | exact Hall].
      * cbn [List.length] in *. lia.
Qed.
End StepShape.

(** ** Bit fields of the boundaries value and of the state token *)

Section Fields.
Context {ext : Externals}.

Lemma endBoundaries_low (width : Z) : Z.land (endBoundaries width) 15 = 14.
Proof.
  unfold endBoundaries.
  change (Z.lor (Z.lor LineMustBreak (shl 1 shiftWord)) (shl 1 shiftSentence)) with 14.
  rewrite Z.land_lor_distr_l.
  change 15 with (Z.ones 4). unfold ShiftWidth.
  rewrite shl_low_zero by lia. reflexivity.
Qed.

Lemma endBoundaries_fields (width : Z) :
  Z.land (endBoundaries width) MaskLine = LineMustBreak /\
  Z.land (endBoundaries width) MaskWord = MaskWord /\
  Z.land (endBoundaries width) MaskSentence = MaskSentence.
Proof.
  pose proof (endBoundaries_low width) as Hlow. change 15 with (Z.ones 4) in Hlow.
  unfold MaskLine, MaskWord, MaskSentence.
  rewrite (land_low _ 3 4), (land_low _ 4 4), (land_low _ 8 4) by (cbn; lia).
  rewrite Hlow. auto.
Qed.

Lemma packBoundary_line (lineBreak width : Z) (wordBoundary sentenceBoundary : bool) :
  0 <= lineBreak <= 2 ->
  Z.land (packBoundary lineBreak width wordBoundary sentenceBoundary) MaskLine = lineBreak.
Proof.
  intros Hlb. unfold packBoundary, MaskLine. cbv zeta.
  change (shl 1 shiftWord) with 4. change (shl 1 shiftSentence) with 8.
  change 3 with (Z.ones 2).
  assert (Hw : Z.land (shl width ShiftWidth) (Z.ones 2) = 0)
    by (unfold ShiftWidth; apply shl_low_zero; lia).
  assert (Hl : Z.land lineBreak (Z.ones 2) = lineBreak)
    by (rewrite Z.land_ones by lia; apply Z.mod_small; cbn; lia).
  destruct wordBoundary, sentenceBoundary;
    repeat rewrite Z.land_lor_distr_l; rewrite Hw, Hl;
    change (Z.land 4 (Z.ones 2)) with 0; change (Z.land 8 (Z.ones 2)) with 0;
    repeat rewrite Z.lor_0_r; reflexivity.
Qed.
End Fields.

Lemma shiftr_small (x k : Z) : 0 <= k -> 0 <= x < 2 ^ k -> Z.shiftr x k = 0.
Proof.
  intros Hk Hx. rewrite Z.shiftr_div_pow2 by lia. now apply Z.div_small.
Qed.

Lemma land_ones_small (x k : Z) : 0 <= k -> 0 <= x < 2 ^ k -> Z.land x (Z.ones k) = x.
Proof.
  intros Hk Hx. rewrite Z.land_ones by lia. now apply Z.mod_small.
Qed.

Lemma land_shiftl_ones (x n m : Z) :
  0 <= m <= n -> Z.land (Z.shiftl x n) (Z.ones m) = 0.
Proof.
  intros Hm. rewrite Z.land_ones by lia.
  rewrite Z.shiftl_mul_pow2 by lia.
  replace n with ((n - m) + m) by lia.
  rewrite Z.pow_add_r by lia. rewrite Z.mul_assoc.
  apply Z_mod_mult.
Qed.

(** ** Packing the line context *)

Lemma unpack_pack (ctx : LineContext) :
  0 <= State ctx <= 255 -> 0 <= Flags ctx <= 255 ->
  0 <= packLineContext ctx < 2 ^ 16 /\
  unpackLineContext (packLineContext ctx) = ctx.
Proof.
  destruct ctx as [s f]. cbn [State Flags]. intros Hs Hf.
  unfold packLineContext, unpackLineContext. cbn [State Flags].
  destruct (shl_small f 8 8) as [Hshl Hrange]; try lia.
  rewrite Hshl.
  change 255 with (Z.ones 8).
  rewrite (land_ones_small s 8) by (cbn; lia).
  assert (Hnn : 0 <= Z.lor (Z.shiftl f 8) s).
  { apply Z.lor_nonneg. split; [apply Z.shiftl_nonneg |]; lia. }
  assert (Hlo : Z.land (Z.lor (Z.shiftl f 8) s) (Z.ones 8) = s).
  { rewrite Z.land_lor_distr_l, land_shiftl_ones by lia.
    rewrite land_ones_small by (cbn; lia). apply Z.lor_0_l. }
  assert (Hhi : Z.shiftr (Z.lor (Z.shiftl f 8) s) 8 = f).
  { rewrite Z.shiftr_lor, Z.shiftr_shiftl_l by lia.
    rewrite shiftr_small by (cbn; lia).
    rewrite Z.sub_diag, Z.shiftl_0_r. apply Z.lor_0_r. }
  split.
  - split; [exact Hnn |].
    apply Z.log2_lt_cancel. rewrite Z.log2_pow2 by lia.
    destruct (Z.eq_dec (Z.lor (Z.shiftl f 8) s) 0) as [-> | Hne]; [cbn; lia |].
    rewrite Z.log2_lor by (try apply Z.shiftl_nonneg; lia).
    apply Z.max_lub_lt.
    + destruct (Z.eq_dec f 0) as [-> | Hf0]; [rewrite Z.shiftl_0_l; cbn; lia |].
      apply Z.log2_lt_pow2; [| exact (proj2 Hrange)].
      rewrite Z.shiftl_mul_pow2 by lia. lia.
    + destruct (Z.eq_dec s 0) as [-> | Hs0]; [cbn; lia |].
      apply Z.log2_lt_pow2; cbn; lia.
  - destruct (Z.ltb_spec (Z.lor (Z.shiftl f 8) s) 0); [lia |].
    rewrite Hlo, Hhi. rewrite land_ones_small by (cbn; lia). reflexivity.
Qed.

(** ** The fields of the state token *)

Ltac eval_sub :=
  repeat match goal with
         | |- context [Z.sub ?a ?b] =>
             let v := eval cbv in (Z.sub a b) in change (Z.sub a b) with v
         end.

Ltac fields :=
  repeat first
    [ rewrite Z.shiftr_lor
    | rewrite Z.land_lor_distr_l
    | rewrite Z.shiftr_shiftl_l by lia
    | rewrite Z.shiftr_shiftl_r by lia
    | rewrite Z.shiftl_0_r
    | rewrite Z.shiftr_0_r
    | rewrite Z.lor_0_r
    | rewrite Z.lor_0_l
    | progress eval_sub
    | match goal with
      | |- context [Z.shiftl ?x (Z.neg ?p)] =>
          change (Z.shiftl x (Z.neg p)) with (Z.shiftr x (Z.pos p))
      end
    | rewrite shiftr_small by (cbn; lia)
    | rewrite land_shiftl_ones by lia
    | rewrite land_ones_small by (cbn; lia) ].

Section Token.
Context {ext : Externals}.

Lemma packState_fields (graphemeState wordState sentenceState lineState prop : Z) :
  0 <= graphemeState < 2 ^ 12 -> 0 <= wordState < 2 ^ 5 ->
  0 <= sentenceState < 2 ^ 4 -> 0 <= lineState < 2 ^ 16 -> 0 <= prop < 2 ^ 26 ->
  let state := packState graphemeState wordState sentenceState lineState prop in
  0 <= state /\
  Z.land state maskGraphemeState = graphemeState /\
  Z.land (Z.shiftr state shiftWordState) maskWordState = wordState /\
  Z.land (Z.shiftr state shiftSentenceState) maskSentenceState = sentenceState /\
  Z.land (Z.shiftr state shiftLineState) maskLineState = lineState /\
  Z.shiftr state shiftPropState = prop.
Proof.
  intros Hg Hw Hs Hl Hp. cbv zeta. unfold packState.
  unfold shiftWordState, shiftSentenceState, shiftLineState, shiftPropState.
  destruct (shl_small wordState 12 5) as [-> Hw']; try lia.
  destruct (shl_small sentenceState 17 4) as [-> Hs']; try lia.
  destruct (shl_small lineState 21 16) as [-> Hl']; try lia.
  destruct (shl_small prop 37 26) as [-> Hp']; try lia.
  change maskGraphemeState with (Z.ones 12). change maskWordState with (Z.ones 5).
  change maskSentenceState with (Z.ones 4). change maskLineState with (Z.ones 16).
  repeat split.
  - repeat (apply Z.lor_nonneg; split); lia.
  - fields. reflexivity.
  - fields. reflexivity.
  - fields. reflexivity.
  - fields. reflexivity.
  - fields. reflexivity.
Qed.
End Token.

(** ** The grapheme machine *)

Lemma switchLookup_cases (key : Z) (cases : list (Z * Z * (Z * Z * Z))) :
  switchLookup key cases = (-1, -1, -1) \/ In (switchLookup key cases) (map snd cases).
Proof.
  induction cases as [|[[s p] res] cases IH]; cbn [switchLookup map In].
  - now left.
  - destruct (key =? Z.lor s (Z.shiftl p 32)).
    + right. now left.
    + destruct IH as [IH | IH]; [now left | right; now right].
Qed.

Lemma grCases_states :
  forallb (fun res : Z * Z * Z => (0 <=? fst (fst res)) && (fst (fst res) <=? 10))
          (map snd grCases) = true.
Proof. vm_compute. reflexivity. Qed.

(** A transition of the table leads to one of the eleven base states. *)
Lemma grTransitions_state (state prop : Z) :
  fst (fst (grTransitions state prop)) = -1 \/
  0 <= fst (fst (grTransitions state prop)) <= 10.
Proof.
  unfold grTransitions.
  destruct (switchLookup_cases (switchKey state prop) grCases) as [-> | Hin].
  - now left.
  - right.
    pose proof grCases_states as Hall. rewrite forallb_forall in Hall.
    apply Hall in Hin. apply andb_prop in Hin. lia.
Qed.

Lemma incb_bits (base sub : Z) :
  0 <= base <= 10 -> In sub [grInCBConsonant; grInCBExtend; grInCBLinker] ->
  Z.land (Z.lor base sub) grInCBMask = sub.
Proof.
  intros Hb Hsub.
  assert (Hcases : In base [0; 1; 2; 3; 4; 5; 6; 7; 8; 9; 10]) by (cbn; lia).
  cbn [In] in Hcases, Hsub.
  repeat (destruct Hcases as [<- | Hcases]);
    try contradiction;
    repeat (destruct Hsub as [<- | Hsub]); try contradiction; reflexivity.
Qed.

Section GraphemeFacts.
Context {ext : Externals}.

(** The base state chosen by the tiered look-up, before GB9c. *)
Lemma transitionGraphemeState_consonant (state : Z) (r : rune) :
  propertyInCB r = prInCBConsonant ->
  exists base boundary,
    0 <= base <= 10 /\
    transitionGraphemeState state r =
      (Z.lor base grInCBConsonant, propertyGraphemes r,
       if Z.land state grInCBMask =? grInCBLinker then false else boundary).
Proof.
  intros Hincb. unfold transitionGraphemeState. rewrite Hincb.
  change (prInCBConsonant =? prInCBConsonant) with true. cbv iota.
  pose proof (grTransitions_state (Z.land state 255) (propertyGraphemes r)) as H1.
  pose proof (grTransitions_state (Z.land state 255) prAny) as H2.
  pose proof (grTransitions_state grAny (propertyGraphemes r)) as H3.
  destruct (grTransitions (Z.land state 255) (propertyGraphemes r)) as [[n1 p1] r1].
  destruct (grTransitions (Z.land state 255) prAny) as [[n2 p2] r2].
  destruct (grTransitions grAny (propertyGraphemes r)) as [[n3 p3] r3].
  cbn [fst snd] in H1, H2, H3.
  destruct (Z.leb_spec 0 n1); [eexists _, _; split; [| reflexivity]; lia |].
  destruct (Z.leb_spec 0 n2), (Z.leb_spec 0 n3); cbn [andb];
    eexists _, _; (split; [| reflexivity]); unfold grAny; lia.
Qed.
End GraphemeFacts.

(** ** ASCII letters and digits *)

Section Ascii.
Context {ext : Externals}.

Lemma propertyLineBreak_lower (r : rune) :
  isLower r = true -> propertyLineBreak r = (prAL, gcLl).
Proof. unfold isLower, propertyLineBreak. now intros ->. Qed.

Lemma propertyLineBreak_upper (r : rune) :
  isUpper r = true -> propertyLineBreak r = (prAL, gcLu).
Proof.
  unfold isUpper, propertyLineBreak. intros H. rewrite H.
  destruct ((97 <=? r) && (r <=? 122)) eqn:E; [| reflexivity].
  apply andb_prop in H, E. lia.
Qed.

Lemma propertyLineBreak_digit (r : rune) :
  isDigit r = true -> propertyLineBreak r = (prNU, gcNd).
Proof.
  unfold isDigit, propertyLineBreak. intros H. rewrite H.
  destruct ((97 <=? r) && (r <=? 122)) eqn:E1; [apply andb_prop in H, E1; lia |].
  destruct ((65 <=? r) && (r <=? 90)) eqn:E2; [apply andb_prop in H, E2; lia |].
  reflexivity.
Qed.

Lemma isAlnum_range (r : rune) : isAlnum r = true -> 0x30 <= r <= 0x7a.
Proof.
  unfold isAlnum, isLetter, isLower, isUpper, isDigit. intros H.
  repeat (apply orb_prop in H; destruct H as [H | H]); apply andb_prop in H; lia.
Qed.

Lemma propertyGraphemes_ascii (r : rune) :
  0x20 <= r <= 0x7e -> propertyGraphemes r = prAny.
Proof.
  intros Hr. unfold propertyGraphemes.
  destruct (Z.leb_spec 32 r), (Z.leb_spec r 126); try lia. reflexivity.
Qed.

Lemma propertyInCB_low (r : rune) : r < 0x0300 -> propertyInCB r = prInCBNone.
Proof.
  intros Hr. unfold propertyInCB. destruct (Z.ltb_spec r 768); [reflexivity | lia].
Qed.

Lemma not_dotted_circle (r : rune) : r <= 0x7e -> (r =? 0x25CC) = false.
Proof. intros Hr. apply Z.eqb_neq. lia. Qed.

(** Between printable ASCII characters there is always a cluster boundary. *)
Lemma transitionGraphemeState_ascii (state : Z) (r : rune) :
  state = -1 \/ state = grAny -> 0x20 <= r <= 0x7e ->
  transitionGraphemeState state r = (grAny, prAny, true).
Proof.
  intros Hs Hr. unfold transitionGraphemeState.
  rewrite propertyGraphemes_ascii, propertyInCB_low by lia.
  destruct Hs as [-> | ->]; vm_compute; reflexivity.
Qed.
End Ascii.

Lemma alnum_cases (P : rune -> Prop) :
  Forall P alnumRunes -> forall r, isAlnum r = true -> P r.
Proof.
  intros Hall r Hr. rewrite Forall_forall in Hall. apply Hall.
  unfold isAlnum, isLetter, isLower, isUpper, isDigit in Hr.
  unfold alnumRunes. rewrite <- (Z2Nat.id r) by
    (repeat (apply orb_prop in Hr; destruct Hr as [Hr | Hr]); apply andb_prop in Hr; lia).
  apply in_map. rewrite !in_app_iff, !in_seq.
  repeat (apply orb_prop in Hr; destruct Hr as [Hr | Hr]); apply andb_prop in Hr; lia.
Qed.

Section LineAscii.
Context {ext : Externals}.

Lemma context_letter (state : Z) (r : rune) (b : option bytes) (str : bytes) :
  isLetter r = true ->
  state = -1 \/ state = packLineContext (mkLineContext lbcAL 0) ->
  transitionLineBreakStateContext state r b str =
    (packLineContext (mkLineContext lbcAL 0),
     if state <? 0 then LineCanBreak else LineDontBreak).
Proof.
  intros Hr Hs. revert b str.
  assert (Hr' : isAlnum r = true) by (unfold isAlnum; now rewrite Hr).
  revert r Hr' Hr.
  destruct Hs as [-> | ->];
    intros r Hr; pattern r; revert r Hr;
    apply alnum_cases; unfold alnumRunes;
    repeat (constructor;
            [intros Hl b str;
             first [discriminate Hl | vm_compute; reflexivity] |]);
    constructor.
Qed.
End LineAscii.

(** ** The two line-break machines on plain text *)











Section PlainText.
Context {ext : Externals}.




(** Letters and digits get their class from the fast path of
    [propertyLineBreak], whatever the table. *)
Lemma tableAgreesOn_alnum (b : bytes) :
  forallb (fun c => isAlnum (b2z c)) b = true -> tableAgreesOn ext b.
Proof.
  unfold tableAgreesOn. induction b as [|c t IH]; intros Hall; constructor.
  - cbn [forallb] in Hall. apply andb_prop in Hall. destruct Hall as [Hc _].
    unfold isAlnum, isLetter in Hc.
    destruct (isLower (b2z c)) eqn:Hl.
    { now rewrite (@propertyLineBreak_lower ext _ Hl),
                  (@propertyLineBreak_lower asciiExternals _ Hl). }
    destruct (isUpper (b2z c)) eqn:Hu.
    { now rewrite (@propertyLineBreak_upper ext _ Hu),
                  (@propertyLineBreak_upper asciiExternals _ Hu). }
    cbn in Hc.
    now rewrite (@propertyLineBreak_digit ext _ Hc),
                (@propertyLineBreak_digit asciiExternals _ Hc).
  - apply IH. cbn [forallb] in Hall. apply andb_prop in Hall. tauto.
Qed.



End PlainText.

(** ** [Step] over ASCII letters *)

Section StepLetters.
Context {ext : Externals}.
Hypothesis Hrange : analyzersInRange.

Lemma atLetter_packState (wordState sentenceState : Z) :
  0 <= wordState < 32 -> 0 <= sentenceState < 16 ->
  atLetter (packState grAny wordState sentenceState
              (packLineContext (mkLineContext lbcAL 0)) prAny).
Proof.
  intros Hw Hs. right.
  assert (Hg : 0 <= grAny < 2 ^ 12) by (unfold grAny; lia).
  assert (Hw' : 0 <= wordState < 2 ^ 5) by lia.
  assert (Hs' : 0 <= sentenceState < 2 ^ 4) by lia.
  assert (Hl : 0 <= packLineContext (mkLineContext lbcAL 0) < 2 ^ 16)
    by (change (packLineContext (mkLineContext lbcAL 0)) with 19; lia).
  assert (Hp : 0 <= prAny < 2 ^ 26) by (unfold prAny; lia).
  pose proof (packState_fields _ _ _ _ _ Hg Hw' Hs' Hl Hp) as H.
  cbv zeta in H. tauto.
Qed.

(** A letter followed by a letter: the cluster is the first letter, and the
    line may not be broken after it (LB28). *)
Lemma Step_letter_letter (x y : byte) (t : bytes) (state : Z) :
  atLetter state -> isLetter (b2z x) = true -> isLetter (b2z y) = true ->
  exists res,
    Step (x :: y :: t) state = Some res /\
    cluster res = [x] /\ rest res = y :: t /\
    Z.land (boundaries res) MaskLine = LineDontBreak /\
    atLetter (newState res).
Proof.
  intros Hstate Hx Hy.
  assert (Hx' : 0x30 <= b2z x <= 0x7a)
    by (apply isAlnum_range; unfold isAlnum; now rewrite Hx).
  assert (Hy' : 0x30 <= b2z y <= 0x7a)
    by (apply isAlnum_range; unfold isAlnum; now rewrite Hy).
  destruct Hrange as [Hword Hsentence].
  unfold Step.
  destruct (Z.eqb_spec (len (x :: y :: t)) 0) as [H0 | _];
    [rewrite !len_cons in H0; pose proof (len_nonneg t); lia |].
  rewrite DecodeRune_ascii by lia. cbn [fst snd].
  destruct (Z.leb_spec (len (x :: y :: t)) (Z.of_nat 1)) as [H1 | _];
    [rewrite !len_cons in H1; pose proof (len_nonneg t); lia |].
  cbv zeta. rewrite stepLoop_unfold. cbv zeta. cbn [skipn].
  rewrite DecodeRune_ascii by lia. cbn [fst snd].
  destruct Hstate as [-> | (Hnn & Hg & Hl)].
  - change (-1 <? 0) with true. cbv iota.
    rewrite (transitionGraphemeState_ascii (-1) (b2z x)) by (auto; lia).
    rewrite (context_letter (-1) (b2z x)) by auto.
    cbn [fst snd].
    rewrite (transitionGraphemeState_ascii grAny (b2z y)) by (auto; lia).
    rewrite (context_letter _ (b2z y)) by auto.
    cbn [fst snd].
    eexists; split; [reflexivity |]. cbn [cluster rest boundaries newState firstn].
    repeat split.
    + apply packBoundary_line. unfold LineDontBreak. lia.
    + apply atLetter_packState; [apply Hword | apply Hsentence].
  - destruct (Z.ltb_spec state 0) as [Hneg | _]; [lia |].
    rewrite Hg, Hl.
    rewrite (transitionGraphemeState_ascii grAny (b2z y)) by (auto; lia).
    rewrite (context_letter _ (b2z y)) by auto.
    cbn [fst snd].
    eexists; split; [reflexivity |]. cbn [cluster rest boundaries newState firstn].
    repeat split.
    + apply packBoundary_line. unfold LineDontBreak. lia.
    + apply atLetter_packState; [apply Hword | apply Hsentence].
Qed.

(** The call on the last code point reports the end of the text. *)
Lemma Step_last (x : byte) (state : Z) :
  exists res,
    Step [x] state = Some res /\ cluster res = [x] /\ rest res = [] /\
    Z.land (boundaries res) MaskLine = LineMustBreak.
Proof.
  destruct (Step_spec [x] state ltac:(discriminate)) as (res & Hres & Happ & Hne & Hlen & Hend).
  assert (Hrest : rest res = []).
  { destruct (rest res); [reflexivity | cbn in Hlen; lia]. }
  exists res. rewrite Hrest, app_nil_r in Happ.
  destruct (Hend Hrest) as (w & p & Hb & _).
  repeat split; auto.
  rewrite Hb. apply endBoundaries_fields.
Qed.

(** A word of ASCII letters: one cluster per letter, no break inside the word,
    a mandatory break at its end. *)
Lemma stepAll_letters (t : bytes) : forall (x : byte) (fuel : nat) (state : Z),
  atLetter state ->
  forallb (fun c => isLetter (b2z c)) (x :: t) = true ->
  (length (x :: t) <= fuel)%nat ->
  exists out last,
    stepAll fuel (x :: t) state = Some (out, last) /\
    map fst out = map (fun c => [c]) (x :: t) /\
    lineVerdictsOf out = repeat LineDontBreak (length t) ++ [LineMustBreak].
Proof.
  induction t as [|y t IH]; intros x fuel state Hstate Hall Hfuel;
    (destruct fuel as [|fuel]; [cbn in Hfuel; lia |]).
  - destruct (Step_last x state) as (res & Hres & Hc & Hr & Hb).
    exists [(cluster res, boundaries res)], (newState res).
    cbn [stepAll]. rewrite Hres, Hr.
    destruct fuel; cbn [stepAll]; cbn; rewrite Hc, Hb; auto.
  - cbn [forallb] in Hall. apply andb_prop in Hall. destruct Hall as [Hx Hall].
    pose proof Hall as Hall'.
    cbn [forallb] in Hall'. apply andb_prop in Hall'. destruct Hall' as [Hy _].
    destruct (Step_letter_letter x y t state Hstate Hx Hy)
      as (res & Hres & Hc & Hr & Hb & Hnext).
    destruct (IH y fuel (newState res) Hnext Hall ltac:(cbn in Hfuel |- *; lia))
      as (out & last & Hout & Hclusters & Hverdicts).
    exists ((cluster res, boundaries res) :: out), last.
    cbn [stepAll]. rewrite Hres, Hr, Hout.
    repeat split.
    + cbn [map fst]. now rewrite Hc, Hclusters.
    + unfold lineVerdictsOf in *. cbn [map snd length repeat app].
      now rewrite Hb, Hverdicts.
Qed.
End StepLetters.

(** ** The end of a run *)

Section RunEnd.
Context {ext : Externals}.

Lemma stepAll_nil (fuel : nat) (state : Z) : stepAll fuel [] state = Some ([], state).
Proof. destruct fuel; reflexivity. Qed.

Lemma stepAll_last (fuel : nat) : forall (b : bytes) (state : Z) out last,
  b <> [] ->
  stepAll fuel b state = Some (out, last) ->
  exists out' c width prop,
    out = out' ++ [(c, endBoundaries width)] /\
    last = Z.lor anyState (shl prop shiftPropState).
Proof.
  induction fuel as [|fuel IH]; intros b state out last Hb Hrun.
  - destruct b; [congruence | discriminate].
  - destruct b as [|c t]; [congruence |].
    cbn [stepAll] in Hrun.
    destruct (Step_spec (c :: t) state ltac:(discriminate)) as (res & Hres & Hok).
    rewrite Hres in Hrun.
    destruct (stepAll fuel (rest res) (newState res)) as [[out1 last1]|] eqn:Hrest;
      [| discriminate].
    injection Hrun as <- <-.
    destruct (rest res) as [|c' t'] eqn:Hr.
    + destruct Hok as (_ & _ & _ & Hend).
      destruct (Hend Hr) as (w & p & Hbd & Hst).
      assert (out1 = [] /\ last1 = newState res) as [-> ->].
      { rewrite stepAll_nil in Hrest. injection Hrest as <- <-. auto. }
      exists [], (cluster res), w, p. rewrite Hbd. auto.
    + destruct (IH (c' :: t') (newState res) out1 last1 ltac:(discriminate) Hrest) as (out' & c2 & w & p & -> & ->).
      exists ((cluster res, boundaries res) :: out'), c2, w, p. auto.
Qed.
End RunEnd.

(** The run of a line-break machine over a text ends within its fuel. *)
Lemma lineVerdicts_total (transition : Z -> rune -> option bytes -> bytes -> Z * Z)
    (fuel : nat) : forall (state : Z) (b : bytes),
  (length b <= fuel)%nat ->
  exists verdicts, lineVerdicts transition fuel state b = Some verdicts.
Proof.
  induction fuel as [|fuel IH]; intros state b Hfuel.
  - destruct b; [eexists; reflexivity | cbn in Hfuel; lia].
  - destruct b as [|c t]; [eexists; reflexivity |].
    cbn [lineVerdicts].
    pose proof (DecodeRune_size (c :: t) ltac:(discriminate)) as Hsz.
    destruct (IH (fst (transition state (fst (utf8.DecodeRune (c :: t)))
                         (Some (skipn (snd (utf8.DecodeRune (c :: t))) (c :: t))) []))
                 (skipn (snd (utf8.DecodeRune (c :: t))) (c :: t))) as (vs & Hvs).
    { rewrite length_skipn. cbn [length] in *. lia. }
    rewrite Hvs. eauto.
Qed.

(** The package's example [ExampleStep_lineBreaking]: the text is printed as
    "First |line.\n" with a mandatory break, then "Second |line." with a
    mandatory break, that is, the line may be broken after each space, must be
    broken after the line feed and at the end, and nowhere else. *)
Example ExampleStep_lineBreaking :
  option_map (fun run => lineVerdictsOf (fst run))
             (@stepAll sampleExternals (length firstLine) firstLine (-1))
  = Some (repeat LineDontBreak 5 ++ [LineCanBreak] ++ repeat LineDontBreak 5
            ++ [LineMustBreak] ++ repeat LineDontBreak 6 ++ [LineCanBreak]
            ++ repeat LineDontBreak 4 ++ [LineMustBreak]).
Proof. vm_compute. reflexivity. Qed.

(** * The claims of the specification *)

(** C1. Every call [Step(b, state)] returns a cluster and a rest whose
    concatenation is [b]; and calling [Step] from the initial state until the
    rest is empty (which takes at most [len(b)] calls) yields clusters whose
    concatenation is the input. *)
Theorem C1_step_consumes_input_exactly : forall (ext : Externals),
  (forall (b : bytes) (state : Z),
     exists res, Step b state = Some res /\ cluster res ++ rest res = b) /\
  (forall b : bytes,
     exists out last,
       stepAll (length b) b (-1) = Some (out, last) /\ concat (map fst out) = b).
Proof.
  intros ext. split.
  - intros [|c t] state.
    + eexists. split; [apply Step_empty | reflexivity].
    + destruct (Step_spec (c :: t) state ltac:(discriminate)) as (res & Hres & Happ & _).
      eauto.
  - intros b.
    destruct (stepAll_spec (length b) b (-1) (le_n _)) as (out & last & H & Hcat & _).
    eauto.
Qed.

(** C2, as stated, fails: over CR LF the run from the initial state yields the
    single cluster CR LF, while the run over CR followed by the run over LF
    resumed with the returned state yields the two clusters CR and LF. *)
Lemma C2_counterexample :
  option_map (map fst) (@stepWhole sampleExternals [x0d] [x0a]) = Some [[x0d; x0a]] /\
  option_map (map fst) (@stepSplit sampleExternals [x0d] [x0a]) = Some [[x0d]; [x0a]] /\
  @stepWhole sampleExternals [x0d] [x0a] <> @stepSplit sampleExternals [x0d] [x0a].
Proof.
  repeat split; try (vm_compute; reflexivity).
  vm_compute. discriminate.
Qed.

(** C2, amended. For a non-empty [X], the run over [X] and then over [Y] with
    the state returned by the last call on [X], and the run over [X ++ Y], both
    consume [X ++ Y] exactly; the last call on [X] reports the end of the text
    (LineMustBreak, word and sentence boundary) and returns a token whose four
    machine states are the initial ones and that keeps only a cached grapheme
    property. *)
Theorem C2_split_run : forall (ext : Externals) (X Y : bytes),
  X <> [] -> splitRunSpec X Y.
Proof.
  intros ext X Y HX. unfold splitRunSpec, stepSplit, stepWhole.
  destruct (stepAll_spec (length X) X (-1) (le_n _)) as (out1 & s1 & H1 & Hcat1 & _).
  destruct (stepAll_spec (length Y) Y s1 (le_n _)) as (out2 & s2 & H2 & Hcat2 & _).
  destruct (stepAll_spec (length (X ++ Y)) (X ++ Y) (-1) (le_n _))
    as (out & s & H & Hcat & _).
  destruct (stepAll_last _ _ _ _ _ HX H1) as (out1' & c & w & p & Hout1 & Hs1).
  exists out1, s1, out2, s2, out, s.
  rewrite H1, H2, H.
  repeat split; auto.
  - now rewrite map_app, concat_app, Hcat1, Hcat2.
  - eauto.
  - exists out1', c, (endBoundaries w).
    pose proof (endBoundaries_fields w). tauto.
Qed.

Lemma C2_split_run_witness : ["a"%byte] <> [] /\ @splitRunSpec sampleExternals ["a"%byte] ["b"%byte].
Proof.
  split; [discriminate |].
  apply (C2_split_run sampleExternals ["a"%byte] ["b"%byte]). discriminate.
Defined.

(** C3. On a non-empty input, a call of [Step] that returns an empty rest
    reports LineMustBreak in the line field and has the word and the sentence
    bit set. *)
Theorem C3_last_call_must_break : forall (ext : Externals) (b : bytes) (state : Z)
    (res : StepResult),
  b <> [] -> Step b state = Some res -> rest res = [] ->
  Z.land (boundaries res) MaskLine = LineMustBreak /\
  Z.land (boundaries res) MaskWord <> 0 /\
  Z.land (boundaries res) MaskSentence <> 0.
Proof.
  intros ext b state res Hb Hstep Hrest.
  destruct (Step_spec b state Hb) as (res' & Hres' & _ & _ & _ & Hend).
  rewrite Hstep in Hres'. injection Hres' as <-.
  destruct (Hend Hrest) as (w & p & Hbd & _). rewrite Hbd.
  destruct (endBoundaries_fields w) as (Hl & Hw & Hs).
  rewrite Hl, Hw, Hs. repeat split; discriminate.
Qed.

Lemma C3_last_call_must_break_witness :
  exists res,
    ["a"%byte] <> [] /\
    @Step sampleExternals ["a"%byte] (-1) = Some res /\
    rest res = [] /\
    Z.land (boundaries res) MaskLine = LineMustBreak /\
    Z.land (boundaries res) MaskWord <> 0 /\
    Z.land (boundaries res) MaskSentence <> 0.
Proof.
  eexists. split; [discriminate |]. split; [vm_compute; reflexivity |].
  split; [reflexivity |].
  apply (C3_last_call_must_break sampleExternals ["a"%byte] (-1));
    [discriminate | vm_compute; reflexivity | reflexivity].
Defined.

(** C4 fails on the code. On the one-letter input "a" from the initial state,
    [Step] and [StepString] return the same cluster, rest and boundaries, but
    not the same state: [Step] stores the grapheme property of the letter in
    the bits from 37 up, [StepString] leaves them zero. *)
Theorem C4_final_codepoint_state_differs : forall (ext : Externals),
  0 <= wbAny < 32 -> 0 <= sbAny < 16 ->
  exists res resString,
    Step ["a"%byte] (-1) = Some res /\
    StepString ["a"%byte] (-1) = Some resString /\
    cluster res = cluster resString /\
    rest res = rest resString /\
    boundaries res = boundaries resString /\
    Z.shiftr (newState res) shiftPropState = prAny /\
    Z.shiftr (newState resString) shiftPropState = 0 /\
    newState res <> newState resString.
Proof.
  intros ext Hw Hs.
  exists (mkStepResult ["a"%byte] [] (endBoundaries (runeWidth 97 prAny))
            (Z.lor anyState (shl prAny shiftPropState))),
         (mkStepResult ["a"%byte] [] (endBoundaries (runeWidth 97 prAny)) anyState).
  split; [reflexivity |]. split; [reflexivity |].
  cbn [cluster rest boundaries newState].
  assert (Hg : 0 <= grAny < 2 ^ 12) by (unfold grAny; lia).
  assert (Hw' : 0 <= wbAny < 2 ^ 5) by lia.
  assert (Hs' : 0 <= sbAny < 2 ^ 4) by lia.
  assert (Hl : 0 <= lbAny < 2 ^ 16) by (unfold lbAny; lia).
  pose proof (packState_fields grAny wbAny sbAny lbAny prAny Hg Hw' Hs' Hl
                ltac:(unfold prAny; lia)) as H1.
  pose proof (packState_fields grAny wbAny sbAny lbAny 0 Hg Hw' Hs' Hl
                ltac:(lia)) as H0.
  cbv zeta in H1, H0.
  destruct H1 as (_ & _ & _ & _ & _ & H1). destruct H0 as (_ & _ & _ & _ & _ & H0).
  change (packState grAny wbAny sbAny lbAny prAny)
    with (Z.lor anyState (shl prAny shiftPropState)) in H1.
  change (packState grAny wbAny sbAny lbAny 0)
    with (Z.lor anyState 0) in H0.
  rewrite Z.lor_0_r in H0.
  repeat split; auto.
  intros Heq. rewrite Heq, H0 in H1. discriminate.
Qed.

Lemma C4_final_codepoint_state_differs_witness :
  0 <= @wbAny sampleExternals < 32 /\ 0 <= @sbAny sampleExternals < 16 /\
  exists res resString,
    @Step sampleExternals ["a"%byte] (-1) = Some res /\
    @StepString sampleExternals ["a"%byte] (-1) = Some resString /\
    cluster res = cluster resString /\
    rest res = rest resString /\
    boundaries res = boundaries resString /\
    Z.shiftr (newState res) shiftPropState = prAny /\
    Z.shiftr (newState resString) shiftPropState = 0 /\
    newState res <> newState resString.
Proof.
  split; [cbn; lia |]. split; [cbn; lia |].
  apply (C4_final_codepoint_state_differs sampleExternals); cbn; lia.
Defined.




(** The texts of the comparison test are plain texts, and each rule of
    [plainText] is needed: on a text that breaks one of them the verdicts
    differ. *)
Example plain_text_rules :
  forallb plainText testStrings = true /\
  forallb (fun b => negb (plainText b)) excludedTexts = true /\
  forallb (fun b => negb (sameVerdicts (@legacyVerdicts asciiExternals b)
                                       (@contextVerdicts asciiExternals b)))
          excludedTexts = true.
Proof. repeat split; vm_compute; reflexivity. Qed.

(** C6, as stated, fails: on the empty input the returned state is 0, not a
    negative value. *)
Lemma C6_counterexample :
  ~ (exists res, @Step sampleExternals [] (-1) = Some res /\ newState res < 0).
Proof.
  intros (res & Hres & Hneg). rewrite Step_empty in Hres.
  injection Hres as <-. cbn in Hneg. lia.
Qed.

(** C6, amended. For the empty input and any state, [Step] and [StepString]
    return an empty cluster, an empty rest, the boundaries value 0 and the
    state 0. *)
Theorem C6_empty_input_returns_zero_values : forall (ext : Externals) (state : Z),
  Step [] state = Some (mkStepResult [] [] 0 0) /\
  StepString [] state = Some (mkStepResult [] [] 0 0).
Proof.
  intros ext state. split; [apply Step_empty | apply StepString_empty].
Qed.

(** C7. In [transitionGraphemeState], when the InCB sub-state of the state is
    ConsonantLinker and the next code point has InCB=Consonant, no boundary is
    reported and the InCB sub-state of the new state is Consonant. *)
Theorem C7_gb9c_consonant_after_linker : forall (ext : Externals) (state : Z)
    (r : rune),
  Z.land state grInCBMask = grInCBLinker ->
  propertyInCB r = prInCBConsonant ->
  snd (transitionGraphemeState state r) = false /\
  Z.land (fst (fst (transitionGraphemeState state r))) grInCBMask = grInCBConsonant.
Proof.
  intros ext state r Hstate Hr.
  destruct (transitionGraphemeState_consonant state r Hr) as (base & boundary & Hb & ->).
  rewrite Hstate. cbn [fst snd]. split; [reflexivity |].
  apply incb_bits; [exact Hb | cbn; auto].
Qed.

Lemma C7_gb9c_consonant_after_linker_witness :
  Z.land grInCBLinker grInCBMask = grInCBLinker /\
  @propertyInCB sampleExternals devanagariKa = prInCBConsonant /\
  snd (@transitionGraphemeState sampleExternals grInCBLinker devanagariKa) = false /\
  Z.land (fst (fst (@transitionGraphemeState sampleExternals grInCBLinker devanagariKa)))
         grInCBMask = grInCBConsonant.
Proof.
  split; [reflexivity |]. split; [reflexivity |].
  apply (C7_gb9c_consonant_after_linker sampleExternals grInCBLinker devanagariKa);
    reflexivity.
Defined.

(** C8, as stated, fails: the line verdicts for "Hello" are not
    Can, Can, Can, Can, Must. *)
Lemma C8_counterexample :
  ~ (exists out last,
       @stepAll sampleExternals 5 hello (-1) = Some (out, last) /\
       lineVerdictsOf out =
         [LineCanBreak; LineCanBreak; LineCanBreak; LineCanBreak; LineMustBreak]).
Proof.
  intros (out & last & Hrun & Hverdicts).
  vm_compute in Hrun. injection Hrun as <- <-.
  vm_compute in Hverdicts. discriminate.
Qed.

(** C8, amended. For "Hello", calling [Step] from the initial state yields the
    clusters H, e, l, l, o with the line verdicts DontBreak, DontBreak,
    DontBreak, DontBreak, MustBreak (LB28 forbids a break between letters),
    provided the states of the word and sentence machines fit their fields. *)
Theorem C8_hello : forall (ext : Externals),
  analyzersInRange ->
  exists out last,
    stepAll 5 hello (-1) = Some (out, last) /\
    map fst out = [["H"]; ["e"]; ["l"]; ["l"]; ["o"]]%byte /\
    lineVerdictsOf out =
      [LineDontBreak; LineDontBreak; LineDontBreak; LineDontBreak; LineMustBreak].
Proof.
  intros ext Hrange.
  destruct (stepAll_letters Hrange ["e"; "l"; "l"; "o"]%byte "H"%byte 5%nat (-1))
    as (out & last & Hrun & Hclusters & Hverdicts).
  - left. reflexivity.
  - reflexivity.
  - cbn. lia.
  - exists out, last. auto.
Qed.

Lemma C8_hello_witness :
  @analyzersInRange sampleExternals /\
  exists out last,
    @stepAll sampleExternals 5 hello (-1) = Some (out, last) /\
    map fst out = [["H"]; ["e"]; ["l"]; ["l"]; ["o"]]%byte /\
    lineVerdictsOf out =
      [LineDontBreak; LineDontBreak; LineDontBreak; LineDontBreak; LineMustBreak].
Proof.
  assert (H : @analyzersInRange sampleExternals) by (split; intros; cbn; lia).
  split; [exact H |].
  apply (C8_hello sampleExternals H).
Defined.

(** C9. On a non-empty input every call of [Step] returns a non-empty cluster
    and a rest strictly shorter than the input; so the caller's loop ends after
    at most [len(b)] calls, each with a non-empty cluster. *)
Theorem C9_step_makes_progress : forall (ext : Externals) (b : bytes) (state : Z),
  b <> [] ->
  (exists res,
     Step b state = Some res /\
     cluster res <> [] /\
     (length (rest res) < length b)%nat) /\
  (exists out last,
     stepAll (length b) b state = Some (out, last) /\
     Forall (fun c => fst c <> []) out /\
     (length out <= length b)%nat).
Proof.
  intros ext b state Hb. split.
  - destruct (Step_spec b state Hb) as (res & Hres & _ & Hne & Hlen & _). eauto.
  - destruct (stepAll_spec (length b) b state (le_n _)) as (out & last & H & _ & Hall & Hn).
    eauto.
Qed.

Lemma C9_step_makes_progress_witness :
  hello <> [] /\
  (exists res,
     @Step sampleExternals hello (-1) = Some res /\
     cluster res <> [] /\
     (length (rest res) < length hello)%nat) /\
  (exists out last,
     @stepAll sampleExternals (length hello) hello (-1) = Some (out, last) /\
     Forall (fun c => fst c <> []) out /\
     (length out <= length hello)%nat).
Proof.
  split; [discriminate |].
  apply (C9_step_makes_progress sampleExternals hello (-1)). discriminate.
Defined.

(** C10. Unpacking a packed line context with state and flags in 0..255 gives
    the context back; unpacking a negative value gives the initial context
    (state -1, only the start-of-text flag); and the packed context is read
    back unchanged from the line field of the state token of [Step]. *)
Theorem C10_line_context_roundtrip : forall (ext : Externals),
  (forall ctx : LineContext,
     0 <= State ctx <= 255 -> 0 <= Flags ctx <= 255 ->
     unpackLineContext (packLineContext ctx) = ctx) /\
  (forall packed : Z,
     packed < 0 -> unpackLineContext packed = mkLineContext (-1) lbCtxSot) /\
  (forall (ctx : LineContext) (graphemeState wordState sentenceState prop : Z),
     0 <= State ctx <= 255 -> 0 <= Flags ctx <= 255 ->
     0 <= graphemeState < 2 ^ 12 -> 0 <= wordState < 2 ^ 5 ->
     0 <= sentenceState < 2 ^ 4 -> 0 <= prop < 2 ^ 26 ->
     unpackLineContext
       (Z.land (Z.shiftr (packState graphemeState wordState sentenceState
                            (packLineContext ctx) prop) shiftLineState)
               maskLineState) = ctx).
Proof.
  intros ext. repeat split.
  - intros ctx Hs Hf. now apply unpack_pack.
  - intros packed Hneg. unfold unpackLineContext.
    destruct (Z.ltb_spec packed 0); [reflexivity | lia].
  - intros ctx gs ws ss prop Hs Hf Hg Hw Hss Hp.
    destruct (unpack_pack ctx Hs Hf) as [Hrange Hunpack].
    pose proof (packState_fields gs ws ss (packLineContext ctx) prop Hg Hw Hss Hrange Hp)
      as H.
    cbv zeta in H. destruct H as (_ & _ & _ & _ & -> & _). exact Hunpack.
Qed.

Lemma C10_line_context_roundtrip_witness :
  (0 <= lbcQUPiSP <= 255 /\ 0 <= Z.lor lbCtxSot lbCtxQUPiSP <= 255) /\
  -1 < 0 /\
  unpackLineContext
    (packLineContext (mkLineContext lbcQUPiSP (Z.lor lbCtxSot lbCtxQUPiSP)))
    = mkLineContext lbcQUPiSP (Z.lor lbCtxSot lbCtxQUPiSP) /\
  unpackLineContext (-1) = mkLineContext (-1) lbCtxSot.
Proof.
  assert (Hrange : 0 <= lbcQUPiSP <= 255 /\ 0 <= Z.lor lbCtxSot lbCtxQUPiSP <= 255)
    by (repeat split; vm_compute; discriminate).
  split; [exact Hrange |]. split; [lia |].
  destruct (C10_line_context_roundtrip sampleExternals) as (Hround & Hneg & _).
  split.
  - apply (Hround (mkLineContext lbcQUPiSP (Z.lor lbCtxSot lbCtxQUPiSP)));
      apply Hrange.
  - apply (Hneg (-1)). lia.
Defined.

(** * Further properties of the code *)

(** ** Binary search in the property tables *)

Section SearchFacts.
Context {E : Type} `{RangeEntry E}.
Variable dictionary : list E.
Variable r : rune.

Lemma propertySearchLoop_sound (fuel : nat) : forall (from to : nat) (e : E),
  (to <= length dictionary)%nat ->
  propertySearchLoop dictionary r fuel from to = Some e ->
  e = entryZero \/ (In e dictionary /\ entryLo e <= r <= entryHi e).
Proof.
  induction fuel as [|fuel IH]; intros from to e Hto; cbn [propertySearchLoop].
  - destruct (Nat.leb_spec to from); [intros [= <-]; now left | discriminate].
  - destruct (Nat.leb_spec to from) as [|Hlt]; [intros [= <-]; now left |].
    assert (Hmid : (from <= (from + to) / 2 < to)%nat).
    { split.
      - apply Nat.div_le_lower_bound; lia.
      - apply Nat.Div0.div_lt_upper_bound; lia. }
    destruct (Z.ltb_spec r (entryLo (nth ((from + to) / 2) dictionary entryZero))).
    + apply IH; lia.
    + destruct (Z.ltb_spec (entryHi (nth ((from + to) / 2) dictionary entryZero)) r).
      * apply IH; lia.
      * intros Heq. right.
        assert (He : nth ((from + to) / 2) dictionary entryZero = e) by congruence.
        rewrite <- He. split; [apply nth_In; lia | lia].
Qed.

Lemma sorted_nth (R : E -> E -> Prop) (l : list E) : forall (i j : nat),
  StronglySorted R l -> (i < j < length l)%nat ->
  R (nth i l entryZero) (nth j l entryZero).
Proof.
  induction l as [|a l IH]; intros i j Hsorted Hij; [cbn in Hij; lia |].
  apply StronglySorted_inv in Hsorted. destruct Hsorted as [Hl Ha].
  destruct j as [|j]; [lia |].
  destruct i as [|i]; cbn [nth].
  - rewrite Forall_forall in Ha. apply Ha. apply nth_In. cbn in Hij. lia.
  - apply IH; [exact Hl | cbn in Hij; lia].
Qed.

Lemma propertySearchLoop_complete (fuel : nat) : forall (from to k : nat),
  tableSorted dictionary ->
  (from <= k < to)%nat -> (to <= length dictionary)%nat -> (to - from <= fuel)%nat ->
  entryLo (nth k dictionary entryZero) <= r <= entryHi (nth k dictionary entryZero) ->
  propertySearchLoop dictionary r fuel from to = Some (nth k dictionary entryZero).
Proof.
  induction fuel as [|fuel IH]; intros from to k [Hwf Hsorted] Hk Hto Hfuel Hin;
    [lia |].
  cbn [propertySearchLoop].
  destruct (Nat.leb_spec to from) as [|Hlt]; [lia |].
  assert (Hmid : (from <= (from + to) / 2 < to)%nat).
  { split.
    - apply Nat.div_le_lower_bound; lia.
    - apply Nat.Div0.div_lt_upper_bound; lia. }
  set (middle := ((from + to) / 2)%nat) in *.
  assert (Hwfm : entryLo (nth middle dictionary entryZero)
                 <= entryHi (nth middle dictionary entryZero)).
  { rewrite Forall_forall in Hwf. apply Hwf. apply nth_In. lia. }
  assert (Hlt_km : (k < middle)%nat ->
            entryHi (nth k dictionary entryZero) < entryLo (nth middle dictionary entryZero))
    by (intros; apply (sorted_nth (fun e1 e2 => entryHi e1 < entryLo e2) dictionary
                         k middle Hsorted); lia).
  assert (Hlt_mk : (middle < k)%nat ->
            entryHi (nth middle dictionary entryZero) < entryLo (nth k dictionary entryZero))
    by (intros; apply (sorted_nth (fun e1 e2 => entryHi e1 < entryLo e2) dictionary
                         middle k Hsorted); lia).
  destruct (Z.ltb_spec r (entryLo (nth middle dictionary entryZero))) as [Hlow | Hlow].
  - apply IH; try (split; assumption); try lia.
    destruct (Nat.lt_trichotomy k middle) as [Hc | [Hc | Hc]]; [lia | subst k; lia |].
    specialize (Hlt_mk Hc). lia.
  - destruct (Z.ltb_spec (entryHi (nth middle dictionary entryZero)) r) as [Hhigh | Hhigh].
    + apply IH; try (split; assumption); try lia.
      destruct (Nat.lt_trichotomy k middle) as [Hc | [Hc | Hc]]; [| subst k; lia | lia].
      specialize (Hlt_km Hc). lia.
    + destruct (Nat.lt_trichotomy k middle) as [Hc | [Hc | Hc]].
      * specialize (Hlt_km Hc). lia.
      * now subst k.
      * specialize (Hlt_mk Hc). lia.
Qed.
End SearchFacts.

(** X1. Whatever the table, [propertySearch] returns the zero entry or a row
    of the table whose range contains the code point. *)
Theorem propertySearch_sound : forall (E : Type) (RE : RangeEntry E)
    (dictionary : list E) (r : rune),
  propertySearch dictionary r = entryZero \/
  (In (propertySearch dictionary r) dictionary /\
   entryLo (propertySearch dictionary r) <= r <= entryHi (propertySearch dictionary r)).
Proof.
  intros E RE dictionary r.
  apply (propertySearchLoop_sound dictionary r (length dictionary) 0 (length dictionary));
    [lia | apply propertySearch_returns].
Qed.

(** X2. In a table whose rows are in increasing order and do not overlap,
    [propertySearch] finds the row that contains the code point. *)
Theorem propertySearch_complete : forall (E : Type) (RE : RangeEntry E)
    (dictionary : list E) (r : rune) (e : E),
  tableSorted dictionary ->
  In e dictionary -> entryLo e <= r <= entryHi e ->
  propertySearch dictionary r = e.
Proof.
  intros E RE dictionary r e Hsorted Hin Hr.
  destruct (In_nth dictionary e entryZero Hin) as (k & Hk & <-).
  pose proof (propertySearchLoop_complete dictionary r (length dictionary) 0
                (length dictionary) k Hsorted ltac:(lia) ltac:(lia) ltac:(lia) Hr) as Hloop.
  rewrite propertySearch_returns in Hloop. now injection Hloop.
Qed.

Lemma sampleLineBreakCodePoints_sorted : tableSorted sampleLineBreakCodePoints.
Proof.
  split.
  - repeat constructor; cbn; lia.
  - repeat constructor; cbn; lia.
Qed.

Lemma propertySearch_complete_witness :
  tableSorted sampleLineBreakCodePoints /\
  In (0x2F, 0x2F, prSY, gcPo) sampleLineBreakCodePoints /\
  entryLo (0x2F, 0x2F, prSY, gcPo) <= 0x2F <= entryHi (0x2F, 0x2F, prSY, gcPo) /\
  propertySearch sampleLineBreakCodePoints 0x2F = (0x2F, 0x2F, prSY, gcPo).
Proof.
  assert (Hin : In (0x2F, 0x2F, prSY, gcPo) sampleLineBreakCodePoints)
    by (cbn; auto 10).
  assert (Hr : entryLo (0x2F, 0x2F, prSY, gcPo) <= 0x2F <= entryHi (0x2F, 0x2F, prSY, gcPo))
    by (cbn; lia).
  split; [exact sampleLineBreakCodePoints_sorted |].
  split; [exact Hin |]. split; [exact Hr |].
  apply (propertySearch_complete Entry4 RangeEntry4 sampleLineBreakCodePoints 0x2F
           (0x2F, 0x2F, prSY, gcPo) sampleLineBreakCodePoints_sorted Hin Hr).
Defined.

(** ** Grapheme cluster rules *)

Lemma byte_cases (P : Z -> bool) :
  forallb P byteValues = true -> forall x, 0 <= x < 256 -> P x = true.
Proof.
  intros Hall x Hx. rewrite forallb_forall in Hall. apply Hall.
  unfold byteValues. rewrite <- (Z2Nat.id x) by lia.
  apply in_map. apply in_seq. lia.
Qed.

Lemma land_byte_range (x : Z) : 0 <= Z.land x 0xFF < 256.
Proof.
  change 0xFF with (Z.ones 8). rewrite Z.land_ones by lia.
  apply Z.mod_pos_bound. lia.
Qed.

Lemma grTiered_state (state prop : Z) : 0 <= fst (grTiered state prop) <= 10.
Proof.
  unfold grTiered.
  pose proof (grTransitions_state state prop) as H1.
  pose proof (grTransitions_state state prAny) as H2.
  pose proof (grTransitions_state grAny prop) as H3.
  destruct (grTransitions state prop) as [[n1 p1] r1].
  destruct (grTransitions state prAny) as [[n2 p2] r2].
  destruct (grTransitions grAny prop) as [[n3 p3] r3].
  cbn [fst snd] in H1, H2, H3.
  destruct (Z.leb_spec 0 n1); [cbn [fst]; lia |].
  destruct (Z.leb_spec 0 n2), (Z.leb_spec 0 n3); cbn [andb fst]; unfold grAny; lia.
Qed.

Section GraphemeRules.
Context {ext : Externals}.

(** [transitionGraphemeState] is the tiered look-up followed by the GB9c pass. *)
Lemma transitionGraphemeState_tiered (state : Z) (r : rune) :
  transitionGraphemeState state r =
    let prop := propertyGraphemes r in
    let incbState := Z.land state grInCBMask in
    let incbProp := propertyInCB r in
    let base := grTiered (Z.land state 0xFF) prop in
    if incbProp =? prInCBConsonant then
      (Z.lor (fst base) grInCBConsonant, prop,
       if incbState =? grInCBLinker then false else snd base)
    else if incbProp =? prInCBLinker then
      if (incbState =? grInCBConsonant) || (incbState =? grInCBExtend)
         || (incbState =? grInCBLinker)
      then (Z.lor (fst base) grInCBLinker, prop, snd base)
      else (fst base, prop, snd base)
    else if incbProp =? prInCBExtend then
      if incbState =? grInCBConsonant then (Z.lor (fst base) grInCBExtend, prop, snd base)
      else if incbState =? grInCBExtend then (Z.lor (fst base) grInCBExtend, prop, snd base)
      else if incbState =? grInCBLinker then (Z.lor (fst base) grInCBLinker, prop, snd base)
      else (fst base, prop, snd base)
    else (fst base, prop, snd base).
Proof.
  unfold transitionGraphemeState, grTiered. cbv zeta.
  destruct (grTransitions (Z.land state 255) (propertyGraphemes r)) as [[n1 p1] r1].
  destruct (grTransitions (Z.land state 255) prAny) as [[n2 p2] r2].
  destruct (grTransitions grAny (propertyGraphemes r)) as [[n3 p3] r3].
  destruct (0 <=? n1); [reflexivity |].
  destruct (0 <=? n2), (0 <=? n3); reflexivity.
Qed.
End GraphemeRules.

(** X3. The state that [transitionGraphemeState] returns is one of the eleven
    base states, possibly with one of the three InCB sub-states in bits 8 and
    9; so it fits the 12 bits that [Step] keeps for it. *)
Theorem transitionGraphemeState_state_range : forall (ext : Externals) (state : Z)
    (r : rune),
  let newState := fst (fst (transitionGraphemeState state r)) in
  0 <= Z.land newState 0xFF <= 10 /\
  In (Z.land newState grInCBMask) [grInCBNone; grInCBConsonant; grInCBExtend; grInCBLinker] /\
  Z.land newState maskGraphemeState = newState.
Proof.
  intros ext state r. cbv zeta. rewrite transitionGraphemeState_tiered. cbv zeta.
  pose proof (grTiered_state (Z.land state 255) (propertyGraphemes r)) as Hbase.
  remember (fst (grTiered (Z.land state 255) (propertyGraphemes r))) as base eqn:Eb.
  clear Eb.
  assert (Hcases : In base [0; 1; 2; 3; 4; 5; 6; 7; 8; 9; 10]) by (cbn; lia).
  cbn [In] in Hcases.
  repeat match goal with
         | |- context [if ?c then _ else _] => destruct c
         end;
    cbn [fst snd];
    repeat (destruct Hcases as [<- | Hcases]); try contradiction;
    vm_compute; intuition congruence.
Qed.

Section GraphemeBoundaries.
Context {ext : Externals}.

Lemma propertyGraphemes_control (r : rune) :
  0 <= r <= 0x1f \/ r = 0x7f ->
  propertyGraphemes r =
    if r =? 0x0a then prLF else if r =? 0x0d then prCR else prControl.
Proof.
  intros Hr. unfold propertyGraphemes.
  destruct (Z.leb_spec 32 r), (Z.leb_spec r 126); cbn [andb]; try lia;
    destruct (r =? 10), (r =? 13); try reflexivity;
    destruct (Z.leb_spec 0 r), (Z.leb_spec r 31), (Z.eqb_spec r 127);
    cbn [andb orb]; try reflexivity; lia.
Qed.

(** Without an InCB property the GB9c pass changes nothing. *)
Lemma transitionGraphemeState_no_incb (state : Z) (r : rune) :
  propertyInCB r = prInCBNone ->
  transitionGraphemeState state r =
    (fst (grTiered (Z.land state 0xFF) (propertyGraphemes r)), propertyGraphemes r,
     snd (grTiered (Z.land state 0xFF) (propertyGraphemes r))).
Proof.
  intros Hincb. rewrite transitionGraphemeState_tiered. cbv zeta. now rewrite Hincb.
Qed.
End GraphemeBoundaries.

(** X4. GB3 and GB5 on ASCII: before a control character (CR and LF
    included) there is always a cluster boundary, whatever the state, except
    between CR and LF. *)
Theorem grapheme_break_before_control : forall (ext : Externals) (state : Z)
    (r : rune),
  0 <= r <= 0x1f \/ r = 0x7f ->
  snd (transitionGraphemeState state r)
    = negb ((Z.land state 0xFF =? grCR) && (r =? 0x0a)).
Proof.
  intros ext state r Hr.
  rewrite transitionGraphemeState_no_incb by (apply propertyInCB_low; lia).
  cbn [snd]. rewrite (propertyGraphemes_control r Hr).
  pose proof (land_byte_range state) as Hbase.
  revert Hbase. generalize (Z.land state 255). intros base Hbase.
  destruct (r =? 10); [| destruct (r =? 13)].
  - apply Bool.eqb_prop.
    apply (byte_cases (fun b => Bool.eqb (snd (grTiered b prLF))
                                   (negb ((b =? grCR) && true)))); [| exact Hbase].
    vm_compute. reflexivity.
  - apply Bool.eqb_prop.
    apply (byte_cases (fun b => Bool.eqb (snd (grTiered b prCR))
                                   (negb ((b =? grCR) && false)))); [| exact Hbase].
    vm_compute. reflexivity.
  - apply Bool.eqb_prop.
    apply (byte_cases (fun b => Bool.eqb (snd (grTiered b prControl))
                                   (negb ((b =? grCR) && false)))); [| exact Hbase].
    vm_compute. reflexivity.
Qed.

Lemma grapheme_break_before_control_witness :
  (0 <= 0x0a <= 0x1f \/ 0x0a = 0x7f) /\
  snd (@transitionGraphemeState sampleExternals grCR 0x0a)
    = negb ((Z.land grCR 0xFF =? grCR) && (0x0a =? 0x0a)).
Proof.
  split; [left; lia |].
  apply (grapheme_break_before_control sampleExternals grCR 0x0a). left. lia.
Defined.

(** X5. GB4: after CR, LF or a control character (base state [grCR] or
    [grControlLF]) there is a cluster boundary before every code point that
    has a grapheme property of the table and is not an InCB consonant, except
    between CR and LF. *)
Theorem grapheme_break_after_control : forall (ext : Externals) (state : Z)
    (r : rune),
  Z.land state 0xFF = grCR \/ Z.land state 0xFF = grControlLF ->
  0 <= propertyGraphemes r <= 15 ->
  propertyInCB r <> prInCBConsonant ->
  snd (transitionGraphemeState state r)
    = negb ((Z.land state 0xFF =? grCR) && (propertyGraphemes r =? prLF)).
Proof.
  intros ext state r Hstate Hprop Hincb.
  rewrite transitionGraphemeState_tiered. cbv zeta.
  destruct (Z.eqb_spec (propertyInCB r) prInCBConsonant) as [Heq | _]; [contradiction |].
  assert (Hsnd : forall (A B : Type) (c : bool) (x y : A * B * bool),
            snd x = snd y -> snd (if c then x else y) = snd x)
    by (intros A B [] x y Hxy; congruence).
  assert (Hgoal : snd (grTiered (Z.land state 255) (propertyGraphemes r))
                  = negb ((Z.land state 255 =? grCR) && (propertyGraphemes r =? prLF))).
  { remember (propertyGraphemes r) as p eqn:Ep. clear Ep.
    assert (Hcases : In p [0; 1; 2; 3; 4; 5; 6; 7; 8; 9; 10; 11; 12; 13; 14; 15])
      by (cbn; lia).
    cbn [In] in Hcases.
    destruct Hstate as [-> | ->];
      repeat (destruct Hcases as [<- | Hcases]); try contradiction;
      vm_compute; reflexivity. }
  rewrite <- Hgoal.
  repeat match goal with
         | |- context [if ?c then _ else _] => destruct c
         end; reflexivity.
Qed.

Lemma grapheme_break_after_control_witness :
  (Z.land grControlLF 0xFF = grCR \/ Z.land grControlLF 0xFF = grControlLF) /\
  0 <= @propertyGraphemes sampleExternals 0x61 <= 15 /\
  @propertyInCB sampleExternals 0x61 <> prInCBConsonant /\
  snd (@transitionGraphemeState sampleExternals grControlLF 0x61)
    = negb ((Z.land grControlLF 0xFF =? grCR)
            && (@propertyGraphemes sampleExternals 0x61 =? prLF)).
Proof.
  assert (H1 : Z.land grControlLF 0xFF = grCR \/ Z.land grControlLF 0xFF = grControlLF)
    by (right; reflexivity).
  assert (H2 : 0 <= @propertyGraphemes sampleExternals 0x61 <= 15)
    by (vm_compute; split; discriminate).
  assert (H3 : @propertyInCB sampleExternals 0x61 <> prInCBConsonant)
    by (vm_compute; discriminate).
  split; [exact H1 |]. split; [exact H2 |]. split; [exact H3 |].
  apply (grapheme_break_after_control sampleExternals grControlLF 0x61 H1 H2 H3).
Defined.

(** X6. GB9 and GB9a: before Extend, ZWJ and SpacingMark there is no cluster
    boundary, unless the previous code point was CR, LF or a control
    character. *)
Theorem grapheme_no_break_before_extend : forall (ext : Externals) (state : Z)
    (r : rune),
  Z.land state 0xFF <> grCR -> Z.land state 0xFF <> grControlLF ->
  In (propertyGraphemes r) [prExtend; prZWJ; prSpacingMark] ->
  snd (transitionGraphemeState state r) = false.
Proof.
  intros ext state r Hcr Hlf Hprop.
  rewrite transitionGraphemeState_tiered. cbv zeta.
  assert (Hbase : snd (grTiered (Z.land state 255) (propertyGraphemes r)) = false).
  { pose proof (land_byte_range state) as Hrange.
    revert Hcr Hlf Hrange. generalize (Z.land state 255). intros base Hcr Hlf Hrange.
    cbn [In] in Hprop.
    assert (Hall : forall p, In p [prExtend; prZWJ; prSpacingMark] ->
              (base =? grCR) || (base =? grControlLF) || negb (snd (grTiered base p))
              = true).
    { intros p Hp.
      apply (byte_cases (fun b => (b =? grCR) || (b =? grControlLF)
                                  || negb (snd (grTiered b p)))); [| exact Hrange].
      cbn [In] in Hp.
      repeat (destruct Hp as [<- | Hp]); try contradiction; vm_compute; reflexivity. }
    specialize (Hall (propertyGraphemes r) Hprop).
    destruct (Z.eqb_spec base grCR); [contradiction |].
    destruct (Z.eqb_spec base grControlLF); [contradiction |].
    cbn [orb] in Hall. now apply negb_true_iff in Hall. }
  rewrite Hbase.
  repeat match goal with
         | |- context [if ?c then _ else _] => destruct c
         end; reflexivity.
Qed.

Lemma grapheme_no_break_before_extend_witness :
  Z.land grAny 0xFF <> grCR /\ Z.land grAny 0xFF <> grControlLF /\
  In (@propertyGraphemes sampleExternals 0x0301) [prExtend; prZWJ; prSpacingMark] /\
  snd (@transitionGraphemeState sampleExternals grAny 0x0301) = false.
Proof.
  assert (H1 : Z.land grAny 0xFF <> grCR) by (vm_compute; discriminate).
  assert (H2 : Z.land grAny 0xFF <> grControlLF) by (vm_compute; discriminate).
  assert (H3 : In (@propertyGraphemes sampleExternals 0x0301)
                 [prExtend; prZWJ; prSpacingMark]) by (left; reflexivity).
  split; [exact H1 |]. split; [exact H2 |]. split; [exact H3 |].
  apply (grapheme_no_break_before_extend sampleExternals grAny 0x0301 H1 H2 H3).
Defined.

(** X7. GB9b and GB999 on printable ASCII: a printable ASCII character
    (U+0020..U+007E) always leads to the base state [grAny] and starts a new
    cluster, except directly after a Prepend character. *)
Theorem grapheme_printable_ascii : forall (ext : Externals) (state : Z) (r : rune),
  0x20 <= r <= 0x7e ->
  transitionGraphemeState state r
    = (grAny, prAny, negb (Z.land state 0xFF =? grPrepend)).
Proof.
  intros ext state r Hr.
  rewrite transitionGraphemeState_no_incb by (apply propertyInCB_low; lia).
  rewrite propertyGraphemes_ascii by lia.
  pose proof (land_byte_range state) as Hbase.
  revert Hbase. generalize (Z.land state 255). intros base Hbase.
  assert (H : (fst (grTiered base prAny) =? grAny)
              && Bool.eqb (snd (grTiered base prAny)) (negb (base =? grPrepend)) = true).
  { apply (byte_cases (fun b => (fst (grTiered b prAny) =? grAny)
                                && Bool.eqb (snd (grTiered b prAny))
                                            (negb (b =? grPrepend)))); [| exact Hbase].
    vm_compute. reflexivity. }
  apply andb_prop in H. destruct H as [H1 H2].
  apply Z.eqb_eq in H1. apply Bool.eqb_prop in H2. now rewrite H1, H2.
Qed.

Lemma grapheme_printable_ascii_witness :
  0x20 <= 0x61 <= 0x7e /\
  @transitionGraphemeState sampleExternals grPrepend 0x61
    = (grAny, prAny, negb (Z.land grPrepend 0xFF =? grPrepend)).
Proof.
  split; [lia |].
  apply (grapheme_printable_ascii sampleExternals grPrepend 0x61). lia.
Defined.

(** ** The context machine: ranges kept by a transition *)

Lemma byte_land (x : Z) : 0 <= x <= 255 <-> Z.land x 255 = x.
Proof.
  change 255 with (Z.ones 8) at 2. rewrite Z.land_ones by lia. split.
  - intros Hx. apply Z.mod_small. lia.
  - intros Hx. rewrite <- Hx. pose proof (Z.mod_pos_bound x (2 ^ 8) ltac:(lia)). lia.
Qed.

Lemma byte_lor (x y : Z) : 0 <= x <= 255 -> 0 <= y <= 255 -> 0 <= Z.lor x y <= 255.
Proof.
  rewrite !byte_land. intros Hx Hy. now rewrite Z.land_lor_distr_l, Hx, Hy.
Qed.

Lemma byte_andnot (x y : Z) : 0 <= x <= 255 -> 0 <= andnot x y <= 255.
Proof.
  rewrite !byte_land. intros Hx. unfold andnot.
  rewrite Z.ldiff_land, <- Z.land_assoc, (Z.land_comm (Z.lnot y)), Z.land_assoc.
  now rewrite Hx.
Qed.

Lemma propToState_range (prop : Z) : 0 <= propToState prop <= 61.
Proof.
  unfold propToState.
  repeat match goal with
         | |- context [if ?c then _ else _] => destruct c
         end; vm_compute; split; discriminate.
Qed.

Lemma applyLB25_range (ctx : LineContext) (prop : Z) :
  applyLB25 ctx prop = -1 \/ applyLB25 ctx prop = LineDontBreak.
Proof.
  unfold applyLB25.
  repeat match goal with
         | |- context [if ?c then _ else _] => destruct c
         end; auto.
Qed.

Lemma applyLB28a_range (ctx : LineContext) (prop : Z) (isDottedCircle : bool) :
  applyLB28a ctx prop isDottedCircle = -1 \/
  applyLB28a ctx prop isDottedCircle = LineDontBreak.
Proof.
  unfold applyLB28a.
  repeat match goal with
         | |- context [if ?c then _ else _] => destruct c
         end; auto.
Qed.

Lemma contextInRange_mk (state flags : Z) :
  0 <= state <= 255 -> 0 <= flags <= 255 -> contextInRange (mkLineContext state flags).
Proof. intros Hs Hf. split; assumption. Qed.

Lemma setFlag_range (ctx : LineContext) (flag : Z) :
  contextInRange ctx -> 0 <= flag <= 255 -> contextInRange (setFlag ctx flag).
Proof. intros [Hs Hf] Hflag. split; [exact Hs | now apply byte_lor]. Qed.

Lemma clearFlag_range (ctx : LineContext) (flag : Z) :
  contextInRange ctx -> contextInRange (clearFlag ctx flag).
Proof. intros [Hs Hf]. split; [exact Hs | now apply byte_andnot]. Qed.

Section ContextRanges.
Context {ext : Externals}.

Lemma nextContext_range (ctx : LineContext) (newState prop : Z) (r : rune)
    (genCat : Z) :
  contextInRange ctx -> 0 <= newState <= 255 ->
  contextInRange (nextContext ctx newState prop r genCat).
Proof.
  intros [Hs Hf] Hn. unfold nextContext. cbv zeta.
  split; cbn [State Flags]; [exact Hn |].
  repeat match goal with
         | |- context [if ?c then _ else _] => destruct c
         end;
    repeat first [apply byte_lor | apply byte_andnot | assumption
                 | (vm_compute; split; discriminate)].
Qed.

Lemma applyBreak_range (ctx : LineContext) (prop : Z) (r : rune) (genCat : Z)
    (breakType : Z) :
  contextInRange ctx ->
  contextInRange (fst (applyBreak ctx prop r genCat breakType)) /\
  snd (applyBreak ctx prop r genCat breakType) = breakType.
Proof.
  intros Hctx. unfold applyBreak. cbv zeta. cbn [fst snd]. split; [| reflexivity].
  pose proof (propToState_range prop) as Hp.
  destruct (nextContext_range ctx (propToState prop) prop r genCat Hctx ltac:(lia))
    as [Hs Hf].
  split; cbn [State Flags]; [exact Hs |].
  repeat apply byte_andnot. exact Hf.
Qed.
Lemma applyBreak_snd (ctx : LineContext) (prop : Z) (r : rune) (genCat : Z)
    (breakType : Z) :
  snd (applyBreak ctx prop r genCat breakType) = breakType.
Proof. reflexivity. Qed.
End ContextRanges.

(** Solves the range of one returned verdict and context. *)
Ltac context_leaf Hc :=
  cbn [fst snd];
  split;
  [ vm_compute; split; discriminate
  | let H := fresh "H" in
    intros H; specialize (Hc H);
    first
      [ apply applyBreak_range; exact Hc
      | repeat first
          [ assumption
          | apply setFlag_range
          | apply clearFlag_range
          | apply nextContext_range
          | apply contextInRange_mk
          | apply Hc
          | match goal with
            | |- 0 <= propToState ?p <= 255 =>
                pose proof (propToState_range p); lia
            end
          | (vm_compute; split; discriminate) ] ] ].

Section ContextInvariant.
Context {ext : Externals}.

Lemma transitionLineBreakContext_range (ctx : LineContext) (r : rune)
    (b : option bytes) (str : bytes) :
  0 <= snd (transitionLineBreakContext ctx r b str) <= 2 /\
  (State ctx < 0 \/ contextInRange ctx ->
   contextInRange (fst (transitionLineBreakContext ctx r b str))).
Proof.
  unfold transitionLineBreakContext.
  destruct (propertyLineBreak r) as [p0 genCat].
  cbv beta iota zeta.
  generalize (if (p0 =? prAI) || (p0 =? prSG) || (p0 =? prXX) then prAL
              else if p0 =? prSA
                   then if (genCat =? gcMn) || (genCat =? gcMc) then prCM else prAL
                   else if p0 =? prCJ then prNS else p0).
  intros prop.
  assert (Hc : State ctx < 0 \/ contextInRange ctx ->
               contextInRange
                 (if State ctx <? 0 then mkLineContext lbcAny lbCtxSot else ctx)).
  { intros Hctx. destruct (Z.ltb_spec (State ctx) 0) as [Hneg | Hpos].
    - split; vm_compute; split; discriminate.
    - destruct Hctx as [Hneg | Hctx]; [lia | exact Hctx]. }
  revert Hc.
  generalize (if State ctx <? 0 then mkLineContext lbcAny lbCtxSot else ctx).
  intros c Hc.
  destruct (r =? 9676);
    match goal with
    | |- context [applyLB28a c prop ?d] =>
        destruct (applyLB28a_range c prop d) as [-> | ->]
    end;
    destruct (applyLB25_range c prop) as [-> | ->];
    change (negb (-1 =? -1)) with false;
    change (negb (LineDontBreak =? -1)) with true;
    cbv iota;
    repeat match goal with
           | |- context [if ?c then _ else _] => destruct c
           end.
  all: context_leaf Hc.
Qed.
End ContextInvariant.

(** X8. Every transition of the context machine reports one of the three
    verdicts LineDontBreak, LineCanBreak, LineMustBreak, whatever the context,
    the code point and the tables. *)
Theorem line_context_verdict_range : forall (ext : Externals) (ctx : LineContext)
    (r : rune) (b : option bytes) (str : bytes),
  In (snd (transitionLineBreakContext ctx r b str))
     [LineDontBreak; LineCanBreak; LineMustBreak].
Proof.
  intros ext ctx r b str.
  destruct (transitionLineBreakContext_range ctx r b str) as [Hv _].
  unfold LineDontBreak, LineCanBreak, LineMustBreak. cbn [In]. lia.
Qed.

(** X9. For every state token (negative or not) the wrapper
    [transitionLineBreakStateContext] returns a token in 0..65535, so it fits
    the 16 bits of the line field of the [Step] state, and the token unpacks
    to exactly the context that [transitionLineBreakContext] returned: packing
    loses nothing across a transition. *)
Theorem line_state_token_invariant : forall (ext : Externals) (state : Z) (r : rune)
    (b : option bytes) (str : bytes),
  0 <= fst (transitionLineBreakStateContext state r b str) < 2 ^ 16 /\
  unpackLineContext (fst (transitionLineBreakStateContext state r b str))
    = fst (transitionLineBreakContext (unpackLineContext state) r b str) /\
  0 <= snd (transitionLineBreakStateContext state r b str) <= 2.
Proof.
  intros ext state r b str. unfold transitionLineBreakStateContext. cbv zeta.
  cbn [fst snd].
  destruct (transitionLineBreakContext_range (unpackLineContext state) r b str)
    as [Hv Hctx].
  assert (Hin : State (unpackLineContext state) < 0 \/
                contextInRange (unpackLineContext state)).
  { unfold unpackLineContext. destruct (Z.ltb_spec state 0).
    - left. cbn. lia.
    - right. split; cbn [State Flags].
      + pose proof (land_byte_range state). lia.
      + pose proof (land_byte_range (Z.shiftr state 8)). lia. }
  destruct (Hctx Hin) as [Hs Hf].
  destruct (unpack_pack _ Hs Hf) as [Hrange Hunpack].
  auto.
Qed.

(** ** The context machine: rules of UAX #14 *)

Lemma LB1_keeps_LF (p0 genCat : Z) :
  ((if (p0 =? prAI) || (p0 =? prSG) || (p0 =? prXX) then prAL
    else if p0 =? prSA
         then if (genCat =? gcMn) || (genCat =? gcMc) then prCM else prAL
         else if p0 =? prCJ then prNS else p0) =? prLF) = (p0 =? prLF).
Proof.
  destruct (Z.eqb_spec p0 prAI) as [-> | ?]; [reflexivity |].
  destruct (Z.eqb_spec p0 prSG) as [-> | ?]; [reflexivity |].
  destruct (Z.eqb_spec p0 prXX) as [-> | ?]; [reflexivity |].
  destruct (Z.eqb_spec p0 prSA) as [-> | ?];
    [destruct ((genCat =? gcMn) || (genCat =? gcMc)); reflexivity |].
  destruct (Z.eqb_spec p0 prCJ) as [-> | ?]; reflexivity.
Qed.

(** X10. LB4 and LB5: after BK, LF and NL the context machine always reports
    LineMustBreak; after CR it reports LineMustBreak unless the next code
    point is LF, for which it reports LineDontBreak. *)
Theorem line_context_mandatory_break : forall (ext : Externals) (ctx : LineContext)
    (r : rune) (b : option bytes) (str : bytes),
  In (State ctx) [lbcBK; lbcCR; lbcLF; lbcNL] ->
  snd (transitionLineBreakContext ctx r b str)
    = if (State ctx =? lbcCR) && (fst (propertyLineBreak r) =? prLF)
      then LineDontBreak else LineMustBreak.
Proof.
  intros ext [st fl] r b str Hst. cbn [State] in *.
  unfold transitionLineBreakContext.
  destruct (propertyLineBreak r) as [p0 genCat]. cbn [fst].
  rewrite <- (LB1_keeps_LF p0 genCat).
  cbv beta iota zeta.
  generalize (if (p0 =? prAI) || (p0 =? prSG) || (p0 =? prXX) then prAL
              else if p0 =? prSA
                   then if (genCat =? gcMn) || (genCat =? gcMc) then prCM else prAL
                   else if p0 =? prCJ then prNS else p0).
  intros prop.
  cbn [In] in Hst.
  destruct (Z.eqb_spec prop prLF) as [-> | Hlf].
  - destruct Hst as [<- | [<- | [<- | [<- | []]]]]; vm_compute; reflexivity.
  - apply Z.eqb_neq in Hlf.
    destruct Hst as [<- | [<- | [<- | [<- | []]]]];
      destruct ((prop =? prCM) || (prop =? prZWJ));
      rewrite ?Hlf; vm_compute; reflexivity.
Qed.

Lemma line_context_mandatory_break_witness :
  In (State (mkLineContext lbcLF 0)) [lbcBK; lbcCR; lbcLF; lbcNL] /\
  snd (@transitionLineBreakContext sampleExternals (mkLineContext lbcLF 0) 0x61 None [])
    = if (State (mkLineContext lbcLF 0) =? lbcCR)
         && (fst (@propertyLineBreak sampleExternals 0x61) =? prLF)
      then LineDontBreak else LineMustBreak.
Proof.
  assert (H : In (State (mkLineContext lbcLF 0)) [lbcBK; lbcCR; lbcLF; lbcNL])
    by (cbn; auto).
  split; [exact H |].
  apply (line_context_mandatory_break sampleExternals (mkLineContext lbcLF 0) 0x61
           None [] H).
Defined.

(** X11. LB6 and LB7: unless the previous code point was BK, CR, LF or NL, the
    context machine never allows a break before BK, CR, LF, NL, SP or ZW. *)
Theorem line_context_no_break_before_space : forall (ext : Externals)
    (ctx : LineContext) (r : rune) (b : option bytes) (str : bytes),
  ~ In (State ctx) [lbcBK; lbcCR; lbcLF; lbcNL] ->
  In (fst (propertyLineBreak r)) [prBK; prCR; prLF; prNL; prSP; prZW] ->
  snd (transitionLineBreakContext ctx r b str) = LineDontBreak.
Proof.
  intros ext [st fl] r b str Hst Hprop. cbn [State] in *.
  unfold transitionLineBreakContext.
  destruct (propertyLineBreak r) as [p0 genCat]. cbn [fst In] in *.
  assert (Hbk : st <> lbcBK) by (intros ->; apply Hst; auto).
  assert (Hcr : st <> lbcCR) by (intros ->; apply Hst; auto).
  assert (Hlf : st <> lbcLF) by (intros ->; apply Hst; auto).
  assert (Hnl : st <> lbcNL) by (intros ->; apply Hst; auto).
  clear Hst.
  cbv beta iota zeta. cbn [State Flags].
  destruct (Z.ltb_spec st 0) as [Hneg | Hpos].
  - destruct Hprop as [<- | [<- | [<- | [<- | [<- | [<- | []]]]]]];
      vm_compute; reflexivity.
  - cbn [State Flags].
    destruct (Z.eqb_spec st lbcBK); [contradiction |].
    destruct (Z.eqb_spec st lbcCR); [contradiction |].
    destruct (Z.eqb_spec st lbcLF); [contradiction |].
    destruct (Z.eqb_spec st lbcNL); [contradiction |].
    destruct Hprop as [<- | [<- | [<- | [<- | [<- | [<- | []]]]]]];
      vm_compute; reflexivity.
Qed.

Lemma line_context_no_break_before_space_witness :
  ~ In (State (mkLineContext lbcAL 0)) [lbcBK; lbcCR; lbcLF; lbcNL] /\
  In (fst (@propertyLineBreak sampleExternals 0x20)) [prBK; prCR; prLF; prNL; prSP; prZW] /\
  snd (@transitionLineBreakContext sampleExternals (mkLineContext lbcAL 0) 0x20 None [])
    = LineDontBreak.
Proof.
  assert (H1 : ~ In (State (mkLineContext lbcAL 0)) [lbcBK; lbcCR; lbcLF; lbcNL])
    by (cbn; intros [H | [H | [H | [H | []]]]]; discriminate H).
  assert (H2 : In (fst (@propertyLineBreak sampleExternals 0x20))
                 [prBK; prCR; prLF; prNL; prSP; prZW])
    by (vm_compute; auto 10).
  split; [exact H1 |]. split; [exact H2 |].
  apply (line_context_no_break_before_space sampleExternals (mkLineContext lbcAL 0)
           0x20 None [] H1 H2).
Defined.

Lemma context_word_step (ext : Externals) (ctx : LineContext) (r : rune)
    (b : option bytes) (str : bytes) :
  In (State ctx) [lbcAL; lbcHL; lbcNU] ->
  In (fst (propertyLineBreak r)) [prAL; prHL; prNU] ->
  snd (transitionLineBreakContext ctx r b str) = LineDontBreak /\
  (r <> 0x25CC ->
   State (fst (transitionLineBreakContext ctx r b str))
     = propToState (fst (propertyLineBreak r))).
Proof.
  revert ctx. intros [st fl] Hst Hp. cbn [State] in Hst.
  unfold transitionLineBreakContext.
  destruct (propertyLineBreak r) as [p0 genCat]. cbn [fst In] in *.
  cbv beta iota zeta. cbn [State Flags].
  assert (Hleaf : forall v s s' : Z, v = LineDontBreak ->
            (r = 9676 \/ s = s') -> v = LineDontBreak /\ (r <> 9676 -> s = s'))
    by (intros v s s' Hv [Hs | Hs]; split; auto; intros Hne; contradiction).
  destruct (Z.eqb_spec r 9676) as [Hdc | Hdc];
    destruct Hst as [<- | [<- | [<- | []]]];
    destruct Hp as [<- | [<- | [<- | []]]];
    match goal with |- context [?s <? 0] => change (s <? 0) with false end;
    cbv iota; cbn [State Flags];
    apply Hleaf;
    try (left; exact Hdc);
    try right;
    (destruct (Z.land fl lbCtxAfterZWJ =? 0); [| vm_compute; reflexivity]);
    (destruct (Z.land fl lbCtxSot =? 0); [vm_compute; reflexivity |]);
    (destruct (Z.land fl lbCtxQUPiSP =? 0); vm_compute; reflexivity).
Qed.

(** X12. LB23, LB25 and LB28: after a letter or a digit (state [lbcAL],
    [lbcHL] or [lbcNU]) the context machine never allows a break before a code
    point of class AL, HL or NU, whatever the context flags; unless the code
    point is the dotted circle U+25CC, the new state is that of its class. *)
Theorem line_context_no_break_in_word : forall (ext : Externals) (ctx : LineContext)
    (r : rune) (b : option bytes) (str : bytes),
  In (State ctx) [lbcAL; lbcHL; lbcNU] ->
  In (fst (propertyLineBreak r)) [prAL; prHL; prNU] ->
  snd (transitionLineBreakContext ctx r b str) = LineDontBreak /\
  (r <> 0x25CC ->
   State (fst (transitionLineBreakContext ctx r b str))
     = propToState (fst (propertyLineBreak r))).
Proof. intros ext ctx r b str. apply context_word_step. Qed.

Lemma line_context_no_break_in_word_witness :
  In (State (mkLineContext lbcNU lbCtxAfterZWJ)) [lbcAL; lbcHL; lbcNU] /\
  In (fst (@propertyLineBreak sampleExternals 0x61)) [prAL; prHL; prNU] /\
  snd (@transitionLineBreakContext sampleExternals
         (mkLineContext lbcNU lbCtxAfterZWJ) 0x61 None []) = LineDontBreak /\
  (0x61 <> 0x25CC ->
   State (fst (@transitionLineBreakContext sampleExternals
                 (mkLineContext lbcNU lbCtxAfterZWJ) 0x61 None []))
     = propToState (fst (@propertyLineBreak sampleExternals 0x61))).
Proof.
  assert (H1 : In (State (mkLineContext lbcNU lbCtxAfterZWJ)) [lbcAL; lbcHL; lbcNU])
    by (cbn; auto).
  assert (H2 : In (fst (@propertyLineBreak sampleExternals 0x61)) [prAL; prHL; prNU])
    by (vm_compute; auto).
  split; [exact H1 |]. split; [exact H2 |].
  apply (line_context_no_break_in_word sampleExternals
           (mkLineContext lbcNU lbCtxAfterZWJ) 0x61 None [] H1 H2).
Defined.

(** ** The context machine on words, spaces and line feeds *)

Section ContextWords.
Context {ext : Externals}.

Lemma propertyLineBreak_alnum (r : rune) :
  isAlnum r = true ->
  In (fst (propertyLineBreak r)) [prAL; prNU] /\ propertyGraphemes r = prAny /\
  r <> 0x25CC.
Proof.
  intros Hr. pose proof (isAlnum_range r Hr) as Hrange.
  split; [| split; [apply propertyGraphemes_ascii; lia | lia]].
  unfold isAlnum, isLetter in Hr.
  destruct (isLower r) eqn:Hl; [rewrite (propertyLineBreak_lower r Hl); cbn; auto |].
  destruct (isUpper r) eqn:Hu; [rewrite (propertyLineBreak_upper r Hu); cbn; auto |].
  cbn in Hr. rewrite (propertyLineBreak_digit r Hr). cbn; auto.
Qed.

Lemma context_alnum_step (ctx : LineContext) (r : rune) (b : option bytes) (str : bytes) :
  In (State ctx) [lbcAL; lbcHL; lbcNU] ->
  isAlnum r = true ->
  snd (transitionLineBreakContext ctx r b str) = LineDontBreak /\
  In (State (fst (transitionLineBreakContext ctx r b str))) [lbcAL; lbcHL; lbcNU].
Proof.
  intros Hst Hr.
  destruct (propertyLineBreak_alnum r Hr) as (Hp & _ & Hdc).
  assert (Hp' : In (fst (propertyLineBreak r)) [prAL; prHL; prNU])
    by (cbn [In] in *; tauto).
  destruct (context_word_step ext ctx r b str Hst Hp') as [Hv Hs].
  split; [exact Hv |]. rewrite (Hs Hdc).
  destruct Hp as [<- | [<- | []]]; vm_compute; auto.
Qed.

Lemma context_alnum_initial (ctx : LineContext) (r : rune) (b : option bytes)
    (str : bytes) :
  State ctx < 0 ->
  isAlnum r = true ->
  In (State (fst (transitionLineBreakContext ctx r b str))) [lbcAL; lbcHL; lbcNU].
Proof.
  destruct ctx as [st fl]. cbn [State]. intros Hst Hr.
  destruct (propertyLineBreak_alnum r Hr) as (Hp & Hg & Hdc).
  unfold transitionLineBreakContext.
  revert Hg. generalize (propertyGraphemes r). intros g ->.
  destruct (propertyLineBreak r) as [p0 genCat]. cbn [fst In] in *.
  cbv beta iota zeta. cbn [State Flags].
  apply Z.ltb_lt in Hst. rewrite Hst. apply Z.eqb_neq in Hdc. rewrite Hdc.
  destruct Hp as [<- | [<- | []]]; vm_compute; auto.
Qed.

Lemma land_andnot_same (x f : Z) : Z.land (andnot x f) f = 0.
Proof.
  unfold andnot. apply Z.bits_inj'. intros n Hn.
  rewrite Z.land_spec, Z.ldiff_spec, Z.bits_0.
  destruct (Z.testbit x n), (Z.testbit f n); reflexivity.
Qed.

Lemma context_space_step (ctx : LineContext) (r : rune) (b : option bytes) (str : bytes) :
  In (State ctx) [lbcAL; lbcHL; lbcNU] ->
  fst (propertyLineBreak r) = prSP ->
  snd (transitionLineBreakContext ctx r b str) = LineDontBreak /\
  State (fst (transitionLineBreakContext ctx r b str)) = lbcSP /\
  Z.land (Flags (fst (transitionLineBreakContext ctx r b str))) lbCtxAfterZWJ = 0.
Proof.
  destruct ctx as [st fl]. cbn [State]. intros Hst Hp.
  unfold transitionLineBreakContext.
  destruct (propertyLineBreak r) as [p0 genCat]. cbn [fst In] in *. subst p0.
  cbv beta iota zeta. cbn [State Flags].
  destruct Hst as [<- | [<- | [<- | []]]];
    match goal with |- context [?s <? 0] => change (s <? 0) with false end;
    cbv iota; cbn [State Flags];
    match goal with
    | |- snd ?t = _ /\ _ =>
        let t' := eval lazy beta iota delta -[nextContext clearFlag] in t in
        change t with t'
    end;
    cbn [fst snd clearFlag State Flags];
    (split; [reflexivity | split; [reflexivity | apply land_andnot_same]]).
Qed.

Lemma context_after_space (ctx : LineContext) (r : rune) (b : option bytes)
    (str : bytes) :
  State ctx = lbcSP ->
  Z.land (Flags ctx) lbCtxAfterZWJ = 0 ->
  isAlnum r = true ->
  snd (transitionLineBreakContext ctx r b str) = LineCanBreak /\
  In (State (fst (transitionLineBreakContext ctx r b str))) [lbcAL; lbcHL; lbcNU].
Proof.
  destruct ctx as [st fl]. cbn [State Flags]. intros -> Hfl Hr.
  destruct (propertyLineBreak_alnum r Hr) as (Hp & _ & _).
  unfold transitionLineBreakContext.
  destruct (propertyLineBreak r) as [p0 genCat]. cbn [fst In] in *.
  cbv beta iota zeta. cbn [State Flags].
  change (lbcSP <? 0) with false; cbv iota; cbn [State Flags].
  rewrite Hfl.
  destruct Hp as [<- | [<- | []]];
    (destruct (Z.land fl lbCtxSot =? 0); [vm_compute; auto |]);
    (destruct (Z.land fl lbCtxQUPiSP =? 0); vm_compute; auto).
Qed.

Lemma context_word_entry (ctx : LineContext) (r : rune) (b : option bytes)
    (str : bytes) :
  wordEntry ctx ->
  isAlnum r = true ->
  In (State (fst (transitionLineBreakContext ctx r b str))) [lbcAL; lbcHL; lbcNU].
Proof.
  intros [Hneg | [Hword | [Hsp Hfl]]] Hr.
  - now apply context_alnum_initial.
  - now apply context_alnum_step.
  - now apply context_after_space.
Qed.


End ContextWords.

(** ** The shape of what [FirstLineSegmentContext] returns *)

Section FirstLineSegmentShape.
Context {ext : Externals}.

Lemma firstLineSegmentContextLoop_unfold (fuel : nat) (b : bytes) (length : nat)
    (ctx : LineContext) :
  firstLineSegmentContextLoop fuel b length ctx =
  let dr := utf8.DecodeRune (skipn length b) in
  let t := transitionLineBreakContext ctx (fst dr) (Some (skipn (length + snd dr) b)) [] in
  if negb (snd t =? LineDontBreak) then
    Some (mkLineSegment (firstn length b) (skipn length b) (snd t) (packLineContext ctx))
  else if len b <=? Z.of_nat (length + snd dr) then
    Some (mkLineSegment b [] LineMustBreak (packLineContext (fst t)))
  else
    match fuel with
    | O => None
    | S fuel' => firstLineSegmentContextLoop fuel' b (length + snd dr) (fst t)
    end.
Proof. destruct fuel; reflexivity. Qed.

Lemma packLineContext_token (ctx : LineContext) :
  contextInRange ctx ->
  0 <= packLineContext ctx < 2 ^ 16 /\
  packLineContext (unpackLineContext (packLineContext ctx)) = packLineContext ctx.
Proof.
  intros [Hs Hf]. destruct (unpack_pack ctx Hs Hf) as [Hrange Hunpack].
  split; [exact Hrange | now rewrite Hunpack].
Qed.

Lemma lineSegmentOf_break (b : bytes) (n : nat) (v : Z) (ctx : LineContext) :
  (1 <= n < length b)%nat ->
  0 <= v <= 2 -> v <> LineDontBreak ->
  contextInRange ctx ->
  lineSegmentOf b (mkLineSegment (firstn n b) (skipn n b) v (packLineContext ctx)).
Proof.
  intros Hn Hv Hbreak Hctx.
  unfold lineSegmentOf; cbn [segment segmentRest breakType segmentState].
  split; [apply firstn_skipn |].
  split.
  { intros Hnil. apply (f_equal (@List.length byte)) in Hnil.
    rewrite length_firstn in Hnil. cbn in Hnil. lia. }
  split.
  { intros Hnil. exfalso. revert Hnil. apply skipn_nonempty. lia. }
  split.
  { intros _. unfold LineDontBreak, LineCanBreak, LineMustBreak in *. lia. }
  apply packLineContext_token, Hctx.
Qed.

Lemma lineSegmentOf_end (b : bytes) (ctx : LineContext) :
  b <> [] ->
  contextInRange ctx ->
  lineSegmentOf b (mkLineSegment b [] LineMustBreak (packLineContext ctx)).
Proof.
  intros Hb Hctx.
  unfold lineSegmentOf; cbn [segment segmentRest breakType segmentState].
  split; [apply app_nil_r |].
  split; [exact Hb |].
  split; [reflexivity |].
  split; [intros Hne; contradiction |].
  apply packLineContext_token, Hctx.
Qed.

Lemma firstLineSegmentContextLoop_spec (fuel : nat) : forall (b : bytes) (length : nat)
    (ctx : LineContext),
  (1 <= length < List.length b)%nat ->
  (List.length b <= length + fuel + 1)%nat ->
  contextInRange ctx ->
  exists res,
    firstLineSegmentContextLoop fuel b length ctx = Some res /\ lineSegmentOf b res.
Proof.
  induction fuel as [|fuel IH]; intros b n ctx Hn Hfuel Hctx;
    rewrite firstLineSegmentContextLoop_unfold; cbv zeta;
    pose proof (DecodeRune_size (skipn n b) (skipn_nonempty b n ltac:(lia))) as Hsz;
    rewrite length_skipn in Hsz;
    assert (Hb : b <> []) by (destruct b; [cbn in Hn; lia | discriminate]);
    match goal with
    | |- context [transitionLineBreakContext ?c ?r ?x ?y] =>
        destruct (transitionLineBreakContext_range c r x y) as [Hv Hnext];
        specialize (Hnext (or_intror Hctx));
        destruct (Z.eqb_spec (snd (transitionLineBreakContext c r x y)) LineDontBreak)
          as [Hdont | Hbreak]
    end; cbn [negb].
  2, 4: eexists; split; [reflexivity | now apply lineSegmentOf_break].
  - destruct (Z.leb_spec (len b) (Z.of_nat (n + snd (utf8.DecodeRune (skipn n b)))))
      as [Hend | Hmore]; [| unfold len in Hmore; lia].
    eexists; split; [reflexivity | now apply lineSegmentOf_end].
  - destruct (Z.leb_spec (len b) (Z.of_nat (n + snd (utf8.DecodeRune (skipn n b)))))
      as [Hend | Hmore].
    + eexists; split; [reflexivity | now apply lineSegmentOf_end].
    + unfold len in Hmore. apply IH; [lia | lia | exact Hnext].
Qed.

Lemma unpackLineContext_range (state : Z) :
  State (unpackLineContext state) < 0 \/ contextInRange (unpackLineContext state).
Proof.
  unfold unpackLineContext. destruct (Z.ltb_spec state 0).
  - left. cbn. lia.
  - right. split; cbn [State Flags].
    + pose proof (land_byte_range state). lia.
    + pose proof (land_byte_range (Z.shiftr state 8)). lia.
Qed.

Lemma FirstLineSegmentContext_spec (b : bytes) (state : Z) :
  b <> [] ->
  exists res, FirstLineSegmentContext b state = Some res /\ lineSegmentOf b res.
Proof.
  intros Hb. unfold FirstLineSegmentContext.
  assert (Hlen : (0 < length b)%nat) by (destruct b; [congruence | cbn; lia]).
  destruct (Z.eqb_spec (len b) 0) as [H0 | _]; [unfold len in H0; lia |].
  pose proof (DecodeRune_size b Hb) as Hsz. cbv zeta.
  destruct (Z.leb_spec (len b) (Z.of_nat (snd (utf8.DecodeRune b)))) as [Hend | Hmore].
  - eexists; split; [reflexivity |].
    apply lineSegmentOf_end; [exact Hb |].
    split; vm_compute; split; discriminate.
  - unfold len in Hmore.
    apply firstLineSegmentContextLoop_spec; [lia | lia |].
    apply transitionLineBreakContext_range, unpackLineContext_range.
Qed.

Lemma lineSegments_spec (fuel : nat) : forall (b : bytes) (state : Z),
  (length b <= fuel)%nat ->
  exists out,
    lineSegments fuel b state = Some out /\
    concat (map fst out) = b /\
    Forall (fun s => fst s <> [] /\ (snd s = LineCanBreak \/ snd s = LineMustBreak)) out /\
    (b <> [] -> exists front last, out = front ++ [(last, LineMustBreak)]).
Proof.
  induction fuel as [|fuel IH]; intros b state Hfuel.
  - destruct b; [| cbn in Hfuel; lia].
    exists []. cbn. repeat split; auto. congruence.
  - destruct b as [|c t].
    + exists []. cbn. repeat split; auto. congruence.
    + destruct (FirstLineSegmentContext_spec (c :: t) state ltac:(discriminate))
        as (res & Hres & Hok).
      destruct Hok as (Happ & Hne & Hend & Hmid & _).
      assert (Hshort : (length (segmentRest res) < length (c :: t))%nat).
      { rewrite <- Happ, length_app.
        destruct (segment res); [congruence | cbn; lia]. }
      destruct (IH (segmentRest res) (segmentState res))
        as (out & Hout & Hcat & Hall & Hlast).
      { cbn in Hfuel, Hshort. lia. }
      exists ((segment res, breakType res) :: out).
      cbn [lineSegments]. rewrite Hres, Hout.
      repeat split.
      * cbn. now rewrite Hcat.
      * constructor; [| exact Hall]. cbn [fst snd]. split; [exact Hne |].
        destruct (segmentRest res) eqn:Hrest.
        -- right. now apply Hend.
        -- apply Hmid. discriminate.
      * intros _. destruct (segmentRest res) as [|c' t'] eqn:Hrest.
        -- destruct fuel; cbn in Hout; injection Hout as <-.
           ++ exists [], (segment res). now rewrite (Hend eq_refl).
           ++ exists [], (segment res). now rewrite (Hend eq_refl).
        -- destruct (Hlast ltac:(discriminate)) as (front & last & ->).
           exists ((segment res, breakType res) :: front), last. reflexivity.
Qed.
End FirstLineSegmentShape.

(** X13. On a non-empty input [FirstLineSegmentContext] returns, for every
    state token, a non-empty segment and a rest that together are the input:
    the loop always ends, nothing is lost, and the rest is shorter than the
    input. *)
Theorem FirstLineSegmentContext_splits_input : forall (ext : Externals) (b : bytes)
    (state : Z),
  b <> [] ->
  exists res,
    FirstLineSegmentContext b state = Some res /\
    segment res ++ segmentRest res = b /\
    segment res <> [] /\
    (length (segmentRest res) < length b)%nat.
Proof.
  intros ext b state Hb.
  destruct (FirstLineSegmentContext_spec b state Hb) as (res & Hres & Hok).
  destruct Hok as (Happ & Hne & _).
  exists res. repeat split; auto.
  rewrite <- Happ, length_app. destruct (segment res); [congruence | cbn; lia].
Qed.

Lemma FirstLineSegmentContext_splits_input_witness :
  firstLine <> [] /\
  exists res,
    @FirstLineSegmentContext sampleExternals firstLine (-1) = Some res /\
    segment res ++ segmentRest res = firstLine /\
    segment res <> [] /\
    (length (segmentRest res) < length firstLine)%nat.
Proof.
  assert (H : firstLine <> []) by discriminate.
  split; [exact H |].
  apply (FirstLineSegmentContext_splits_input sampleExternals firstLine (-1) H).
Defined.

(** X14. The break type that [FirstLineSegmentContext] reports for a non-empty
    input is LineMustBreak when the segment reaches the end of the input and
    LineCanBreak or LineMustBreak otherwise, never LineDontBreak; the returned
    state is a token in 0..65535, never the initial -1, and unpacking and
    packing it again gives the same token. *)
Theorem FirstLineSegmentContext_break_type : forall (ext : Externals) (b : bytes)
    (state : Z) (res : LineSegment),
  b <> [] ->
  FirstLineSegmentContext b state = Some res ->
  (segmentRest res = [] -> breakType res = LineMustBreak) /\
  (segmentRest res <> [] ->
   breakType res = LineCanBreak \/ breakType res = LineMustBreak) /\
  0 <= segmentState res < 2 ^ 16 /\
  packLineContext (unpackLineContext (segmentState res)) = segmentState res.
Proof.
  intros ext b state res Hb Hres.
  destruct (FirstLineSegmentContext_spec b state Hb) as (res' & Hres' & Hok).
  assert (res' = res) by congruence. subst res'.
  destruct Hok as (_ & _ & Hend & Hmid & Hst & Hpack).
  auto.
Qed.

Lemma FirstLineSegmentContext_break_type_witness :
  hello <> [] /\
  @FirstLineSegmentContext sampleExternals hello (-1)
    = Some (mkLineSegment hello [] LineMustBreak 19) /\
  (segmentRest (mkLineSegment hello [] LineMustBreak 19) = [] ->
   breakType (mkLineSegment hello [] LineMustBreak 19) = LineMustBreak) /\
  (segmentRest (mkLineSegment hello [] LineMustBreak 19) <> [] ->
   breakType (mkLineSegment hello [] LineMustBreak 19) = LineCanBreak \/
   breakType (mkLineSegment hello [] LineMustBreak 19) = LineMustBreak) /\
  0 <= segmentState (mkLineSegment hello [] LineMustBreak 19) < 2 ^ 16 /\
  packLineContext (unpackLineContext (segmentState (mkLineSegment hello [] LineMustBreak 19)))
    = segmentState (mkLineSegment hello [] LineMustBreak 19).
Proof.
  assert (H1 : hello <> []) by discriminate.
  assert (H2 : @FirstLineSegmentContext sampleExternals hello (-1)
                 = Some (mkLineSegment hello [] LineMustBreak 19))
    by (vm_compute; reflexivity).
  split; [exact H1 |]. split; [exact H2 |].
  apply (FirstLineSegmentContext_break_type sampleExternals hello (-1) _ H1 H2).
Defined.

(** X15. The caller's loop
    [for len(b) > 0 { seg, b, _, state = FirstLineSegmentContext(b, state) }]
    ends within len(b) calls for every input and every starting state; the
    segments are non-empty and concatenate to the input, every break type is
    LineCanBreak or LineMustBreak, and the last one is LineMustBreak. *)
Theorem lineSegments_cover_input : forall (ext : Externals) (b : bytes) (state : Z),
  exists out,
    lineSegments (length b) b state = Some out /\
    concat (map fst out) = b /\
    Forall (fun s => fst s <> [] /\ (snd s = LineCanBreak \/ snd s = LineMustBreak)) out /\
    (b <> [] -> exists front last, out = front ++ [(last, LineMustBreak)]).
Proof. intros ext b state. apply lineSegments_spec. lia. Qed.

(** ** Words, spaces and line feeds in [FirstLineSegmentContext] *)

Section FirstLineSegmentWords.
Context {ext : Externals}.

Lemma firstLineSegmentContextLoop_ascii (fuel : nat) (pre : bytes) (c : byte)
    (post : bytes) (ctx : LineContext) :
  b2z c <= 0x7F ->
  firstLineSegmentContextLoop fuel (pre ++ c :: post) (length pre) ctx =
  let t := transitionLineBreakContext ctx (b2z c) (Some post) [] in
  if negb (snd t =? LineDontBreak) then
    Some (mkLineSegment pre (c :: post) (snd t) (packLineContext ctx))
  else
    match post with
    | [] => Some (mkLineSegment (pre ++ [c]) [] LineMustBreak (packLineContext (fst t)))
    | _ :: _ =>
        match fuel with
        | O => None
        | S fuel' =>
            firstLineSegmentContextLoop fuel' ((pre ++ [c]) ++ post) (length (pre ++ [c]))
              (fst t)
        end
    end.
Proof.
  intros Hc. rewrite firstLineSegmentContextLoop_unfold. cbv zeta.
  assert (Hskip : skipn (length pre) (pre ++ c :: post) = c :: post).
  { rewrite skipn_app, skipn_all, Nat.sub_diag. reflexivity. }
  assert (Hskip1 : skipn (length pre + 1) (pre ++ c :: post) = post).
  { rewrite skipn_app, skipn_all2 by lia.
    replace (length pre + 1 - length pre)%nat with 1%nat by lia. reflexivity. }
  assert (Hfirst : firstn (length pre) (pre ++ c :: post) = pre).
  { rewrite firstn_app, firstn_all, Nat.sub_diag. cbn. apply app_nil_r. }
  rewrite Hskip, (DecodeRune_ascii c post Hc). cbn [fst snd].
  rewrite Hskip1, Hfirst.
  unfold bytes.
  match goal with
  | |- context [transitionLineBreakContext ctx (b2z c) ?x ?y] =>
      generalize (transitionLineBreakContext ctx (b2z c) x y)
  end.
  intros t.
  destruct (negb (snd t =? LineDontBreak)); [reflexivity |].
  destruct post as [|c1 post].
  - destruct (Z.leb_spec (len (pre ++ [c])) (Z.of_nat (length pre + 1))) as [_ | Hlt];
      [reflexivity |].
    unfold len in Hlt. rewrite length_app in Hlt. cbn in Hlt. lia.
  - destruct (Z.leb_spec (len (pre ++ c :: c1 :: post)) (Z.of_nat (length pre + 1)))
      as [Hle | _].
    { unfold len in Hle. rewrite length_app in Hle. cbn in Hle. lia. }
    rewrite <- app_assoc, length_app. reflexivity.
Qed.

Lemma isWord_cons (c : byte) (w : bytes) :
  isWord (c :: w) = true -> isAlnum (b2z c) = true /\ b2z c <= 0x7F /\ isWord w = true.
Proof.
  unfold isWord. cbn [forallb]. intros H. apply andb_prop in H. destruct H as [Hc Hw].
  pose proof (isAlnum_range _ Hc). repeat split; auto. lia.
Qed.

(** The loop runs through a word without finding a break. *)
Lemma firstLineSegmentContextLoop_word (w : bytes) : forall (pre post : bytes)
    (ctx : LineContext) (fuel : nat),
  post <> [] ->
  isWord w = true ->
  In (State ctx) [lbcAL; lbcHL; lbcNU] ->
  contextInRange ctx ->
  exists ctx',
    In (State ctx') [lbcAL; lbcHL; lbcNU] /\ contextInRange ctx' /\
    firstLineSegmentContextLoop (length w + fuel) (pre ++ w ++ post) (length pre) ctx
      = firstLineSegmentContextLoop fuel ((pre ++ w) ++ post) (length (pre ++ w)) ctx'.
Proof.
  induction w as [|c w IH]; intros pre post ctx fuel Hpost Hw Hst Hctx.
  - exists ctx. rewrite app_nil_r. cbn. auto.
  - destruct (isWord_cons c w Hw) as (Hc & Hascii & Hw').
    destruct (context_alnum_step ctx (b2z c) (Some (w ++ post)) [] Hst Hc) as [Hv Hst'].
    destruct (transitionLineBreakContext_range ctx (b2z c) (Some (w ++ post)) [])
      as [_ Hctx'].
    specialize (Hctx' (or_intror Hctx)).
    destruct (IH (pre ++ [c]) post _ fuel Hpost Hw' Hst' Hctx')
      as (ctx' & Hs & Hr & Heq).
    exists ctx'. split; [exact Hs |]. split; [exact Hr |].
    cbn [app length Nat.add].
    rewrite (firstLineSegmentContextLoop_ascii _ pre c (w ++ post) ctx Hascii). cbv zeta.
    unfold bytes in *. rewrite Hv.
    change (negb (LineDontBreak =? LineDontBreak)) with false. cbv iota.
    destruct (w ++ post) as [|c1 t] eqn:Hwp.
    { destruct w; [cbn in Hwp; congruence | discriminate]. }
    rewrite <- Hwp.
    rewrite <- !app_assoc in Heq. cbn [app] in Heq.
    rewrite <- !app_assoc. cbn [app].
    rewrite <- Hwp in Heq. exact Heq.
Qed.

(** The first code point of the input only updates the context. *)
Lemma FirstLineSegmentContext_ascii (c0 : byte) (post : bytes) (state : Z) :
  b2z c0 <= 0x7F ->
  post <> [] ->
  FirstLineSegmentContext (c0 :: post) state =
  firstLineSegmentContextLoop (S (length post)) ([c0] ++ post) (length [c0])
    (fst (transitionLineBreakContext (unpackLineContext state) (b2z c0) (Some post) [])).
Proof.
  intros Hc Hpost. unfold FirstLineSegmentContext.
  rewrite (DecodeRune_ascii c0 post Hc). cbn [fst snd].
  destruct (Z.eqb_spec (len (c0 :: post)) 0) as [H0 | _];
    [unfold len in H0; cbn in H0; lia |].
  destruct (Z.leb_spec (len (c0 :: post)) (Z.of_nat 1)) as [Hle | _].
  { unfold len in Hle. destruct post; [congruence | cbn in Hle; lia]. }
  reflexivity.
Qed.

(** From the first code point of a word to the position after the word. *)
Lemma FirstLineSegmentContext_word (c0 : byte) (w post : bytes) (state : Z) :
  wordEntry (unpackLineContext state) ->
  isWord (c0 :: w) = true ->
  post <> [] ->
  exists ctx',
    In (State ctx') [lbcAL; lbcHL; lbcNU] /\ contextInRange ctx' /\
    FirstLineSegmentContext (c0 :: w ++ post) state
      = firstLineSegmentContextLoop (S (length post)) ((c0 :: w) ++ post)
          (length (c0 :: w)) ctx'.
Proof.
  intros Hentry Hw Hpost.
  destruct (isWord_cons c0 w Hw) as (Hc & Hascii & Hw').
  assert (Hne : w ++ post <> []) by (destruct w; [exact Hpost | discriminate]).
  rewrite (FirstLineSegmentContext_ascii c0 (w ++ post) state Hascii Hne).
  pose proof (context_word_entry _ (b2z c0) (Some (w ++ post)) [] Hentry Hc) as Hst.
  destruct (transitionLineBreakContext_range (unpackLineContext state) (b2z c0)
              (Some (w ++ post)) []) as [_ Hctx].
  specialize (Hctx (unpackLineContext_range state)).
  destruct (firstLineSegmentContextLoop_word w [c0] post _ (S (length post)) Hpost Hw'
              Hst Hctx) as (ctx' & Hs & Hr & Heq).
  exists ctx'. split; [exact Hs |]. split; [exact Hr |].
  etransitivity; [| exact Heq].
  f_equal. rewrite length_app. lia.
Qed.

Lemma FirstLineSegmentContext_whole_word (c0 : byte) (w : bytes) (state : Z) :
  wordEntry (unpackLineContext state) ->
  isWord (c0 :: w) = true ->
  exists ctx',
    In (State ctx') [lbcAL; lbcHL; lbcNU] /\ contextInRange ctx' /\
    FirstLineSegmentContext (c0 :: w) state
      = Some (mkLineSegment (c0 :: w) [] LineMustBreak
                (if len w =? 0 then packLineContext (mkLineContext lbcAny 0)
                 else packLineContext ctx')).
Proof.
  intros Hentry Hw.
  destruct w as [|c w0];
    [| destruct (@exists_last _ (c :: w0) ltac:(discriminate)) as (w' & c1 & Hlast);
       rewrite Hlast in *; clear c w0 Hlast].
  - exists (mkLineContext lbcAL 0).
    split; [cbn; auto |]. split; [split; vm_compute; split; discriminate |].
    destruct (isWord_cons c0 [] Hw) as (_ & Hascii & _).
    unfold FirstLineSegmentContext. rewrite (DecodeRune_ascii c0 [] Hascii).
    reflexivity.
  - assert (Hw1 : isWord (c0 :: w') = true /\ isAlnum (b2z c1) = true).
    { unfold isWord in *. cbn [forallb] in *. rewrite forallb_app in Hw. cbn in Hw.
      apply andb_prop in Hw. destruct Hw as [H0 Hw]. apply andb_prop in Hw.
      destruct Hw as [Hw Hc1]. rewrite H0, Hw. split; [reflexivity |].
      now rewrite andb_true_r in Hc1. }
    destruct Hw1 as [Hw1 Hc1].
    destruct (FirstLineSegmentContext_word c0 w' [c1] state Hentry Hw1 ltac:(discriminate))
      as (ctx1 & Hs1 & Hr1 & Heq).
    rewrite Heq.
    pose proof (isAlnum_range _ Hc1) as Hrange.
    rewrite (firstLineSegmentContextLoop_ascii _ (c0 :: w') c1 [] ctx1 ltac:(lia)).
    cbv zeta.
    destruct (context_alnum_step ctx1 (b2z c1) (Some []) [] Hs1 Hc1) as [Hv Hst'].
    destruct (transitionLineBreakContext_range ctx1 (b2z c1) (Some []) []) as [_ Hctx'].
    specialize (Hctx' (or_intror Hr1)).
    unfold bytes in *.
    rewrite Hv. change (negb (LineDontBreak =? LineDontBreak)) with false. cbv iota.
    eexists. split; [exact Hst' |]. split; [exact Hctx' |].
    destruct (Z.eqb_spec (len (w' ++ [c1])) 0) as [H0 | _].
    { unfold len in H0. rewrite length_app in H0. cbn in H0. lia. }
    reflexivity.
Qed.
End FirstLineSegmentWords.

Section FirstLineSegmentBreaks.
Context {ext : Externals}.



Lemma FirstLineSegmentContext_word_space (c0 : byte) (w : bytes) (c : byte)
    (post : bytes) (state : Z) :
  wordEntry (unpackLineContext state) ->
  isWord (c0 :: w) = true ->
  isAlnum (b2z c) = true ->
  fst (propertyLineBreak 0x20) = prSP ->
  exists ctx',
    State ctx' = lbcSP /\ Z.land (Flags ctx') lbCtxAfterZWJ = 0 /\
    contextInRange ctx' /\
    FirstLineSegmentContext (c0 :: w ++ x20 :: c :: post) state
      = Some (mkLineSegment (c0 :: w ++ [x20]) (c :: post) LineCanBreak
                (packLineContext ctx')).
Proof.
  intros Hentry Hw Hc Hsp.
  destruct (FirstLineSegmentContext_word c0 w (x20 :: c :: post) state Hentry Hw
              ltac:(discriminate)) as (ctx1 & Hs1 & Hr1 & Heq).
  rewrite Heq.
  rewrite (firstLineSegmentContextLoop_ascii _ (c0 :: w) x20 (c :: post) ctx1)
    by (vm_compute; discriminate).
  cbv zeta.
  change (b2z x20) with 0x20.
  destruct (context_space_step ctx1 0x20 (Some (c :: post)) [] Hs1 Hsp)
    as (Hv & Hst & Hfl).
  destruct (transitionLineBreakContext_range ctx1 0x20 (Some (c :: post)) [])
    as [_ Hctx].
  specialize (Hctx (or_intror Hr1)).
  unfold bytes in *. rewrite Hv.
  change (negb (LineDontBreak =? LineDontBreak)) with false. cbv iota.
  cbn [length].
  pose proof (isAlnum_range _ Hc) as Hrange.
  rewrite (firstLineSegmentContextLoop_ascii _ ((c0 :: w) ++ [x20]) c post _ ltac:(lia)).
  cbv zeta.
  match goal with
  | |- context [transitionLineBreakContext ?cx (b2z c) ?x ?y] =>
      destruct (context_after_space cx (b2z c) x y Hst Hfl Hc) as [Hcan _]
  end.
  unfold bytes in *. rewrite Hcan.
  change (negb (LineCanBreak =? LineDontBreak)) with true. cbv iota.
  eexists. split; [exact Hst |]. split; [exact Hfl |]. split; [exact Hctx |].
  reflexivity.
Qed.

Lemma wordEntry_initial : wordEntry (unpackLineContext (-1)).
Proof. left. cbn. lia. Qed.

Lemma lineSegments_word_space_word (c0 : byte) (w : bytes) (c : byte) (w2 : bytes) :
  isWord (c0 :: w) = true ->
  isWord (c :: w2) = true ->
  fst (propertyLineBreak 0x20) = prSP ->
  lineSegments (length (c0 :: w ++ x20 :: c :: w2)) (c0 :: w ++ x20 :: c :: w2) (-1)
    = Some [(c0 :: w ++ [x20], LineCanBreak); (c :: w2, LineMustBreak)].
Proof.
  intros Hw Hw2 Hsp.
  destruct (isWord_cons c w2 Hw2) as (Hc & _ & _).
  destruct (FirstLineSegmentContext_word_space c0 w c w2 (-1) wordEntry_initial Hw Hc Hsp)
    as (ctx1 & Hst & Hfl & Hctx & Hfirst).
  assert (Hentry : wordEntry (unpackLineContext (packLineContext ctx1))).
  { destruct Hctx as [Hs Hf]. destruct (unpack_pack ctx1 Hs Hf) as [_ ->].
    right. right. auto. }
  destruct (FirstLineSegmentContext_whole_word c w2 _ Hentry Hw2)
    as (ctx2 & _ & _ & Hsecond).
  assert (Hlen : length (c0 :: w ++ x20 :: c :: w2) = S (S (length (w ++ w2) + 1)))
    by (cbn; rewrite !length_app; cbn; lia).
  rewrite Hlen.
  cbn [lineSegments app]. rewrite Hfirst. cbn [segmentRest segmentState segment breakType].
  rewrite Hsecond. cbn [segmentRest segmentState segment breakType].
  destruct (length (w ++ w2) + 1)%nat; reflexivity.
Qed.
End FirstLineSegmentBreaks.

(** X16. A word of ASCII letters and digits is never split: at the start of
    the text, after a letter or digit, or after a space,
    [FirstLineSegmentContext] returns the whole word as the segment, an empty
    rest and LineMustBreak. *)
Theorem FirstLineSegmentContext_keeps_word : forall (ext : Externals) (w : bytes)
    (state : Z),
  w <> [] ->
  isWord w = true ->
  wordEntry (unpackLineContext state) ->
  exists st,
    FirstLineSegmentContext w state = Some (mkLineSegment w [] LineMustBreak st).
Proof.
  intros ext [|c0 w] state Hne Hw Hentry; [congruence |].
  destruct (FirstLineSegmentContext_whole_word c0 w state Hentry Hw)
    as (ctx' & _ & _ & Heq).
  eexists. exact Heq.
Qed.

Lemma FirstLineSegmentContext_keeps_word_witness :
  hello <> [] /\ isWord hello = true /\ wordEntry (unpackLineContext (-1)) /\
  exists st,
    @FirstLineSegmentContext sampleExternals hello (-1)
      = Some (mkLineSegment hello [] LineMustBreak st).
Proof.
  assert (H1 : hello <> []) by discriminate.
  assert (H2 : isWord hello = true) by reflexivity.
  assert (H3 : wordEntry (unpackLineContext (-1))) by (left; cbn; lia).
  split; [exact H1 |]. split; [exact H2 |]. split; [exact H3 |].
  apply (FirstLineSegmentContext_keeps_word sampleExternals hello (-1) H1 H2 H3).
Defined.





(** X19. Two words of ASCII letters and digits separated by one space, run
    through the caller's loop from the initial state -1, give exactly two
    segments: the first word with the space and LineCanBreak, then the second
    word with LineMustBreak (TestLineContextBasic, "hello world"). *)
Theorem lineSegments_two_words : forall (ext : Externals) (w1 w2 : bytes),
  w1 <> [] -> w2 <> [] ->
  isWord w1 = true -> isWord w2 = true ->
  fst (propertyLineBreak 0x20) = prSP ->
  lineSegments (length (w1 ++ x20 :: w2)) (w1 ++ x20 :: w2) (-1)
    = Some [(w1 ++ [x20], LineCanBreak); (w2, LineMustBreak)].
Proof.
  intros ext [|c0 w] [|c w2] Hne1 Hne2 Hw1 Hw2 Hsp; try congruence.
  apply (lineSegments_word_space_word c0 w c w2 Hw1 Hw2 Hsp).
Qed.

Lemma lineSegments_two_words_witness :
  hello <> [] /\ hello <> [] /\ isWord hello = true /\ isWord hello = true /\
  fst (@propertyLineBreak sampleExternals 0x20) = prSP /\
  @lineSegments sampleExternals (length (hello ++ x20 :: hello)) (hello ++ x20 :: hello)
    (-1)
    = Some [(hello ++ [x20], LineCanBreak); (hello, LineMustBreak)].
Proof.
  assert (H1 : hello <> []) by discriminate.
  assert (H2 : isWord hello = true) by reflexivity.
  assert (H3 : fst (@propertyLineBreak sampleExternals 0x20) = prSP) by reflexivity.
  split; [exact H1 |]. split; [exact H1 |]. split; [exact H2 |]. split; [exact H2 |].
  split; [exact H3 |].
  apply (lineSegments_two_words sampleExternals hello hello H1 H1 H2 H2 H3).
Defined.

(** ** [StepString] and [Step] *)

Section StepStringAgrees.
Context {ext : Externals}.
Hypothesis Hword : forall state r remainder,
  transitionWordBreakState state r (Some remainder) [] =
  transitionWordBreakState state r None remainder.
Hypothesis Hsentence : forall state r remainder,
  transitionSentenceBreakState state r (Some remainder) [] =
  transitionSentenceBreakState state r None remainder.

(** The context machine only looks whether the look-ahead is empty. *)
Lemma transitionLineBreakContext_lookahead (ctx : LineContext) (r : rune)
    (remainder : bytes) :
  transitionLineBreakContext ctx r (Some remainder) [] =
  transitionLineBreakContext ctx r None remainder.
Proof.
  unfold transitionLineBreakContext.
  cbv beta iota.
  generalize (len remainder =? 0). intros e.
  change (len (@nil byte) =? 0) with true.
  destruct e; reflexivity.
Qed.

Lemma transitionLineBreakStateContext_lookahead (state : Z) (r : rune)
    (remainder : bytes) :
  transitionLineBreakStateContext state r (Some remainder) [] =
  transitionLineBreakStateContext state r None remainder.
Proof.
  unfold transitionLineBreakStateContext.
  now rewrite transitionLineBreakContext_lookahead.
Qed.

Lemma stepStringLoop_stepLoop (fuel : nat) : forall (b : bytes) (length : nat)
    (remainder : bytes) (graphemeState wordState sentenceState lineState firstProp width : Z),
  stepStringLoop fuel b length remainder graphemeState wordState sentenceState lineState
    firstProp width =
  stepLoop fuel b length remainder graphemeState wordState sentenceState lineState
    firstProp width.
Proof.
  induction fuel as [|fuel IH]; intros b n remainder gs ws ss ls fp w;
    cbn [stepStringLoop stepLoop]; unfold utf8.DecodeRuneInString; cbv zeta;
    rewrite <- Hword, <- Hsentence, <- transitionLineBreakStateContext_lookahead;
    [| rewrite IH]; reflexivity.
Qed.

Lemma StepString_Step (b : bytes) (state : Z) :
  (snd (utf8.DecodeRune b) < length b)%nat ->
  StepString b state = Step b state.
Proof.
  intros Hmore. unfold StepString, Step, utf8.DecodeRuneInString. cbv zeta.
  destruct (len b =? 0); [reflexivity |].
  destruct (Z.leb_spec (len b) (Z.of_nat (snd (utf8.DecodeRune b)))) as [Hend | _];
    [unfold len in Hend; lia |].
  rewrite stepStringLoop_stepLoop.
  rewrite <- Hword, <- Hsentence, <- transitionLineBreakStateContext_lookahead.
  reflexivity.
Qed.
End StepStringAgrees.

(** X20. [StepString] is like [Step] on every input that holds more than its
    first code point: when the word and the sentence machine treat the rest of
    the text alike whether it comes as the byte slice or as the string, both
    functions return the same cluster, rest, boundaries and state, for every
    state token. *)
Theorem StepString_agrees_with_Step : forall (ext : Externals) (b : bytes) (state : Z),
  (forall state r remainder,
     transitionWordBreakState state r (Some remainder) [] =
     transitionWordBreakState state r None remainder) ->
  (forall state r remainder,
     transitionSentenceBreakState state r (Some remainder) [] =
     transitionSentenceBreakState state r None remainder) ->
  (snd (utf8.DecodeRune b) < length b)%nat ->
  StepString b state = Step b state.
Proof.
  intros ext b state Hword Hsentence Hmore.
  now apply StepString_Step.
Qed.

Lemma StepString_agrees_with_Step_witness :
  (forall state r remainder,
     @transitionWordBreakState sampleExternals state r (Some remainder) [] =
     @transitionWordBreakState sampleExternals state r None remainder) /\
  (forall state r remainder,
     @transitionSentenceBreakState sampleExternals state r (Some remainder) [] =
     @transitionSentenceBreakState sampleExternals state r None remainder) /\
  (snd (utf8.DecodeRune hello) < length hello)%nat /\
  @StepString sampleExternals hello (-1) = @Step sampleExternals hello (-1).
Proof.
  assert (H1 : forall state r remainder,
             @transitionWordBreakState sampleExternals state r (Some remainder) [] =
             @transitionWordBreakState sampleExternals state r None remainder)
    by reflexivity.
  assert (H2 : forall state r remainder,
             @transitionSentenceBreakState sampleExternals state r (Some remainder) [] =
             @transitionSentenceBreakState sampleExternals state r None remainder)
    by reflexivity.
  assert (H3 : (snd (utf8.DecodeRune hello) < length hello)%nat) by (cbn; lia).
  split; [exact H1 |]. split; [exact H2 |]. split; [exact H3 |].
  apply (StepString_agrees_with_Step sampleExternals hello (-1) H1 H2 H3).
Defined.
